(** * Nano-Banana MCP server: session state, tool dispatcher and handlers

    A shallow embedding of the server class [NanoBananaMCP].  The
    handlers are asynchronous methods that mutate the session object, talk
    to the file system and call the remote image model; here each of them
    is a function from the session state and the outside world to a result,
    the new session state and the new world.  Calls are served one at a
    time, so an [await] is a plain sequencing point. *)

From Stdlib Require Import ZArith Ascii String List Lia DecimalString.
From stdpp Require Import base option list gmap strings.

Local Open Scope string_scope.

(** ** JavaScript strings

    Strings are byte strings (UTF-8).  The characters the server inspects
    (['/'], ['.'], [':'] and the letters of the four file extensions) are
    ASCII, and no character outside ASCII lowercases to one of those
    letters, so the byte-wise reading agrees with the UTF-16 one on every
    test the code makes. *)

Module JS.

Definition nl : string := String "010"%char EmptyString.
Definition dquote : string := String "034"%char EmptyString.

(** Truthiness of a value of type [string | undefined]. *)
Definition truthy (v : option string) : bool :=
  match v with
  | Some s => negb (String.eqb s "")
  | None => false
  end.

(** [v || d] on a possibly undefined string. *)
Definition or_else (v : option string) (d : string) : string :=
  match v with
  | Some s => if String.eqb s "" then d else s
  | None => d
  end.

(** A destructuring default [{ x = d }]: it replaces [undefined] only. *)
Definition param_default (d : string) (v : option string) : string :=
  match v with
  | Some s => s
  | None => d
  end.

Definition lower_ascii (c : ascii) : ascii :=
  let n := nat_of_ascii c in
  if (65 <=? n)%nat && (n <=? 90)%nat then ascii_of_nat (n + 32) else c.

Fixpoint toLowerCase (s : string) : string :=
  match s with
  | EmptyString => EmptyString
  | String c r => String (lower_ascii c) (toLowerCase r)
  end.

(** [s.substring(i, j)] for [i <= j]; both ends are clipped to the
    length of [s]. *)
Definition substring (i j : nat) (s : string) : string :=
  String.substring i (j - i) s.

(** [s.replace(/[:.]/g, '-')]. *)
Fixpoint replace_colon_dot (s : string) : string :=
  match s with
  | EmptyString => EmptyString
  | String c r =>
      String (if Ascii.eqb c ":" || Ascii.eqb c "." then "-"%char else c)
             (replace_colon_dot r)
  end.

Definition startsWith (s pre : string) : bool := String.prefix pre s.

Fixpoint includes (s sub : string) : bool :=
  String.prefix sub s ||
  match s with
  | EmptyString => false
  | String _ r => includes r sub
  end.

(** [String(n)] of a non-negative integer. *)
Definition of_nat (n : nat) : string :=
  NilEmpty.string_of_uint (Nat.to_uint n).

(** [Math.round(size / 1024)] for a non-negative integer [size]: the
    division by a power of two is exact in floating point and
    [Math.round] rounds halves up. *)
Definition round_div_1024 (size : nat) : nat := (size + 512) / 1024.

(** [arr.map(f => `- ${f}`).join('\n')]. *)
Fixpoint bullet_lines (fs : list string) : string :=
  match fs with
  | [] => ""
  | [f] => "- " +:+ f
  | f :: rest => "- " +:+ f +:+ nl +:+ bullet_lines rest
  end.

End JS.

(** ** [path.extname] (POSIX flavour of Node's [path] module)

    The scan of Node's implementation, from the last character down to the
    first: trailing separators are skipped, the scan stops at the first
    separator that precedes the last path component, and the right-most
    dot of that component starts the extension unless the component begins
    with it or is [".."].  Indices are kept as [Z] with [-1] for "not yet
    seen", as the library does. *)

Module Path.

Record scan := {
  startDot : Z;
  startPart : Z;
  end_ : Z;
  matchedSlash : bool;
  preDotState : Z
}.

Definition scan0 : scan :=
  {| startDot := -1; startPart := 0; end_ := -1;
     matchedSlash := true; preDotState := 0 |}.

(** One pass over the characters in reverse; [i] is the index of the
    head of [rev_chars] in the original string. *)
Fixpoint extname_scan (rev_chars : list ascii) (i : Z) (s : scan) : scan :=
  match rev_chars with
  | [] => s
  | code :: rest =>
      if Ascii.eqb code "/" then
        if negb (matchedSlash s) then
          {| startDot := startDot s; startPart := i + 1; end_ := end_ s;
             matchedSlash := matchedSlash s; preDotState := preDotState s |}
        else extname_scan rest (i - 1) s
      else
        let s1 :=
          if (end_ s =? -1)%Z then
            {| startDot := startDot s; startPart := startPart s;
               end_ := i + 1; matchedSlash := false;
               preDotState := preDotState s |}
          else s in
        let s2 :=
          if Ascii.eqb code "." then
            if (startDot s1 =? -1)%Z then
              {| startDot := i; startPart := startPart s1; end_ := end_ s1;
                 matchedSlash := matchedSlash s1;
                 preDotState := preDotState s1 |}
            else if negb (preDotState s1 =? 1)%Z then
              {| startDot := startDot s1; startPart := startPart s1;
                 end_ := end_ s1; matchedSlash := matchedSlash s1;
                 preDotState := 1 |}
            else s1
          else if negb (startDot s1 =? -1)%Z then
            {| startDot := startDot s1; startPart := startPart s1;
               end_ := end_ s1; matchedSlash := matchedSlash s1;
               preDotState := -1 |}
          else s1 in
        extname_scan rest (i - 1) s2
  end.

Definition chars (s : string) : list ascii := list_ascii_of_string s.

Definition extname (path : string) : string :=
  let s := extname_scan (rev (chars path))
                        (Z.of_nat (String.length path) - 1) scan0 in
  if (startDot s =? -1)%Z || (end_ s =? -1)%Z || (preDotState s =? 0)%Z ||
     ((preDotState s =? 1)%Z && (startDot s =? end_ s - 1)%Z &&
      (startDot s =? startPart s + 1)%Z)
  then ""
  else JS.substring (Z.to_nat (startDot s)) (Z.to_nat (end_ s)) path.

End Path.

(** ** [getMimeType] *)

Definition getMimeType (filePath : string) : string :=
  let ext := JS.toLowerCase (Path.extname filePath) in
  if String.eqb ext ".jpg" then "image/jpeg"
  else if String.eqb ext ".jpeg" then "image/jpeg"
  else if String.eqb ext ".png" then "image/png"
  else if String.eqb ext ".webp" then "image/webp"
  else "image/jpeg".


(** ** Protocol values *)

Inductive ErrorCode :=
  | MethodNotFound
  | InvalidParams
  | InvalidRequest
  | InternalError.

(** What a JavaScript [throw] can carry in this program: a protocol error
    of the MCP SDK, a validation error of the schema library (with the
    messages of its issues), or any other error with its message. *)
Inductive Thrown :=
  | McpError (code : ErrorCode) (message : string)
  | ZodError (issues : list string)
  | JsError (message : string).

Inductive Result (A : Type) :=
  | Ok (value : A)
  | Throw (error : Thrown).
Arguments Ok {A} value.
Arguments Throw {A} error.

Inductive ContentPart :=
  | TextContent (text : string)
  | ImageContent (data : string) (mimeType : string).

Record CallToolResult := { content : list ContentPart }.

(** The argument bag of a call, at the types the handlers cast it to:
    [apiKey], [prompt] and [imagePath] are strings, the others may be
    undefined.  Each handler reads the fields its own cast names.  A bag
    that breaks these types (no arguments at all, an [apiKey] that is not
    a string) is outside the model. *)
Record Arguments := {
  apiKey : string;
  prompt : string;
  imagePath : string;
  referenceImages : option (list string);
  aspectRatio : option string;
  imageSize : option string
}.

Record CallToolRequest := {
  name : string;
  arguments : Arguments
}.

(** ** The remote image model *)

Record Blob := {
  blob_data : option string;
  blob_mimeType : option string
}.

(** A part of an upstream response. *)
Record Part := {
  part_text : option string;
  part_inlineData : option Blob
}.

(** A candidate, with [content?.parts] in one field. *)
Record Candidate := { cand_parts : option (list Part) }.

Record GenerateContentResponse := { candidates : option (list Candidate) }.

(** A part of an upstream request, as [editImage] builds them. *)
Inductive RequestPart :=
  | InlinePart (data : string) (mimeType : string)
  | PromptPart (text : string).

Inductive Contents :=
  | PromptOnly (text : string)
  | PartList (parts : list RequestPart).

Record ImageConfig := {
  cfg_aspectRatio : string;
  cfg_imageSize : option string
}.

Record GenerateContentParameters := {
  gc_model : string;
  gc_contents : Contents;
  gc_imageConfig : ImageConfig
}.

(** The client handle; [new GoogleGenAI({ apiKey })] keeps the key. *)
Record GoogleGenAI := { client_apiKey : string }.

(** ** Session state and the outside world *)

Inductive ConfigSource := environment | config_file | not_configured.

Record Config := { geminiApiKey : string }.

Record Session := {
  genAI : option GoogleGenAI;
  config : option Config;
  lastImagePath : option string;
  configSource : ConfigSource
}.

(** The fields of a fresh [NanoBananaMCP]. *)
Definition initialSession : Session :=
  {| genAI := None; config := None; lastImagePath := None;
     configSource := not_configured |}.

(** A file-system entry: a regular file with its bytes and the time of
    its last modification (the index of a clock reading), or a
    directory. *)
Inductive Node :=
  | File (bytes : list Byte.byte) (mtime : nat)
  | Dir.

(** The effects a handler can have outside the session object. *)
Inductive Event :=
  | EvGenerateContent (client : GoogleGenAI) (params : GenerateContentParameters)
  | EvMkdir (path : string)
  | EvWriteFile (path : string) (bytes : list Byte.byte).

Record World := {
  fs : gmap string Node;
  trace : list Event;   (* most recent first *)
  clock : nat;          (* how many times the clock was read *)
  rng : nat             (* how many random numbers were drawn *)
}.

(** ** The platform

    What the process gets from Node, its libraries, its environment and
    the remote service.  The server's logic is independent of how these
    behave, so they are an interface. *)
Class Platform := {
  env_GEMINI_API_KEY : option string;
  env_GEMINI_IMAGE_MODEL : option string;
  env_NANO_BANANA_OUTPUT_DIR : option string;
  os_platform : string;
  os_homedir : string;
  process_cwd : string;
  (** [path.join(...segments)]; it answers ["."] rather than the empty
      string *)
  path_join : list string -> string;
  path_join_nonempty : forall segments, path_join segments <> "";
  (** [Buffer.from(s, 'base64')] and [buf.toString('base64')] *)
  base64_decode : string -> list Byte.byte;
  base64_encode : list Byte.byte -> string;
  (** [new Date().toISOString()] at the n-th reading of the clock, and
      [toLocaleString()] of a modification time *)
  date_toISOString : nat -> string;
  date_toLocaleString : nat -> string;
  (** [Math.random().toString(36)] for the n-th number drawn *)
  random_toString36 : nat -> string;
  (** [JSON.stringify(config, null, 2)], and the [geminiApiKey] string
      field of [JSON.parse(data)] when the data parses and has one *)
  json_stringify_config : Config -> list Byte.byte;
  json_parse_geminiApiKey : list Byte.byte -> option string;
  (** [error.message] of a schema validation error *)
  zod_message : list string -> string;
  (** [client.models.generateContent(params)]; the answer may depend on
      everything that happened before *)
  generateContent :
    list Event -> GoogleGenAI -> GenerateContentParameters ->
    Result GenerateContentResponse
}.

(** [error instanceof Error ? error.message : String(error)] *)
Definition errorMessage `{Platform} (e : Thrown) : string :=
  match e with
  | McpError _ m => m
  | ZodError issues => zod_message issues
  | JsError m => m
  end.

(** ** A state-and-exception monad for the handlers *)

Definition M (A : Type) : Type :=
  Session -> World -> Result A * Session * World.

Definition ret {A} (a : A) : M A := fun s w => (Ok a, s, w).

Definition throw {A} (e : Thrown) : M A := fun s w => (Throw e, s, w).

Definition bind {A B} (c : M A) (k : A -> M B) : M B :=
  fun s w =>
    match c s w with
    | (Ok a, s', w') => k a s' w'
    | (Throw e, s', w') => (Throw e, s', w')
    end.

(** [try { c } catch (error) { h error }] *)
Definition try_catch {A} (c : M A) (h : Thrown -> M A) : M A :=
  fun s w =>
    match c s w with
    | (Ok a, s', w') => (Ok a, s', w')
    | (Throw e, s', w') => h e s' w'
    end.

Notation "x <- c ;; k" := (bind c (fun x => k))
  (at level 100, c at next level, right associativity).
Notation "c ;;; k" := (bind c (fun _ => k))
  (at level 100, right associativity).

Definition getSession : M Session := fun s w => (Ok s, s, w).
Definition setSession (f : Session -> Session) : M unit :=
  fun s w => (Ok tt, f s, w).
Definition getWorld : M World := fun s w => (Ok w, s, w).
Definition setWorld (f : World -> World) : M unit :=
  fun s w => (Ok tt, s, f w).

(** A loop [for (const x of xs) { acc = body x acc }] whose body may
    throw: the effects made before the throw stay. *)
Fixpoint for_each {X Acc} (body : X -> Acc -> M Acc) (xs : list X) (acc : Acc)
  : M Acc :=
  match xs with
  | [] => ret acc
  | x :: rest => acc' <- body x acc ;; for_each body rest acc'
  end.

(** ** File system and clock primitives ([fs/promises], [Date], [Math]) *)

Module FS.

Definition quote (p : string) : string := "'" +:+ p +:+ "'".

Definition log (e : Event) (w : World) : World :=
  {| fs := fs w; trace := e :: trace w; clock := clock w; rng := rng w |}.

(** [fs.access(p)]: succeeds when something exists at [p]. *)
Definition access (p : string) : M unit :=
  w <- getWorld ;;
  match fs w !! p with
  | Some _ => ret tt
  | None =>
      throw (JsError ("ENOENT: no such file or directory, access " +:+ quote p))
  end.

(** [fs.readFile(p)] *)
Definition readFile (p : string) : M (list Byte.byte) :=
  w <- getWorld ;;
  match fs w !! p with
  | Some (File bytes _) => ret bytes
  | Some Dir =>
      throw (JsError "EISDIR: illegal operation on a directory, read")
  | None =>
      throw (JsError ("ENOENT: no such file or directory, open " +:+ quote p))
  end.

(** [fs.stat(p)]: size in bytes and modification time. *)
Definition stat (p : string) : M (nat * nat) :=
  w <- getWorld ;;
  match fs w !! p with
  | Some (File bytes mtime) => ret (List.length bytes, mtime)
  | Some Dir => ret (4096, 0)   (* a directory has some size and time *)
  | None =>
      throw (JsError ("ENOENT: no such file or directory, stat " +:+ quote p))
  end.

(** [fs.writeFile(p, bytes)]: creates or replaces the file; a
    directory in the way makes it fail.  The other ways the call can
    fail on a real host (a missing or unwritable parent directory) are
    outside this model of the file system. *)
Definition writeFile (p : string) (bytes : list Byte.byte) : M unit :=
  w <- getWorld ;;
  match fs w !! p with
  | Some Dir =>
      throw (JsError ("EISDIR: illegal operation on a directory, open " +:+ quote p))
  | _ =>
      setWorld (fun w =>
        log (EvWriteFile p bytes)
            {| fs := <[p := File bytes (clock w)]> (fs w);
               trace := trace w; clock := clock w; rng := rng w |})
  end.

(** [fs.mkdir(p, { recursive: true })]: a no-op on an existing
    directory; a file in the way makes it fail.  Only the directory
    itself is recorded: the ancestors a real host would create with it,
    and the failures it could meet on the way, are outside this model of
    the file system. *)
Definition mkdir (p : string) : M unit :=
  w <- getWorld ;;
  match fs w !! p with
  | Some (File _ _) =>
      throw (JsError ("EEXIST: file already exists, mkdir " +:+ quote p))
  | _ =>
      setWorld (fun w =>
        log (EvMkdir p)
            {| fs := <[p := Dir]> (fs w);
               trace := trace w; clock := clock w; rng := rng w |})
  end.

End FS.

Section Server.

Context `{Plat : Platform}.

(** [new Date().toISOString()] *)
Definition newDateISO : M string :=
  fun s w =>
    (Ok (date_toISOString (clock w)), s,
     {| fs := fs w; trace := trace w; clock := S (clock w); rng := rng w |}).

(** [Math.random().toString(36)] *)
Definition mathRandom36 : M string :=
  fun s w =>
    (Ok (random_toString36 (rng w)), s,
     {| fs := fs w; trace := trace w; clock := clock w; rng := S (rng w) |}).

(** [client.models.generateContent(params)] *)
Definition callGenerateContent (client : GoogleGenAI)
    (params : GenerateContentParameters) : M GenerateContentResponse :=
  fun s w =>
    (generateContent (trace w) client params, s,
     FS.log (EvGenerateContent client params) w).

(** ** Process-wide settings *)

Definition DEFAULT_IMAGE_MODEL : string :=
  JS.or_else env_GEMINI_IMAGE_MODEL "gemini-2.5-flash-image".

Definition is_pro_model : bool :=
  String.eqb DEFAULT_IMAGE_MODEL "gemini-3-pro-image-preview".

(** The directory images are saved in: the one the environment names,
    else a default that depends on the host. *)
Definition defaultImagesDirectory : string :=
  if String.eqb os_platform "win32" then
    path_join [os_homedir; "Documents"; "nano-banana-images"]
  else
    let cwd := process_cwd in
    let isSystemPath :=
      JS.startsWith cwd "/usr/" || JS.startsWith cwd "/opt/" ||
      JS.startsWith cwd "/var/" in
    let isRootPath := String.eqb cwd "/" in
    let isTempOrCache :=
      JS.includes cwd "/tmp/" || JS.includes cwd "/cache/" ||
      JS.includes cwd "/.npm/" in
    if isSystemPath || isRootPath || isTempOrCache then
      path_join [os_homedir; "nano-banana-images"]
    else path_join [cwd; "generated_imgs"].

Definition getImagesDirectory : string :=
  match env_NANO_BANANA_OUTPUT_DIR with
  | Some customDir =>
      if String.eqb customDir "" then defaultImagesDirectory else customDir
  | None => defaultImagesDirectory
  end.

(** ** Configuration *)

(** [ConfigSchema.parse({ geminiApiKey: key })] on a key that is a
    string: the key must have at least one character. *)
Definition ConfigSchema_parse (key : string) : M Config :=
  if (String.length key <? 1)%nat
  then throw (ZodError ["Gemini API key is required"])
  else ret {| geminiApiKey := key |}.

(** [this.config !== null && this.genAI !== null] *)
Definition isConfigured (s : Session) : bool :=
  bool_decide (is_Some (config s)) && bool_decide (is_Some (genAI s)).

Definition ensureConfigured : M bool :=
  s <- getSession ;;
  ret (isConfigured s).

Definition configPath : string :=
  path_join [process_cwd; ".nano-banana-config.json"].

Definition saveConfig : M unit :=
  s <- getSession ;;
  match config s with
  | Some c => FS.writeFile configPath (json_stringify_config c)
  | None => ret tt
  end.

Definition set_config (c : Config) (s : Session) : Session :=
  {| genAI := genAI s; config := Some c;
     lastImagePath := lastImagePath s; configSource := configSource s |}.

Definition set_genAI (g : GoogleGenAI) (s : Session) : Session :=
  {| genAI := Some g; config := config s;
     lastImagePath := lastImagePath s; configSource := configSource s |}.

Definition set_configSource (src : ConfigSource) (s : Session) : Session :=
  {| genAI := genAI s; config := config s;
     lastImagePath := lastImagePath s; configSource := src |}.

Definition set_lastImagePath (p : string) (s : Session) : Session :=
  {| genAI := genAI s; config := config s;
     lastImagePath := Some p; configSource := configSource s |}.

(** Startup: the environment variable first, then the local file. *)
Definition loadConfig : M unit :=
  loaded <-
    (if JS.truthy env_GEMINI_API_KEY then
       try_catch
         (c <- ConfigSchema_parse (JS.or_else env_GEMINI_API_KEY "") ;;
          setSession (set_config c) ;;;
          setSession (set_genAI {| client_apiKey := geminiApiKey c |}) ;;;
          setSession (set_configSource environment) ;;;
          ret true)
         (fun _ => ret false)
     else ret false) ;;
  if loaded : bool then ret tt
  else
    try_catch
      (configData <- FS.readFile configPath ;;
       (* whatever is thrown here is caught just below *)
       c <- match json_parse_geminiApiKey configData with
            | Some key => ConfigSchema_parse key
            | None => throw (ZodError ["Required"])
            end ;;
       setSession (set_config c) ;;;
       setSession (set_genAI {| client_apiKey := geminiApiKey c |}) ;;;
       setSession (set_configSource config_file))
      (fun _ => setSession (set_configSource not_configured)).

Definition configureGeminiToken (request : CallToolRequest)
  : M CallToolResult :=
  let apiKey := apiKey (arguments request) in
  try_catch
    (ConfigSchema_parse apiKey ;;;
     setSession (set_config {| geminiApiKey := apiKey |}) ;;;
     setSession (set_genAI {| client_apiKey := apiKey |}) ;;;
     setSession (set_configSource config_file) ;;;
     saveConfig ;;;
     ret {| content :=
              [TextContent "✅ Gemini API token configured successfully! You can now use nano-banana image generation features."] |})
    (fun error =>
       match error with
       | ZodError issues =>
           throw (McpError InvalidParams
                    ("Invalid API key: " +:+
                     match issues with
                     | m :: _ => m
                     | [] => "undefined"
                     end))
       | _ => throw error
       end).

Definition getConfigurationStatus : M CallToolResult :=
  s <- getSession ;;
  let '(statusText, sourceInfo) :=
    if isConfigured s then
      ("✅ Gemini API token is configured and ready to use",
       match configSource s with
       | environment =>
           JS.nl +:+ "📍 Source: Environment variable (GEMINI_API_KEY)" +:+
           JS.nl +:+ "💡 This is the most secure configuration method."
       | config_file =>
           JS.nl +:+ "📍 Source: Local configuration file (.nano-banana-config.json)" +:+
           JS.nl +:+ "💡 Consider using environment variables for better security."
       | not_configured => ""
       end)
    else
      ("❌ Gemini API token is not configured",
       JS.nl +:+ JS.nl +:+
       "📝 Configuration options (in priority order):" +:+ JS.nl +:+
       "1. 🥇 MCP client environment variables (Recommended)" +:+ JS.nl +:+
       "2. 🥈 System environment variable: GEMINI_API_KEY  " +:+ JS.nl +:+
       "3. 🥉 Use configure_gemini_token tool" +:+ JS.nl +:+ JS.nl +:+
       "💡 For the most secure setup, add this to your MCP configuration:" +:+
       JS.nl +:+
       JS.dquote +:+ "env" +:+ JS.dquote +:+ ": { " +:+
       JS.dquote +:+ "GEMINI_API_KEY" +:+ JS.dquote +:+ ": " +:+
       JS.dquote +:+ "your-api-key-here" +:+ JS.dquote +:+ " }") in
  ret {| content := [TextContent (statusText +:+ sourceInfo)] |}.

(** ** Turning an upstream response into files and content parts *)

(** The three locals of the response loop: [content], [savedFiles]
    and [textContent]. *)
Record Acc := {
  acc_content : list ContentPart;
  acc_savedFiles : list string;
  acc_textContent : string
}.

Definition acc0 : Acc :=
  {| acc_content := []; acc_savedFiles := []; acc_textContent := "" |}.

(** [if (part.text) textContent += part.text] *)
Definition add_text (part : Part) (acc : Acc) : Acc :=
  if JS.truthy (part_text part) then
    {| acc_content := acc_content acc;
       acc_savedFiles := acc_savedFiles acc;
       acc_textContent :=
         acc_textContent acc +:+ JS.or_else (part_text part) "" |}
  else acc.

(** [savedFiles.push(filePath)] and [content.push({ type: "image", ... })] *)
Definition push_saved (filePath : string) (acc : Acc) : Acc :=
  {| acc_content := acc_content acc;
     acc_savedFiles := acc_savedFiles acc ++ [filePath];
     acc_textContent := acc_textContent acc |}.

Definition push_image (data : string) (blob : Blob) (acc : Acc) : Acc :=
  {| acc_content :=
       acc_content acc ++
       [ImageContent data (JS.or_else (blob_mimeType blob) "image/png")];
     acc_savedFiles := acc_savedFiles acc;
     acc_textContent := acc_textContent acc |}.

(** The file name both handlers synthesize, up to its prefix. *)
Definition synthFileName (pre : string) : M string :=
  iso <- newDateISO ;;
  let timestamp := JS.replace_colon_dot iso in
  r <- mathRandom36 ;;
  let randomId := JS.substring 2 8 r in
  ret (pre +:+ "-" +:+ timestamp +:+ "-" +:+ randomId +:+ ".png").

(** Body of the loop in [generateImage]. *)
Definition generatePart (imagesDir : string) (part : Part) (acc : Acc)
  : M Acc :=
  let acc := add_text part acc in
  match part_inlineData part with
  | Some blob =>
      if JS.truthy (blob_data blob) then
        let data := JS.or_else (blob_data blob) "" in
        fileName <- synthFileName "generated" ;;
        let filePath := path_join [imagesDir; fileName] in
        let imageBuffer := base64_decode data in
        FS.writeFile filePath imageBuffer ;;;
        setSession (set_lastImagePath filePath) ;;;
        ret (push_image data blob (push_saved filePath acc))
      else ret acc
  | None => ret acc
  end.

(** Body of the loop in [editImage]: the name is synthesized for every
    part that has [inlineData], the file is written only when the data
    is not empty. *)
Definition editPart (imagesDir : string) (part : Part) (acc : Acc)
  : M Acc :=
  let acc := add_text part acc in
  match part_inlineData part with
  | Some blob =>
      fileName <- synthFileName "edited" ;;
      let filePath := path_join [imagesDir; fileName] in
      acc <- (if JS.truthy (blob_data blob) then
                let imageBuffer :=
                  base64_decode (JS.or_else (blob_data blob) "") in
                FS.writeFile filePath imageBuffer ;;;
                setSession (set_lastImagePath filePath) ;;;
                ret (push_saved filePath acc)
              else ret acc) ;;
      if JS.truthy (blob_data blob) then
        ret (push_image (JS.or_else (blob_data blob) "") blob acc)
      else ret acc
  | None => ret acc
  end.

(** [response.candidates && response.candidates[0]?.content?.parts] *)
Definition response_parts (response : GenerateContentResponse)
  : option (list Part) :=
  match candidates response with
  | Some (c :: _) => cand_parts c
  | _ => None
  end.

Definition processResponse (body : string -> Part -> Acc -> M Acc)
    (response : GenerateContentResponse) : M Acc :=
  let imagesDir := getImagesDirectory in
  FS.mkdir imagesDir ;;;
  match response_parts response with
  | Some parts => for_each (body imagesDir) parts acc0
  | None => ret acc0
  end.

Definition modelInfo : string :=
  if is_pro_model then "Gemini 3 Pro Image" else "Gemini 2.5 Flash Image".

Definition imageConfigOf (aspectRatio imageSize : string) : ImageConfig :=
  {| cfg_aspectRatio := aspectRatio;
     cfg_imageSize := if is_pro_model then Some imageSize else None |}.

Definition notConfigured {A} : M A :=
  throw (McpError InvalidRequest
           "Gemini API token not configured. Use configure_gemini_token first.").

(** [this.genAI!.models.generateContent(params)] *)
Definition remoteGenerate (params : GenerateContentParameters)
  : M GenerateContentResponse :=
  s <- getSession ;;
  match genAI s with
  | Some client => callGenerateContent client params
  | None =>
      throw (JsError "Cannot read properties of null (reading 'models')")
  end.

(** ** [generateImage] *)

Definition generateStatus (prompt aspectRatio imageSize : string) (acc : Acc)
  : string :=
  let statusText :=
    "🎨 Image generated with nano-banana (" +:+ modelInfo +:+ ")!" +:+
    JS.nl +:+ JS.nl +:+
    "Prompt: " +:+ JS.dquote +:+ prompt +:+ JS.dquote +:+ JS.nl +:+
    "Aspect Ratio: " +:+ aspectRatio in
  let statusText :=
    if is_pro_model
    then statusText +:+ JS.nl +:+ "Resolution: " +:+ imageSize
    else statusText in
  let statusText :=
    if negb (String.eqb (acc_textContent acc) "")
    then statusText +:+ JS.nl +:+ JS.nl +:+ "Description: " +:+
         acc_textContent acc
    else statusText in
  if (0 <? List.length (acc_savedFiles acc))%nat then
    statusText +:+ JS.nl +:+ JS.nl +:+ "📁 Image saved to:" +:+ JS.nl +:+
    JS.bullet_lines (acc_savedFiles acc) +:+
    JS.nl +:+ JS.nl +:+ "💡 View the image by:" +:+
    JS.nl +:+ "1. Opening the file at the path above" +:+
    JS.nl +:+ "2. Clicking on " +:+ JS.dquote +:+ "Called generate_image" +:+
    JS.dquote +:+ " in Cursor to expand the MCP call details" +:+
    JS.nl +:+ JS.nl +:+ "🔄 To modify this image, use: continue_editing" +:+
    JS.nl +:+ "📋 To check current image info, use: get_last_image_info"
  else
    statusText +:+ JS.nl +:+ JS.nl +:+
    "Note: No image was generated. The model may have returned only text." +:+
    JS.nl +:+ JS.nl +:+
    "💡 Tip: Try running the command again - sometimes the first call needs to warm up the model.".

Definition generateImage (request : CallToolRequest) : M CallToolResult :=
  configured <- ensureConfigured ;;
  if negb configured then notConfigured
  else
    let prompt := prompt (arguments request) in
    let aspectRatio :=
      JS.param_default "4:3" (aspectRatio (arguments request)) in
    let imageSize :=
      JS.param_default "1K" (imageSize (arguments request)) in
    try_catch
      (response <-
         remoteGenerate
           {| gc_model := DEFAULT_IMAGE_MODEL;
              gc_contents := PromptOnly prompt;
              gc_imageConfig := imageConfigOf aspectRatio imageSize |} ;;
       acc <- processResponse generatePart response ;;
       ret {| content :=
                TextContent (generateStatus prompt aspectRatio imageSize acc)
                :: acc_content acc |})
      (fun error =>
         throw (McpError InternalError
                  ("Failed to generate image: " +:+ errorMessage error))).

(** ** [editImage] *)

(** One turn of the loop over [referenceImages]: a reference that
    cannot be read is skipped. *)
Definition addReference (refPath : string) (imageParts : list RequestPart)
  : M (list RequestPart) :=
  try_catch
    (refBuffer <- FS.readFile refPath ;;
     let refMimeType := getMimeType refPath in
     let refBase64 := base64_encode refBuffer in
     ret (imageParts ++ [InlinePart refBase64 refMimeType])%list)
    (fun _ => ret imageParts).

(** [referenceImages && referenceImages.length > 0] *)
Definition nonEmptyRefs (referenceImages : option (list string))
  : list string :=
  match referenceImages with
  | Some refs => refs
  | None => []
  end.

Definition editStatus (imagePath prompt : string)
    (referenceImages : option (list string))
    (aspectRatio imageSize : string) (acc : Acc) : string :=
  let statusText :=
    "🎨 Image edited with nano-banana (" +:+ modelInfo +:+ ")!" +:+
    JS.nl +:+ JS.nl +:+
    "Original: " +:+ imagePath +:+ JS.nl +:+
    "Edit prompt: " +:+ JS.dquote +:+ prompt +:+ JS.dquote +:+ JS.nl +:+
    "Aspect Ratio: " +:+ aspectRatio in
  let statusText :=
    if is_pro_model
    then statusText +:+ JS.nl +:+ "Resolution: " +:+ imageSize
    else statusText in
  let statusText :=
    if (0 <? List.length (nonEmptyRefs referenceImages))%nat
    then statusText +:+ JS.nl +:+ JS.nl +:+ "Reference images used:" +:+
         JS.nl +:+ JS.bullet_lines (nonEmptyRefs referenceImages)
    else statusText in
  let statusText :=
    if negb (String.eqb (acc_textContent acc) "")
    then statusText +:+ JS.nl +:+ JS.nl +:+ "Description: " +:+
         acc_textContent acc
    else statusText in
  if (0 <? List.length (acc_savedFiles acc))%nat then
    statusText +:+ JS.nl +:+ JS.nl +:+ "📁 Edited image saved to:" +:+
    JS.nl +:+ JS.bullet_lines (acc_savedFiles acc) +:+
    JS.nl +:+ JS.nl +:+ "💡 View the edited image by:" +:+
    JS.nl +:+ "1. Opening the file at the path above" +:+
    JS.nl +:+ "2. Clicking on " +:+ JS.dquote +:+ "Called edit_image" +:+
    JS.dquote +:+ " in Cursor to expand the MCP call details" +:+
    JS.nl +:+ JS.nl +:+ "🔄 To continue editing, use: continue_editing" +:+
    JS.nl +:+ "📋 To check current image info, use: get_last_image_info"
  else
    statusText +:+ JS.nl +:+ JS.nl +:+
    "Note: No edited image was generated." +:+
    JS.nl +:+ JS.nl +:+
    "💡 Tip: Try running the command again - sometimes the first call needs to warm up the model.".

Definition editImage (request : CallToolRequest) : M CallToolResult :=
  configured <- ensureConfigured ;;
  if negb configured then notConfigured
  else
    let imagePath := imagePath (arguments request) in
    let prompt := prompt (arguments request) in
    let referenceImages := referenceImages (arguments request) in
    let aspectRatio :=
      JS.param_default "4:3" (aspectRatio (arguments request)) in
    let imageSize :=
      JS.param_default "1K" (imageSize (arguments request)) in
    try_catch
      (imageBuffer <- FS.readFile imagePath ;;
       let mimeType := getMimeType imagePath in
       let imageBase64 := base64_encode imageBuffer in
       imageParts <-
         for_each addReference (nonEmptyRefs referenceImages)
                  [InlinePart imageBase64 mimeType] ;;
       let imageParts := (imageParts ++ [PromptPart prompt])%list in
       response <-
         remoteGenerate
           {| gc_model := DEFAULT_IMAGE_MODEL;
              gc_contents := PartList imageParts;
              gc_imageConfig := imageConfigOf aspectRatio imageSize |} ;;
       acc <- processResponse editPart response ;;
       ret {| content :=
                TextContent
                  (editStatus imagePath prompt referenceImages
                              aspectRatio imageSize acc)
                :: acc_content acc |})
      (fun error =>
         throw (McpError InternalError
                  ("Failed to edit image: " +:+ errorMessage error))).

(** ** [continueEditing] *)

Definition continueEditing (request : CallToolRequest) : M CallToolResult :=
  configured <- ensureConfigured ;;
  if negb configured then notConfigured
  else
    s <- getSession ;;
    if negb (JS.truthy (lastImagePath s)) then
      throw (McpError InvalidRequest
               "No previous image found. Please generate or edit an image first, then use continue_editing for subsequent edits.")
    else
      let last := JS.or_else (lastImagePath s) "" in
      try_catch (FS.access last)
        (fun _ =>
           throw (McpError InvalidRequest
                    ("Last image file not found at: " +:+ last +:+
                     ". Please generate a new image first."))) ;;;
      editImage
        {| name := "edit_image";
           arguments :=
             {| apiKey := apiKey (arguments request);
                imagePath := last;
                prompt := prompt (arguments request);
                referenceImages := referenceImages (arguments request);
                aspectRatio := aspectRatio (arguments request);
                imageSize := imageSize (arguments request) |} |}.

(** ** [getLastImageInfo] *)

Definition getLastImageInfo : M CallToolResult :=
  s <- getSession ;;
  if negb (JS.truthy (lastImagePath s)) then
    ret {| content :=
             [TextContent
                ("📷 No previous image found." +:+ JS.nl +:+ JS.nl +:+
                 "Please generate or edit an image first, then this command will show information about your last image.")] |}
  else
    let last := JS.or_else (lastImagePath s) "" in
    try_catch
      (FS.access last ;;;
       stats <- FS.stat last ;;
       ret {| content :=
                [TextContent
                   ("📷 Last Image Information:" +:+ JS.nl +:+ JS.nl +:+
                    "Path: " +:+ last +:+ JS.nl +:+
                    "File Size: " +:+
                    JS.of_nat (JS.round_div_1024 (fst stats)) +:+ " KB" +:+
                    JS.nl +:+
                    "Last Modified: " +:+ date_toLocaleString (snd stats) +:+
                    JS.nl +:+ JS.nl +:+
                    "💡 Use continue_editing to make further changes to this image.")] |})
      (fun _ =>
         ret {| content :=
                  [TextContent
                     ("📷 Last Image Information:" +:+ JS.nl +:+ JS.nl +:+
                      "Path: " +:+ last +:+ JS.nl +:+
                      "Status: ❌ File not found" +:+ JS.nl +:+ JS.nl +:+
                      "💡 The image file may have been moved or deleted. Please generate a new image.")] |}).

(** ** The dispatcher *)

(** The [switch] on the tool name. *)
Definition handlerOf (toolName : string)
  : option (CallToolRequest -> M CallToolResult) :=
  if String.eqb toolName "configure_gemini_token" then
    Some configureGeminiToken
  else if String.eqb toolName "generate_image" then Some generateImage
  else if String.eqb toolName "edit_image" then Some editImage
  else if String.eqb toolName "get_configuration_status" then
    Some (fun _ => getConfigurationStatus)
  else if String.eqb toolName "continue_editing" then Some continueEditing
  else if String.eqb toolName "get_last_image_info" then
    Some (fun _ => getLastImageInfo)
  else None.

Definition callTool (request : CallToolRequest) : M CallToolResult :=
  try_catch
    (match handlerOf (name request) with
     | Some handler => handler request
     | None =>
         throw (McpError MethodNotFound
                  ("Unknown tool: " +:+ name request))
     end)
    (fun error =>
       match error with
       | McpError _ _ => throw error
       | _ =>
           throw (McpError InternalError
                    ("Tool execution failed: " +:+ errorMessage error))
       end).

(** The names of the tools the server lists. *)
Definition toolNames : list string :=
  ["configure_gemini_token"; "generate_image"; "edit_image";
   "get_configuration_status"; "continue_editing"; "get_last_image_info"].

End Server.

(** ** A concrete platform

    A POSIX host with no environment variables set, standard base64, a
    clock stuck at one instant and a remote model that always gives the
    same answer.  It is used to run the handlers on examples. *)

Module Demo.

(** Standard base64, as [Buffer] decodes it: characters outside the
    alphabet are skipped and decoding stops at the padding. *)
Definition sextet (c : ascii) : option N :=
  let n := N_of_ascii c in
  if (65 <=? n)%N && (n <=? 90)%N then Some (n - 65)%N
  else if (97 <=? n)%N && (n <=? 122)%N then Some (n - 71)%N
  else if (48 <=? n)%N && (n <=? 57)%N then Some (n + 4)%N
  else if (n =? 43)%N || (n =? 45)%N then Some 62%N
  else if (n =? 47)%N || (n =? 95)%N then Some 63%N
  else None.

Fixpoint sextets (s : string) : list N :=
  match s with
  | EmptyString => []
  | String c r =>
      if Ascii.eqb c "=" then []
      else match sextet c with
           | Some v => v :: sextets r
           | None => sextets r
           end
  end.

Definition byte_of (n : N) : Byte.byte :=
  match Byte.of_N (n mod 256) with
  | Some b => b
  | None => Byte.x00
  end.

Fixpoint octets (fuel : nat) (vs : list N) : list Byte.byte :=
  match fuel with
  | O => []
  | S fuel =>
      match vs with
      | a :: b :: c :: d :: rest =>
          byte_of (a * 4 + b / 16) :: byte_of (b * 16 + c / 4) ::
          byte_of (c * 64 + d) :: octets fuel rest
      | [a; b; c] =>
          [byte_of (a * 4 + b / 16); byte_of (b * 16 + c / 4)]
      | [a; b] => [byte_of (a * 4 + b / 16)]
      | _ => []
      end
  end%N.

Definition decode64 (s : string) : list Byte.byte :=
  let vs := sextets s in octets (S (List.length vs)) vs.

Definition alphabet : string :=
  "ABCDEFGHIJKLMNOPQRSTUVWXYZabcdefghijklmnopqrstuvwxyz0123456789+/".

Definition digit64 (n : N) : string :=
  match String.get (N.to_nat (n mod 64)) alphabet with
  | Some c => String c EmptyString
  | None => ""
  end.

Fixpoint encode64 (bs : list Byte.byte) : string :=
  match bs with
  | [] => ""
  | [a] =>
      let a := Byte.to_N a in
      digit64 (a / 4) +:+ digit64 (a * 16) +:+ "=="
  | [a; b] =>
      let a := Byte.to_N a in
      let b := Byte.to_N b in
      digit64 (a / 4) +:+ digit64 (a * 16 + b / 16) +:+ digit64 (b * 4)
      +:+ "="
  | a :: b :: c :: rest =>
      let a := Byte.to_N a in
      let b := Byte.to_N b in
      let c := Byte.to_N c in
      digit64 (a / 4) +:+ digit64 (a * 16 + b / 16) +:+
      digit64 (b * 4 + c / 64) +:+ digit64 c +:+ encode64 rest
  end%N.

(** [path.join] on segments that need no normalisation. *)
Fixpoint join_raw (segments : list string) : string :=
  match segments with
  | [] => ""
  | [p] => p
  | p :: rest => p +:+ "/" +:+ join_raw rest
  end.

Definition join (segments : list string) : string :=
  match join_raw segments with
  | EmptyString => "."
  | joined => joined
  end.

Lemma join_nonempty segments : join segments <> "".
Proof. unfold join. destruct (join_raw segments); discriminate. Qed.

Definition platform (rnd : string)
    (answer : Result GenerateContentResponse) : Platform :=
  {| env_GEMINI_API_KEY := None;
     env_GEMINI_IMAGE_MODEL := None;
     env_NANO_BANANA_OUTPUT_DIR := None;
     os_platform := "linux";
     os_homedir := "/home/user";
     process_cwd := "/work";
     path_join := join;
     path_join_nonempty := join_nonempty;
     base64_decode := decode64;
     base64_encode := encode64;
     date_toISOString := fun _ => "2025-01-02T03:04:05.678Z";
     date_toLocaleString := fun _ => "1/2/2025, 3:04:05 AM";
     random_toString36 := fun _ => rnd;
     json_stringify_config := fun c =>
       list_byte_of_string
         ("{" +:+ JS.nl +:+ "  " +:+ JS.dquote +:+ "geminiApiKey" +:+
          JS.dquote +:+ ": " +:+ JS.dquote +:+ geminiApiKey c +:+
          JS.dquote +:+ JS.nl +:+ "}");
     json_parse_geminiApiKey := fun _ => None;
     zod_message := fun issues => JS.bullet_lines issues;
     generateContent := fun _ _ _ => answer |}.

Definition emptyWorld : World :=
  {| fs := ∅; trace := []; clock := 0; rng := 0 |}.

Definition configured : Session :=
  {| genAI := Some {| client_apiKey := "k" |};
     config := Some {| geminiApiKey := "k" |};
     lastImagePath := None;
     configSource := config_file |}.

Definition args0 : Arguments :=
  {| apiKey := ""; prompt := "a cat"; imagePath := "";
     referenceImages := None; aspectRatio := None; imageSize := None |}.

Definition imagePart (data : string) : Part :=
  {| part_text := None;
     part_inlineData :=
       Some {| blob_data := Some data;
               blob_mimeType := Some "image/png" |} |}.

Definition textPart (text : string) : Part :=
  {| part_text := Some text; part_inlineData := None |}.

Definition answerWith (parts : list Part) : Result GenerateContentResponse :=
  Ok {| candidates := Some [ {| cand_parts := Some parts |} ] |}.

End Demo.

(** ** Vocabulary for the statements *)

Section Vocabulary.

Context `{Plat : Platform}.

(** The inline image a part carries, if any: its base64 data (not
    empty) and the blob it came in. *)
Definition imageData (part : Part) : option (string * Blob) :=
  match part_inlineData part with
  | Some blob =>
      if JS.truthy (blob_data blob)
      then Some (JS.or_else (blob_data blob) "", blob)
      else None
  | None => None
  end.

Definition imageBlobs (parts : list Part) : list (string * Blob) :=
  omap imageData parts.

(** The content part returned for an inline image. *)
Definition imageOf (image : string * Blob) : ContentPart :=
  ImageContent (fst image)
               (JS.or_else (blob_mimeType (snd image)) "image/png").

(** The world after one reading of the clock and one random draw. *)
Definition tick (w : World) : World :=
  {| fs := fs w; trace := trace w; clock := S (clock w); rng := S (rng w) |}.

(** The world after [bytes] were written at [p]. *)
Definition wrote (p : string) (bytes : list Byte.byte) (w : World) : World :=
  {| fs := <[p := File bytes (clock w)]> (fs w);
     trace := EvWriteFile p bytes :: trace w;
     clock := clock w; rng := rng w |}.

(** The world after the directory [p] was made, and after a remote
    call. *)
Definition made (p : string) (w : World) : World :=
  {| fs := <[p := Dir]> (fs w);
     trace := EvMkdir p :: trace w;
     clock := clock w; rng := rng w |}.

Definition called (client : GoogleGenAI)
    (params : GenerateContentParameters) (w : World) : World :=
  FS.log (EvGenerateContent client params) w.

(** The parts of a response, none when it has no candidate. *)
Definition partsOf (response : GenerateContentResponse) : list Part :=
  match response_parts response with
  | Some parts => parts
  | None => []
  end.

(** The parameters of the remote call of each handler. *)
Definition generateParams (request : CallToolRequest)
  : GenerateContentParameters :=
  {| gc_model := DEFAULT_IMAGE_MODEL;
     gc_contents := PromptOnly (prompt (arguments request));
     gc_imageConfig :=
       imageConfigOf
         (JS.param_default "4:3" (aspectRatio (arguments request)))
         (JS.param_default "1K" (imageSize (arguments request))) |}.

Definition editParams (request : CallToolRequest)
    (imageParts : list RequestPart) : GenerateContentParameters :=
  {| gc_model := DEFAULT_IMAGE_MODEL;
     gc_contents :=
       PartList (imageParts ++ [PromptPart (prompt (arguments request))]);
     gc_imageConfig :=
       imageConfigOf
         (JS.param_default "4:3" (aspectRatio (arguments request)))
         (JS.param_default "1K" (imageSize (arguments request))) |}.

(** The name synthesized in world [w] with prefix [pre]. *)
Definition fileNameAt (pre : string) (w : World) : string :=
  pre +:+ "-" +:+ JS.replace_colon_dot (date_toISOString (clock w)) +:+
  "-" +:+ JS.substring 2 8 (random_toString36 (rng w)) +:+ ".png".

(** [p] is a synthesized name with prefix [pre] inside [dir]. *)
Definition synthesized (pre dir p : string) : Prop :=
  exists iso rnd,
    p = path_join [dir;
                   pre +:+ "-" +:+ JS.replace_colon_dot iso +:+ "-" +:+
                   JS.substring 2 8 rnd +:+ ".png"].

(** What one turn of the loop does, for either handler: nothing but
    text for a part without image data; otherwise a write at the
    synthesized path, which fails when a directory is in the way. *)
Definition turn (pre dir : string) (part : Part) (acc : Acc)
    (s : Session) (w : World) (out : Result Acc * Session * World) : Prop :=
  match imageData part with
  | None =>
      exists w', out = (Ok (add_text part acc), s, w') /\
                 fs w' = fs w /\ trace w' = trace w
  | Some (data, blob) =>
      let p := path_join [dir; fileNameAt pre w] in
      match fs w !! p with
      | Some Dir => exists error, out = (Throw error, s, tick w)
      | _ =>
          out =
          (Ok (push_image data blob (push_saved p (add_text part acc))),
           set_lastImagePath p s,
           wrote p (base64_decode data) (tick w))
      end
  end.

Definition writeError (p : string) : Thrown :=
  JsError ("EISDIR: illegal operation on a directory, open " +:+ FS.quote p).

(** The write event of a saved image. *)
Definition writeOf (saved : string * (string * Blob)) : Event :=
  EvWriteFile (fst saved) (base64_decode (fst (snd saved))).

(** The request part sent for a reference image, when it can be read. *)
Definition refPart (files : gmap string Node) (refPath : string)
  : option RequestPart :=
  match files !! refPath with
  | Some (File bytes _) =>
      Some (InlinePart (base64_encode bytes) (getMimeType refPath))
  | _ => None
  end.

(** The image parts [editImage] sends: the primary image, then the
    readable references. *)
Definition sentImages (request : CallToolRequest) (bytes : list Byte.byte)
    (w : World) : list RequestPart :=
  InlinePart (base64_encode bytes)
             (getMimeType (imagePath (arguments request)))
  :: omap (refPart (fs w))
          (nonEmptyRefs (referenceImages (arguments request))).

(** The error of [fs.readFile] on a path that is not a file. *)
Definition readError (w : World) (p : string) : string :=
  match fs w !! p with
  | Some Dir => "EISDIR: illegal operation on a directory, read"
  | _ => "ENOENT: no such file or directory, open " +:+ FS.quote p
  end.

(** What a call that ended normally did, for either image handler:
    the remote model answered [params] with a response; one file was
    saved per inline image of the response, under a synthesized name
    and in the order of the parts; the result is the status block
    followed by the images as the response carried them; the session
    points at the last file saved, which is on disk. *)
Definition succeeded (pre : string) (client : GoogleGenAI)
    (params : GenerateContentParameters) (statusOf : Acc -> string)
    (res : CallToolResult) (s : Session) (w : World)
    (s' : Session) (w' : World) : Prop :=
  exists response acc (saved : list (string * (string * Blob))),
    generateContent (trace w) client params = Ok response /\
    content res =
      TextContent (statusOf acc)
      :: map imageOf (imageBlobs (partsOf response)) /\
    map snd saved = imageBlobs (partsOf response) /\
    Forall (fun sv => synthesized pre getImagesDirectory (fst sv)) saved /\
    acc_savedFiles acc = map fst saved /\
    trace w' =
      (rev (map writeOf saved) ++
       EvMkdir getImagesDirectory ::
       EvGenerateContent client params :: trace w)%list /\
    match last saved with
    | Some sv =>
        s' = set_lastImagePath (fst sv) s /\
        exists mtime,
          fs w' !! fst sv = Some (File (base64_decode (fst (snd sv))) mtime)
    | None => s' = s
    end.

(** The same request with another list of reference images. *)
Definition withReferences (request : CallToolRequest)
    (refs : option (list string)) : CallToolRequest :=
  {| name := name request;
     arguments :=
       {| apiKey := apiKey (arguments request);
          prompt := prompt (arguments request);
          imagePath := imagePath (arguments request);
          referenceImages := refs;
          aspectRatio := aspectRatio (arguments request);
          imageSize := imageSize (arguments request) |} |}.

(** Two outcomes that differ at most in the text of the status block. *)
Definition sameUpToStatus (o1 o2 : Result CallToolResult * Session * World)
  : Prop :=
  snd (fst o1) = snd (fst o2) /\ snd o1 = snd o2 /\
  match fst (fst o1), fst (fst o2) with
  | Ok a, Ok b => tail (content a) = tail (content b)
  | Throw e1, Throw e2 => e1 = e2
  | _, _ => False
  end.

(** From [(s, w)] to [(s', w')] the trace only grew and the last image
    path either stayed or became the path of a file written on the
    way. *)
Definition advances (s : Session) (w : World) (s' : Session) (w' : World)
  : Prop :=
  exists events,
    trace w' = (events ++ trace w)%list /\
    (lastImagePath s' = lastImagePath s \/
     exists p bytes,
       lastImagePath s' = Some p /\ In (EvWriteFile p bytes) events).

Definition keeps {A} (c : M A) : Prop :=
  forall s w, advances s w (snd (fst (c s w))) (snd (c s w)).

(** What happens during a session: the transport delivers a call, or
    somebody else changes the file system. *)
Inductive Step :=
  | Call (request : CallToolRequest)
  | Outside (change : gmap string Node -> gmap string Node).

Definition step (st : Step) (sw : Session * World) : Session * World :=
  match st with
  | Call request =>
      let out := callTool request (fst sw) (snd sw) in
      (snd (fst out), snd out)
  | Outside change =>
      (fst sw,
       {| fs := change (fs (snd sw)); trace := trace (snd sw);
          clock := clock (snd sw); rng := rng (snd sw) |})
  end.

(** A session: [run()] loads the configuration into a fresh server,
    then the steps happen one after the other. *)
Definition serve (steps : list Step) (w : World) : Session * World :=
  let booted := loadConfig initialSession w in
  fold_left (fun sw st => step st sw) steps (snd (fst booted), snd booted).

End Vocabulary.

(** ** The tool list

    The answer to a list-tools request: six descriptors, each with a
    name, a description and a JSON schema for its arguments. *)

Record PropertySchema := {
  ps_type : string;
  ps_items : option string;          (* the [type] of [items], for arrays *)
  ps_enum : option (list string);
  ps_description : string
}.

Record InputSchema := {
  is_type : string;
  is_properties : list (string * PropertySchema);
  is_required : option (list string);
  is_additionalProperties : option bool
}.

Record Tool := {
  tool_name : string;
  tool_description : string;
  tool_inputSchema : InputSchema
}.

Module Schema.

Definition text (description : string) : PropertySchema :=
  {| ps_type := "string"; ps_items := None; ps_enum := None;
     ps_description := description |}.

Definition paths (description : string) : PropertySchema :=
  {| ps_type := "array"; ps_items := Some "string"; ps_enum := None;
     ps_description := description |}.

Definition aspectRatio : PropertySchema :=
  {| ps_type := "string"; ps_items := None;
     ps_enum := Some ["1:1"; "2:3"; "3:2"; "3:4"; "4:3"; "4:5"; "5:4";
                      "9:16"; "16:9"; "21:9"];
     ps_description := "Aspect ratio of the generated image. Default: 4:3" |}.

Definition imageSize : PropertySchema :=
  {| ps_type := "string"; ps_items := None;
     ps_enum := Some ["1K"; "2K"; "4K"];
     ps_description :=
       "Image resolution (only works with gemini-3-pro-image-preview). Default: 1K" |}.

Definition noArguments : InputSchema :=
  {| is_type := "object"; is_properties := []; is_required := None;
     is_additionalProperties := Some false |}.

End Schema.

Definition listTools : list Tool :=
  [ {| tool_name := "configure_gemini_token";
       tool_description :=
         "Configure your Gemini API token for nano-banana image generation";
       tool_inputSchema :=
         {| is_type := "object";
            is_properties :=
              [("apiKey",
                Schema.text "Your Gemini API key from Google AI Studio")];
            is_required := Some ["apiKey"];
            is_additionalProperties := None |} |};
    {| tool_name := "generate_image";
       tool_description :=
         "Generate a NEW image from text prompt. Use this ONLY when creating a completely new image, not when modifying an existing one.";
       tool_inputSchema :=
         {| is_type := "object";
            is_properties :=
              [("prompt",
                Schema.text
                  "Text prompt describing the NEW image to create from scratch");
               ("aspectRatio", Schema.aspectRatio);
               ("imageSize", Schema.imageSize)];
            is_required := Some ["prompt"];
            is_additionalProperties := None |} |};
    {| tool_name := "edit_image";
       tool_description :=
         "Edit a SPECIFIC existing image file, optionally using additional reference images. Use this when you have the exact file path of an image to modify.";
       tool_inputSchema :=
         {| is_type := "object";
            is_properties :=
              [("imagePath",
                Schema.text "Full file path to the main image file to edit");
               ("prompt",
                Schema.text
                  "Text describing the modifications to make to the existing image");
               ("referenceImages",
                Schema.paths
                  "Optional array of file paths to additional reference images to use during editing (e.g., for style transfer, adding elements, etc.)");
               ("aspectRatio", Schema.aspectRatio);
               ("imageSize", Schema.imageSize)];
            is_required := Some ["imagePath"; "prompt"];
            is_additionalProperties := None |} |};
    {| tool_name := "get_configuration_status";
       tool_description := "Check if Gemini API token is configured";
       tool_inputSchema := Schema.noArguments |};
    {| tool_name := "continue_editing";
       tool_description :=
         "Continue editing the LAST image that was generated or edited in this session, optionally using additional reference images. Use this for iterative improvements, modifications, or changes to the most recent image. This automatically uses the previous image without needing a file path.";
       tool_inputSchema :=
         {| is_type := "object";
            is_properties :=
              [("prompt",
                Schema.text
                  "Text describing the modifications/changes/improvements to make to the last image (e.g., 'change the hat color to red', 'remove the background', 'add flowers')");
               ("referenceImages",
                Schema.paths
                  "Optional array of file paths to additional reference images to use during editing (e.g., for style transfer, adding elements from other images, etc.)");
               ("aspectRatio", Schema.aspectRatio);
               ("imageSize", Schema.imageSize)];
            is_required := Some ["prompt"];
            is_additionalProperties := None |} |};
    {| tool_name := "get_last_image_info";
       tool_description :=
         "Get information about the last generated/edited image in this session (file path, size, etc.). Use this to check what image is currently available for continue_editing.";
       tool_inputSchema := Schema.noArguments |} ].

(** The enumerated values a tool advertises for one of its arguments. *)
Definition advertised (toolName argument : string) : list string :=
  match List.find (fun t => String.eqb (tool_name t) toolName) listTools with
  | Some t =>
      match List.find (fun kv => String.eqb (fst kv) argument)
                      (is_properties (tool_inputSchema t)) with
      | Some (_, schema) =>
          match ps_enum schema with Some values => values | None => [] end
      | None => []
      end
  | None => []
  end.

(** ** More vocabulary: what a computation may change, return or throw *)

Section Relations.

Context `{Plat : Platform}.

(** Every run of [c] relates its start to its end by [R]. *)
Definition respects (R : Session -> World -> Session -> World -> Prop)
    {A} (c : M A) : Prop :=
  forall s w, R s w (snd (fst (c s w))) (snd (c s w)).

(** Every value [c] returns satisfies [Q]; every error it throws
    satisfies [P]. *)
Definition returns {A} (Q : A -> Prop) (c : M A) : Prop :=
  forall s w a s' w', c s w = (Ok a, s', w') -> Q a.

Definition throwsOnly {A} (P : Thrown -> Prop) (c : M A) : Prop :=
  forall s w error s' w', c s w = (Throw error, s', w') -> P error.

(** The credentials, the client and the provenance tag are the same. *)
Definition sameCredentials (s : Session) (w : World)
    (s' : Session) (w' : World) : Prop :=
  config s' = config s /\ genAI s' = genAI s /\
  configSource s' = configSource s.

(** The events the server is expected to cause: remote calls, making the
    save directory, and writing the configuration file or an image under
    a synthesized name in the save directory. *)
Definition allowedEvent (event : Event) : Prop :=
  match event with
  | EvGenerateContent _ _ => True
  | EvMkdir p => p = getImagesDirectory
  | EvWriteFile p _ =>
      p = configPath \/
      synthesized "generated" getImagesDirectory p \/
      synthesized "edited" getImagesDirectory p
  end.

(** The text parts of a response, one after the other. *)
Definition textOf (parts : list Part) : string :=
  fold_right (fun part rest => JS.or_else (part_text part) "" +:+ rest)
             "" parts.

(** The same request with another image size, and the [edit_image]
    request [continueEditing] makes for the stored path [last]. *)
Definition withImageSize (request : CallToolRequest) (size : option string)
  : CallToolRequest :=
  {| name := name request;
     arguments :=
       {| apiKey := apiKey (arguments request);
          prompt := prompt (arguments request);
          imagePath := imagePath (arguments request);
          referenceImages := referenceImages (arguments request);
          aspectRatio := aspectRatio (arguments request);
          imageSize := size |} |}.

Definition editOf (last : string) (request : CallToolRequest)
  : CallToolRequest :=
  {| name := "edit_image";
     arguments :=
       {| apiKey := apiKey (arguments request);
          imagePath := last;
          prompt := prompt (arguments request);
          referenceImages := referenceImages (arguments request);
          aspectRatio := aspectRatio (arguments request);
          imageSize := imageSize (arguments request) |} |}.

(** The request that configures the key [key]. *)
Definition configureRequest (key : string) : CallToolRequest :=
  {| name := "configure_gemini_token";
     arguments :=
       {| apiKey := key; prompt := ""; imagePath := "";
          referenceImages := None; aspectRatio := None;
          imageSize := None |} |}.

(** The session after credentials for [key] were set by hand. *)
Definition configuredWith (key : string) (s : Session) : Session :=
  {| genAI := Some {| client_apiKey := key |};
     config := Some {| geminiApiKey := key |};
     lastImagePath := lastImagePath s;
     configSource := config_file |}.

(** The session after credentials for [key] were found in the
    environment. *)
Definition configuredFromEnvironment (key : string) (s : Session) : Session :=
  {| genAI := Some {| client_apiKey := key |};
     config := Some {| geminiApiKey := key |};
     lastImagePath := lastImagePath s;
     configSource := environment |}.

(** The text of [get_configuration_status] for credentials set by hand or
    read from the local file. *)
Definition statusFromFile : string :=
  "✅ Gemini API token is configured and ready to use" +:+
  JS.nl +:+ "📍 Source: Local configuration file (.nano-banana-config.json)" +:+
  JS.nl +:+ "💡 Consider using environment variables for better security.".

(** The errors of the two image handlers: the guard's, or the one their
    [catch] makes. *)
Definition imageHandlerError (what : string) (error : Thrown) : Prop :=
  error = McpError InvalidRequest
            "Gemini API token not configured. Use configure_gemini_token first." \/
  exists message,
    error = McpError InternalError ("Failed to " +:+ what +:+ message).

(** The errors of [continueEditing] and of [configureGeminiToken]. *)
Definition continueError (error : Thrown) : Prop :=
  (exists message, error = McpError InvalidRequest message) \/
  exists message,
    error = McpError InternalError ("Failed to edit image: " +:+ message).

Definition configureError (error : Thrown) : Prop :=
  error = McpError InvalidParams "Invalid API key: Gemini API key is required" \/
  exists message, error = JsError message.

(** [p] is a name drawn for a saved image: inside [dir], with prefix
    [pre], the ISO time of some reading of the clock with every colon
    and dot replaced by a hyphen, and characters 2 to 7 of the base-36
    rendering of some random number drawn (at most six characters,
    exactly six when the rendering has at least eight). *)
Definition drawn (pre dir p : string) : Prop :=
  exists k j,
    let stamp := JS.replace_colon_dot (date_toISOString k) in
    let suffix := JS.substring 2 8 (random_toString36 j) in
    p = path_join [dir;
                   pre +:+ "-" +:+ stamp +:+ "-" +:+ suffix +:+ ".png"] /\
    String.length suffix <= 6 /\
    (8 <= String.length (random_toString36 j) -> String.length suffix = 6) /\
    (forall n, String.get n stamp <> Some ":"%char /\
               String.get n stamp <> Some "."%char).

(** The trace grew by allowed events only; every file that was there
    and that none of those events wrote is there unchanged; whatever
    was a directory is still a directory and whatever was a file is
    still a file.  Nothing is said of a path that held nothing: making
    a directory may make the directories above it. *)
Definition filesKept (s : Session) (w : World) (s' : Session) (w' : World)
  : Prop :=
  exists events,
    trace w' = (events ++ trace w)%list /\
    Forall allowedEvent events /\
    (forall p bytes mtime,
       fs w !! p = Some (File bytes mtime) ->
       (forall written, ~ In (EvWriteFile p written) events) ->
       fs w' !! p = Some (File bytes mtime)) /\
    (forall p, fs w !! p = Some Dir -> fs w' !! p = Some Dir) /\
    (forall p bytes mtime,
       fs w !! p = Some (File bytes mtime) ->
       exists bytes' mtime', fs w' !! p = Some (File bytes' mtime')).

End Relations.

(** ** The integration test script

    The part of the script that keeps and reports results: [addResult],
    [testProjectStructure] and [printResults].  The script has no server
    session; the file-system primitives do not read the one they are
    given. *)

Module Tester.

Record TestResult := {
  name : string;
  passed : bool;
  message : string
}.

Definition addResult (results : list TestResult)
    (name : string) (passed : bool) (message : string) : list TestResult :=
  (results ++ [{| name := name; passed := passed; message := message |}])%list.

Definition requiredFiles : list string :=
  ["package.json"; "tsconfig.json"; "src/index.ts"; "README.md";
   ".gitignore"; ".eslintrc.json"].

(** One turn of the loop of [testProjectStructure]. *)
Definition checkFile `{Platform} (w : World) (results : list TestResult)
    (file : string) : list TestResult :=
  match fst (fst (FS.access (path_join [process_cwd; file]) initialSession w)) with
  | Ok _ =>
      addResult results ("Project structure - " +:+ file) true
                ("✅ " +:+ file +:+ " exists")
  | Throw _ =>
      addResult results ("Project structure - " +:+ file) false
                ("❌ " +:+ file +:+ " missing")
  end.

Definition testProjectStructure `{Platform} (w : World)
    (results : list TestResult) : list TestResult :=
  fold_left (checkFile w) requiredFiles results.

(** The result recorded for a required file: it passes when something
    exists at that name under the working directory. *)
Definition fileResult `{Platform} (w : World) (file : string) : TestResult :=
  let found := bool_decide (is_Some (fs w !! path_join [process_cwd; file])) in
  {| name := "Project structure - " +:+ file;
     passed := found;
     message := if found then "✅ " +:+ file +:+ " exists"
                else "❌ " +:+ file +:+ " missing" |}.

(** The line [printResults] logs for a result. *)
Definition resultLine (result : TestResult) : string :=
  (if passed result then "✅" else "❌") +:+ " " +:+ message result.

(** [c.repeat(n)] *)
Fixpoint repeat_string (c : string) (n : nat) : string :=
  match n with
  | O => ""
  | S n => c +:+ repeat_string c n
  end.

(** What [printResults] does: the lines it logs and whether it ends the
    process with exit code 1. *)
Record Printed := {
  lines : list string;
  exits : bool
}.

Definition printResults (results : list TestResult) : Printed :=
  let rule := repeat_string "═" 50 in
  let npassed := List.length (List.filter passed results) in
  let total := List.length results in
  let report :=
    ([JS.nl +:+ "📋 Integration Test Results:"; rule] ++
     map (fun result =>
            (if passed result then "✅" else "❌") +:+ " " +:+ message result)
         results ++
     [rule;
      "📊 Results: " +:+ JS.of_nat npassed +:+ "/" +:+ JS.of_nat total +:+
      " tests passed"])%list in
  if (npassed =? total)%nat then
    {| lines :=
         (report ++
          ["🎉 All integration tests passed! The nano-banana MCP server is ready to use.";
           JS.nl +:+ "📖 Next steps:";
           "1. Get a Gemini API key from Google AI Studio";
           "2. Configure your MCP client (Claude Desktop, etc.)";
           "3. Use the configure_gemini_token tool to set up your API key";
           "4. Start generating and editing images with nano-banana!"])%list;
       exits := false |}
  else
    {| lines :=
         (report ++
          ["⚠️  Some tests failed. Please fix the issues before using the server."])%list;
       exits := true |}.

End Tester.

(** ** A concrete platform that reads its own configuration files

    The demo platform with an API key in the environment or not, and a
    reader for the configuration documents it writes. *)

Module DemoJson.

Definition opening : string :=
  "{" +:+ JS.nl +:+ "  " +:+ JS.dquote +:+ "geminiApiKey" +:+ JS.dquote +:+
  ": " +:+ JS.dquote.

Definition closing : string := JS.dquote +:+ JS.nl +:+ "}".

Definition parseKey (data : list Byte.byte) : option string :=
  let document := string_of_list_byte data in
  let n := String.length document in
  let a := String.length opening in
  let b := String.length closing in
  if String.prefix opening document && (a + b <=? n)%nat &&
     String.eqb (String.substring (n - b) b document) closing
  then Some (String.substring a (n - a - b) document)
  else None.

Definition platform (envKey : option string) (rnd : string)
    (answer : Result GenerateContentResponse) : Platform :=
  let demo := Demo.platform rnd answer in
  {| env_GEMINI_API_KEY := envKey;
     env_GEMINI_IMAGE_MODEL := @env_GEMINI_IMAGE_MODEL demo;
     env_NANO_BANANA_OUTPUT_DIR := @env_NANO_BANANA_OUTPUT_DIR demo;
     os_platform := @os_platform demo;
     os_homedir := @os_homedir demo;
     process_cwd := @process_cwd demo;
     path_join := @path_join demo;
     path_join_nonempty := @path_join_nonempty demo;
     base64_decode := @base64_decode demo;
     base64_encode := @base64_encode demo;
     date_toISOString := @date_toISOString demo;
     date_toLocaleString := @date_toLocaleString demo;
     random_toString36 := @random_toString36 demo;
     json_stringify_config := @json_stringify_config demo;
     json_parse_geminiApiKey := parseKey;
     zod_message := @zod_message demo;
     generateContent := @generateContent demo |}.

End DemoJson.

(** ** A concrete platform whose random numbers differ

    The demo platform with a chosen model variant and a sequence of
    random numbers, so that two images saved in one call get two names. *)

Module DemoSeq.

Definition platform (model : option string) (rnds : list string)
    (answer : Result GenerateContentResponse) : Platform :=
  let demo := Demo.platform "0" answer in
  {| env_GEMINI_API_KEY := @env_GEMINI_API_KEY demo;
     env_GEMINI_IMAGE_MODEL := model;
     env_NANO_BANANA_OUTPUT_DIR := @env_NANO_BANANA_OUTPUT_DIR demo;
     os_platform := @os_platform demo;
     os_homedir := @os_homedir demo;
     process_cwd := @process_cwd demo;
     path_join := @path_join demo;
     path_join_nonempty := @path_join_nonempty demo;
     base64_decode := @base64_decode demo;
     base64_encode := @base64_encode demo;
     date_toISOString := @date_toISOString demo;
     date_toLocaleString := @date_toLocaleString demo;
     random_toString36 := fun n => nth n rnds "0";
     json_stringify_config := @json_stringify_config demo;
     json_parse_geminiApiKey := @json_parse_geminiApiKey demo;
     zod_message := @zod_message demo;
     generateContent := @generateContent demo |}.

End DemoSeq.

(** * Properties *)

Example extname_examples :
  map Path.extname ["index.html"; "index.coffee.md"; "index."; "index";
                    ".index"; ".index.md"; "a.b/c"; "a/b.txt/"; ".."; "a/.."]
  = [".html"; ".md"; "."; ""; ""; ".md"; ""; ".txt"; ""; ""].
Proof. vm_compute. reflexivity. Qed.

Example demo_base64 :
  Demo.decode64 "aGVsbG8=" = list_byte_of_string "hello" /\
  Demo.encode64 (list_byte_of_string "hello") = "aGVsbG8=".
Proof. vm_compute. split; reflexivity. Qed.

(** ** MIME types *)

Lemma getMimeType_of_ext (p : string) :
  getMimeType p =
  let ext := JS.toLowerCase (Path.extname p) in
  if String.eqb ext ".png" then "image/png"
  else if String.eqb ext ".webp" then "image/webp"
  else "image/jpeg".
Proof.
  unfold getMimeType. cbv zeta.
  destruct (String.eqb_spec (JS.toLowerCase (Path.extname p)) ".jpg") as [->|_];
    [reflexivity|].
  destruct (String.eqb_spec (JS.toLowerCase (Path.extname p)) ".jpeg") as [->|_];
    reflexivity.
Qed.

(** Lower-casing leaves separators and dots alone, so it commutes with
    taking the extension. *)
Lemma lower_ascii_slash c :
  Ascii.eqb (JS.lower_ascii c) "/" = Ascii.eqb c "/".
Proof. destruct c as [[] [] [] [] [] [] [] []]; reflexivity. Qed.

Lemma lower_ascii_dot c :
  Ascii.eqb (JS.lower_ascii c) "." = Ascii.eqb c ".".
Proof. destruct c as [[] [] [] [] [] [] [] []]; reflexivity. Qed.

Lemma lower_ascii_idem c : JS.lower_ascii (JS.lower_ascii c) = JS.lower_ascii c.
Proof. destruct c as [[] [] [] [] [] [] [] []]; reflexivity. Qed.

Lemma toLowerCase_idem s : JS.toLowerCase (JS.toLowerCase s) = JS.toLowerCase s.
Proof.
  induction s as [|c s IH]; [reflexivity|].
  cbn [JS.toLowerCase]. rewrite lower_ascii_idem, IH. reflexivity.
Qed.

Lemma toLowerCase_length s : String.length (JS.toLowerCase s) = String.length s.
Proof. induction s as [|c s IH]; [reflexivity|]. cbn. rewrite IH. reflexivity. Qed.

Lemma toLowerCase_chars s :
  Path.chars (JS.toLowerCase s) = map JS.lower_ascii (Path.chars s).
Proof.
  unfold Path.chars. induction s as [|c s IH]; [reflexivity|].
  cbn. rewrite IH. reflexivity.
Qed.

Lemma toLowerCase_substring n m s :
  String.substring n m (JS.toLowerCase s) =
  JS.toLowerCase (String.substring n m s).
Proof.
  revert n m. induction s as [|c s IH]; intros [|n] [|m]; cbn;
    rewrite ?IH; reflexivity.
Qed.

Lemma extname_scan_lower l : forall i s,
  Path.extname_scan (map JS.lower_ascii l) i s = Path.extname_scan l i s.
Proof.
  induction l as [|c l IH]; intros i s; [reflexivity|].
  cbn [map Path.extname_scan].
  rewrite lower_ascii_slash, lower_ascii_dot. cbv zeta.
  repeat match goal with
  | |- context [if ?b then _ else _] => destruct b
  end; first [reflexivity | apply IH].
Qed.

Lemma extname_lower p :
  Path.extname (JS.toLowerCase p) = JS.toLowerCase (Path.extname p).
Proof.
  unfold Path.extname.
  rewrite toLowerCase_chars, toLowerCase_length, <- map_rev, extname_scan_lower.
  cbv zeta.
  match goal with
  | |- (if ?b then _ else _) = _ => destruct b
  end; [reflexivity|].
  apply toLowerCase_substring.
Qed.

(** C8. The MIME type of a path is a total function of the lower-cased
    extension of the path and of nothing else: [.jpg] and [.jpeg] give
    [image/jpeg], [.png] gives [image/png], [.webp] gives [image/webp],
    every other extension and the empty one give [image/jpeg]; a path and
    its lower-cased spelling have the same type; the four paths of the
    specification map as it says. *)
Theorem mime_mapping_total_and_exact :
  (forall p : string,
     let ext := JS.toLowerCase (Path.extname p) in
     (ext = ".jpg" \/ ext = ".jpeg" -> getMimeType p = "image/jpeg") /\
     (ext = ".png" -> getMimeType p = "image/png") /\
     (ext = ".webp" -> getMimeType p = "image/webp") /\
     (ext <> ".png" -> ext <> ".webp" -> getMimeType p = "image/jpeg") /\
     (Path.extname p = "" -> getMimeType p = "image/jpeg")) /\
  (forall p q : string,
     JS.toLowerCase (Path.extname p) = JS.toLowerCase (Path.extname q) ->
     getMimeType p = getMimeType q) /\
  (forall p : string, getMimeType (JS.toLowerCase p) = getMimeType p) /\
  getMimeType "a.JPG" = "image/jpeg" /\
  getMimeType "photo.png" = "image/png" /\
  getMimeType "x.webp" = "image/webp" /\
  getMimeType "file.gif" = "image/jpeg".
Proof.
  split; [|split; [|split; [|repeat split; vm_compute; reflexivity]]].
  - intros p ext. subst ext. rewrite getMimeType_of_ext. cbv zeta.
    split; [|split; [|split; [|split]]].
    + intros [-> | ->]; reflexivity.
    + intros ->. reflexivity.
    + intros ->. reflexivity.
    + intros Hpng Hwebp.
      destruct (String.eqb_spec (JS.toLowerCase (Path.extname p)) ".png");
        [contradiction|].
      destruct (String.eqb_spec (JS.toLowerCase (Path.extname p)) ".webp");
        [contradiction|reflexivity].
    + intros ->. reflexivity.
  - intros p q Heq. rewrite !getMimeType_of_ext. cbv zeta. rewrite Heq.
    reflexivity.
  - intros p. unfold getMimeType. rewrite extname_lower, toLowerCase_idem.
    reflexivity.
Qed.

Lemma mime_mapping_witness :
  getMimeType "HOLIDAY.Jpeg" = "image/jpeg" /\
  getMimeType "dir.png/readme" = "image/jpeg" /\
  getMimeType "UP.PNG" = getMimeType "down.png".
Proof.
  destruct mime_mapping_total_and_exact as (Htable & Hcase & _).
  split; [|split].
  - destruct (Htable "HOLIDAY.Jpeg") as [Hjpeg _].
    apply Hjpeg. right. vm_compute. reflexivity.
  - destruct (Htable "dir.png/readme") as (_ & _ & _ & _ & Hnone).
    apply Hnone. vm_compute. reflexivity.
  - apply (Hcase "UP.PNG" "down.png"). vm_compute. reflexivity.
Defined.

(** ** Running the monad *)

Ltac run_monad :=
  unfold bind, ret, throw, try_catch, getSession, getWorld, setSession,
    setWorld; cbn beta iota.

Section Guards.

Context `{Plat : Platform}.

Lemma ensureConfigured_run s w :
  ensureConfigured s w = (Ok (isConfigured s), s, w).
Proof. reflexivity. Qed.

Lemma isConfigured_false s :
  config s = None \/ genAI s = None -> isConfigured s = false.
Proof.
  unfold isConfigured. intros [-> | ->].
  - reflexivity.
  - apply andb_false_r.
Qed.

Lemma isConfigured_true s :
  isConfigured s = true -> is_Some (config s) /\ is_Some (genAI s).
Proof.
  unfold isConfigured. intros Hc. apply andb_true_iff in Hc as [Hc Hg].
  split; eapply bool_decide_eq_true_1; eassumption.
Qed.

Lemma generateImage_unconfigured request s w :
  isConfigured s = false ->
  generateImage request s w =
  (Throw (McpError InvalidRequest
            "Gemini API token not configured. Use configure_gemini_token first."),
   s, w).
Proof.
  intros Hc. unfold generateImage, bind at 1.
  rewrite ensureConfigured_run, Hc. reflexivity.
Qed.

Lemma editImage_unconfigured request s w :
  isConfigured s = false ->
  editImage request s w =
  (Throw (McpError InvalidRequest
            "Gemini API token not configured. Use configure_gemini_token first."),
   s, w).
Proof.
  intros Hc. unfold editImage, bind at 1.
  rewrite ensureConfigured_run, Hc. reflexivity.
Qed.

(** C3. While the credentials are absent (the configuration or the
    client is null), [generate_image] and [edit_image] fail with an
    invalid-request error and touch nothing: the session is the same
    and so is the world, whose trace would show a remote call, a
    directory creation or a file write. *)
Theorem unconfigured_calls_have_no_effect request s w :
  config s = None \/ genAI s = None ->
  generateImage request s w =
    (Throw (McpError InvalidRequest
              "Gemini API token not configured. Use configure_gemini_token first."),
     s, w) /\
  editImage request s w =
    (Throw (McpError InvalidRequest
              "Gemini API token not configured. Use configure_gemini_token first."),
     s, w).
Proof.
  intros Habsent. apply isConfigured_false in Habsent.
  split.
  - apply generateImage_unconfigured; assumption.
  - apply editImage_unconfigured; assumption.
Qed.

End Guards.

Lemma unconfigured_calls_witness :
  let P := Demo.platform "0.4fzyo82mvyr" (Demo.answerWith [Demo.imagePart "aGVsbG8="]) in
  let request := {| name := "generate_image"; arguments := Demo.args0 |} in
  (config initialSession = None \/ genAI initialSession = None) /\
  fst (generateImage request initialSession Demo.emptyWorld) =
    (Throw (McpError InvalidRequest
              "Gemini API token not configured. Use configure_gemini_token first."),
     initialSession) /\
  snd (editImage request initialSession Demo.emptyWorld) = Demo.emptyWorld.
Proof.
  intros P request.
  assert (Habsent : config initialSession = None \/ genAI initialSession = None)
    by (left; reflexivity).
  split; [exact Habsent|].
  destruct (unconfigured_calls_have_no_effect request initialSession
              Demo.emptyWorld Habsent) as [Hgen Hedit].
  split.
  - rewrite Hgen. reflexivity.
  - rewrite Hedit. reflexivity.
Defined.

(** ** The dispatcher *)

Section Dispatcher.

Context `{Plat : Platform}.

Lemma handlerOf_unknown toolName :
  ~ In toolName toolNames -> handlerOf toolName = None.
Proof.
  intros Hnot. unfold handlerOf.
  repeat match goal with
  | |- context [String.eqb toolName ?t] =>
      destruct (String.eqb_spec toolName t) as [-> | _];
      [exfalso; apply Hnot; unfold toolNames; simpl; tauto|]
  end.
  reflexivity.
Qed.

Lemma handlerOf_known toolName handler :
  handlerOf toolName = Some handler -> In toolName toolNames.
Proof.
  unfold handlerOf.
  repeat match goal with
  | |- context [String.eqb toolName ?t] =>
      destruct (String.eqb_spec toolName t) as [-> | _];
      [intros _; unfold toolNames; simpl; tauto|]
  end.
  discriminate.
Qed.

(** C1. Error translation of [call_tool]: a name outside the six tools
    gives a method-not-found error whose message ends with the name; a
    protocol error thrown by the selected handler comes out unchanged;
    any other error thrown by the handler comes out as an internal
    error whose message ends with the message of that error.  In each
    case the session and the world are those the handler left. *)
Theorem call_tool_error_translation request s w :
  (~ In (name request) toolNames ->
   callTool request s w =
   (Throw (McpError MethodNotFound ("Unknown tool: " +:+ name request)),
    s, w)) /\
  (forall handler,
     handlerOf (name request) = Some handler ->
     In (name request) toolNames /\
     (forall code message s' w',
        handler request s w = (Throw (McpError code message), s', w') ->
        callTool request s w = (Throw (McpError code message), s', w')) /\
     (forall error s' w',
        handler request s w = (Throw error, s', w') ->
        (forall code message, error <> McpError code message) ->
        callTool request s w =
        (Throw (McpError InternalError
                  ("Tool execution failed: " +:+ errorMessage error)),
         s', w')) /\
     (forall value s' w',
        handler request s w = (Ok value, s', w') ->
        callTool request s w = (Ok value, s', w'))).
Proof.
  split.
  - intros Hnot. unfold callTool, try_catch.
    rewrite (handlerOf_unknown _ Hnot). reflexivity.
  - intros handler Hh. split; [eapply handlerOf_known; eassumption|].
    unfold callTool, try_catch. rewrite Hh.
    split; [|split].
    + intros code message s' w' Hrun. rewrite Hrun. reflexivity.
    + intros error s' w' Hrun Hother. rewrite Hrun.
      destruct error as [code message | issues | message];
        [exfalso; eapply Hother; reflexivity | reflexivity | reflexivity].
    + intros value s' w' Hrun. rewrite Hrun. reflexivity.
Qed.

End Dispatcher.

(** The three cases on the demo platform: an unknown tool, a handler that
    throws a protocol error, and a handler that throws a file-system
    error (the configuration file's path is taken by a directory). *)
Lemma call_tool_error_translation_witness :
  let P := Demo.platform "0.4fzyo82mvyr" (Demo.answerWith []) in
  let blocked :=
    {| fs := {[ "/work/.nano-banana-config.json" := Dir ]};
       trace := []; clock := 0; rng := 0 |} in
  fst (fst (callTool {| name := "frobnicate"; arguments := Demo.args0 |}
                     initialSession Demo.emptyWorld)) =
    Throw (McpError MethodNotFound "Unknown tool: frobnicate") /\
  fst (fst (callTool {| name := "continue_editing"; arguments := Demo.args0 |}
                     initialSession Demo.emptyWorld)) =
    Throw (McpError InvalidRequest
             "Gemini API token not configured. Use configure_gemini_token first.") /\
  fst (fst (callTool
              {| name := "configure_gemini_token";
                 arguments :=
                   {| apiKey := "k"; prompt := ""; imagePath := "";
                      referenceImages := None; aspectRatio := None;
                      imageSize := None |} |}
              initialSession blocked)) =
    Throw (McpError InternalError
             "Tool execution failed: EISDIR: illegal operation on a directory, open '/work/.nano-banana-config.json'").
Proof.
  intros P blocked. split; [|split].
  - destruct (call_tool_error_translation
                {| name := "frobnicate"; arguments := Demo.args0 |}
                initialSession Demo.emptyWorld) as [Hunknown _].
    rewrite Hunknown; [reflexivity|].
    unfold toolNames. simpl. intros Hin.
    repeat (destruct Hin as [Hin | Hin]; [discriminate Hin|]). exact Hin.
  - destruct (call_tool_error_translation
                {| name := "continue_editing"; arguments := Demo.args0 |}
                initialSession Demo.emptyWorld) as [_ Hknown].
    destruct (Hknown continueEditing eq_refl) as (_ & Hmcp & _ & _).
    erewrite Hmcp; [reflexivity|]. vm_compute. reflexivity.
  - set (request := {| name := "configure_gemini_token";
                       arguments := {| apiKey := "k"; prompt := ""; imagePath := "";
                                       referenceImages := None; aspectRatio := None;
                                       imageSize := None |} |}).
    destruct (call_tool_error_translation request initialSession blocked)
      as [_ Hknown].
    destruct (Hknown configureGeminiToken eq_refl) as (_ & _ & Hother & _).
    erewrite Hother; cycle 1.
    + vm_compute. reflexivity.
    + intros code message Heq. discriminate Heq.
    + reflexivity.
Defined.

(** ** Continuing from the last image *)

Section Continue.

Context `{Plat : Platform}.

(** [editImage] reads five fields of the argument bag and nothing else
    of the request. *)
Lemma editImage_ext r1 r2 :
  imagePath (arguments r1) = imagePath (arguments r2) ->
  prompt (arguments r1) = prompt (arguments r2) ->
  referenceImages (arguments r1) = referenceImages (arguments r2) ->
  aspectRatio (arguments r1) = aspectRatio (arguments r2) ->
  imageSize (arguments r1) = imageSize (arguments r2) ->
  editImage r1 = editImage r2.
Proof.
  intros Hi Hp Hr Ha Hz. unfold editImage.
  rewrite Hi, Hp, Hr, Ha, Hz. reflexivity.
Qed.

Lemma truthy_Some p : p <> "" -> JS.truthy (Some p) = true.
Proof.
  intros Hp. simpl. destruct (String.eqb_spec p ""); [contradiction|].
  reflexivity.
Qed.

Lemma or_else_Some p d : p <> "" -> JS.or_else (Some p) d = p.
Proof.
  intros Hp. simpl. destruct (String.eqb_spec p ""); [contradiction|].
  reflexivity.
Qed.

(** C2. The guards of [continue_editing], in order.  Without
    credentials: invalid request, nothing changed.  With credentials but
    no stored path (JavaScript also counts an empty path as none):
    invalid request, "No previous image found".  With a stored path at
    which nothing exists any more: invalid request naming the path.
    Otherwise the call is the [edit_image] call on the stored path with
    the prompt, reference images, aspect ratio and image size of the
    original arguments. *)
Theorem continue_editing_guards request s w :
  (config s = None \/ genAI s = None ->
   continueEditing request s w =
   (Throw (McpError InvalidRequest
             "Gemini API token not configured. Use configure_gemini_token first."),
    s, w)) /\
  (isConfigured s = true ->
   lastImagePath s = None \/ lastImagePath s = Some "" ->
   continueEditing request s w =
   (Throw (McpError InvalidRequest
             "No previous image found. Please generate or edit an image first, then use continue_editing for subsequent edits."),
    s, w)) /\
  (forall last,
     isConfigured s = true ->
     lastImagePath s = Some last -> last <> "" ->
     fs w !! last = None ->
     continueEditing request s w =
     (Throw (McpError InvalidRequest
               ("Last image file not found at: " +:+ last +:+
                ". Please generate a new image first.")),
      s, w)) /\
  (forall last edit,
     isConfigured s = true ->
     lastImagePath s = Some last -> last <> "" ->
     is_Some (fs w !! last) ->
     imagePath (arguments edit) = last ->
     prompt (arguments edit) = prompt (arguments request) ->
     referenceImages (arguments edit) = referenceImages (arguments request) ->
     aspectRatio (arguments edit) = aspectRatio (arguments request) ->
     imageSize (arguments edit) = imageSize (arguments request) ->
     continueEditing request s w = editImage edit s w).
Proof.
  split; [|split; [|split]].
  - intros Habsent. apply isConfigured_false in Habsent.
    unfold continueEditing, bind at 1.
    rewrite ensureConfigured_run, Habsent. reflexivity.
  - intros Hc Hnone. unfold continueEditing, bind at 1.
    rewrite ensureConfigured_run, Hc. cbn [negb]. run_monad.
    destruct Hnone as [-> | ->]; reflexivity.
  - intros last Hc Hlast Hne Hgone. unfold continueEditing, bind at 1.
    rewrite ensureConfigured_run, Hc. cbn [negb]. run_monad.
    rewrite Hlast, (truthy_Some _ Hne), (or_else_Some _ _ Hne). cbn [negb].
    unfold FS.access. run_monad. rewrite Hgone. reflexivity.
  - intros last edit Hc Hlast Hne [node Hnode] Hi Hp Hr Ha Hz.
    unfold continueEditing, bind at 1.
    rewrite ensureConfigured_run, Hc. cbn [negb]. run_monad.
    rewrite Hlast, (truthy_Some _ Hne), (or_else_Some _ _ Hne). cbn [negb].
    unfold FS.access. run_monad. rewrite Hnode.
    erewrite editImage_ext; [reflexivity | | | | | ]; cbn; congruence.
Qed.

End Continue.

Lemma continue_editing_guards_witness :
  let P := Demo.platform "0.4fzyo82mvyr" (Demo.answerWith []) in
  let request := {| name := "continue_editing"; arguments := Demo.args0 |} in
  let last := "/work/generated_imgs/generated-1.png" in
  let withLast :=
    {| genAI := genAI Demo.configured; config := config Demo.configured;
       lastImagePath := Some last; configSource := config_file |} in
  let onDisk :=
    {| fs := {[ last := File [] 0 ]}; trace := []; clock := 0; rng := 0 |} in
  let edit :=
    {| name := "edit_image";
       arguments :=
         {| apiKey := "unused"; prompt := "a cat"; imagePath := last;
            referenceImages := None; aspectRatio := None;
            imageSize := None |} |} in
  fst (fst (continueEditing request initialSession Demo.emptyWorld)) =
    Throw (McpError InvalidRequest
             "Gemini API token not configured. Use configure_gemini_token first.") /\
  continueEditing request Demo.configured Demo.emptyWorld =
    (Throw (McpError InvalidRequest
              "No previous image found. Please generate or edit an image first, then use continue_editing for subsequent edits."),
     Demo.configured, Demo.emptyWorld) /\
  continueEditing request withLast Demo.emptyWorld =
    (Throw (McpError InvalidRequest
              "Last image file not found at: /work/generated_imgs/generated-1.png. Please generate a new image first."),
     withLast, Demo.emptyWorld) /\
  continueEditing request withLast onDisk = editImage edit withLast onDisk.
Proof.
  intros P request last withLast onDisk edit.
  split; [|split; [|split]].
  - destruct (continue_editing_guards request initialSession Demo.emptyWorld)
      as [Hcred _].
    rewrite Hcred; [reflexivity | left; reflexivity].
  - destruct (continue_editing_guards request Demo.configured Demo.emptyWorld)
      as (_ & Hnone & _).
    apply Hnone; [reflexivity | left; reflexivity].
  - destruct (continue_editing_guards request withLast Demo.emptyWorld)
      as (_ & _ & Hgone & _).
    apply (Hgone last); [reflexivity | reflexivity | discriminate | reflexivity].
  - destruct (continue_editing_guards request withLast onDisk)
      as (_ & _ & _ & Hedit).
    apply (Hedit last edit); try reflexivity; [discriminate|].
    exists (File [] 0). vm_compute. reflexivity.
Defined.

(** ** Configuring the token *)

Section Configure.

Context `{Plat : Platform}.

(** C4, as the code has it.  A [configure_gemini_token] call with the
    empty string as key fails with an invalid-parameters error before
    anything is touched: the credentials, the client, the provenance
    tag and the file system (with the configuration file in it) are
    unchanged. *)
Theorem configure_rejects_empty_key request s w :
  apiKey (arguments request) = "" ->
  configureGeminiToken request s w =
  (Throw (McpError InvalidParams "Invalid API key: Gemini API key is required"),
   s, w).
Proof.
  intros Hempty. unfold configureGeminiToken. rewrite Hempty. reflexivity.
Qed.

(** A key with at least one character passes the schema, whatever the
    characters are. *)
Lemma ConfigSchema_parse_nonempty key s w :
  key <> "" ->
  ConfigSchema_parse key s w = (Ok {| geminiApiKey := key |}, s, w).
Proof.
  intros Hne. unfold ConfigSchema_parse.
  destruct key as [|c rest]; [contradiction|]. reflexivity.
Qed.

End Configure.

Lemma configure_rejects_empty_key_witness :
  let P := Demo.platform "0.4fzyo82mvyr" (Demo.answerWith []) in
  configureGeminiToken
    {| name := "configure_gemini_token"; arguments := Demo.args0 |}
    Demo.configured Demo.emptyWorld =
  (Throw (McpError InvalidParams "Invalid API key: Gemini API key is required"),
   Demo.configured, Demo.emptyWorld).
Proof.
  intros P.
  apply (configure_rejects_empty_key
           {| name := "configure_gemini_token"; arguments := Demo.args0 |}).
  reflexivity.
Defined.

(** The key [" "] (one space) is accepted: the call succeeds, the
    session gets credentials, a client and the provenance tag of the
    local file, and the configuration file is written. *)
Lemma configure_accepts_whitespace_key :
  let P := Demo.platform "0.4fzyo82mvyr" (Demo.answerWith []) in
  let request :=
    {| name := "configure_gemini_token";
       arguments :=
         {| apiKey := " "; prompt := ""; imagePath := "";
            referenceImages := None; aspectRatio := None;
            imageSize := None |} |} in
  let out := configureGeminiToken request initialSession Demo.emptyWorld in
  fst (fst out) =
    Ok {| content :=
            [TextContent "✅ Gemini API token configured successfully! You can now use nano-banana image generation features."] |} /\
  config (snd (fst out)) = Some {| geminiApiKey := " " |} /\
  genAI (snd (fst out)) = Some {| client_apiKey := " " |} /\
  configSource (snd (fst out)) = config_file /\
  snd (fst out) <> initialSession /\
  fs Demo.emptyWorld !! "/work/.nano-banana-config.json" = None /\
  (exists bytes mtime,
     fs (snd out) !! "/work/.nano-banana-config.json" = Some (File bytes mtime)).
Proof.
  intros P request out.
  split; [vm_compute; reflexivity|].
  split; [vm_compute; reflexivity|].
  split; [vm_compute; reflexivity|].
  split; [vm_compute; reflexivity|].
  split; [vm_compute; discriminate|].
  split; [vm_compute; reflexivity|].
  eexists _, _. vm_compute. reflexivity.
Qed.

(** ** The response loop *)

Section ResponseLoop.

Context `{Plat : Platform}.

Lemma synthFileName_run pre s w :
  synthFileName pre s w = (Ok (fileNameAt pre w), s, tick w).
Proof. reflexivity. Qed.

Lemma writeFile_run p bytes s w :
  FS.writeFile p bytes s w =
  match fs w !! p with
  | Some Dir =>
      (Throw (JsError ("EISDIR: illegal operation on a directory, open " +:+
                       FS.quote p)), s, w)
  | _ => (Ok tt, s, wrote p bytes w)
  end.
Proof.
  unfold FS.writeFile. run_monad.
  destruct (fs w !! p) as [[bytes' mtime|]|]; reflexivity.
Qed.

Lemma generatePart_run dir part acc s w :
  generatePart dir part acc s w =
  match imageData part with
  | None => (Ok (add_text part acc), s, w)
  | Some (data, blob) =>
      let p := path_join [dir; fileNameAt "generated" w] in
      match fs w !! p with
      | Some Dir => (Throw (writeError p), s, tick w)
      | _ =>
          (Ok (push_image data blob (push_saved p (add_text part acc))),
           set_lastImagePath p s,
           wrote p (base64_decode data) (tick w))
      end
  end.
Proof.
  unfold imageData, generatePart.
  destruct (part_inlineData part) as [blob|]; [|reflexivity].
  destruct (JS.truthy (blob_data blob)); [|reflexivity].
  unfold bind at 1. rewrite synthFileName_run.
  unfold bind at 1. rewrite writeFile_run. cbn [fs tick].
  destruct (fs w !! path_join [dir; fileNameAt "generated" w])
    as [[bytes mtime|]|]; reflexivity.
Qed.

Lemma editPart_run dir part acc s w :
  editPart dir part acc s w =
  match part_inlineData part with
  | None => (Ok (add_text part acc), s, w)
  | Some _ =>
      match imageData part with
      | None => (Ok (add_text part acc), s, tick w)
      | Some (data, blob) =>
          let p := path_join [dir; fileNameAt "edited" w] in
          match fs w !! p with
          | Some Dir => (Throw (writeError p), s, tick w)
          | _ =>
              (Ok (push_image data blob (push_saved p (add_text part acc))),
               set_lastImagePath p s,
               wrote p (base64_decode data) (tick w))
          end
      end
  end.
Proof.
  unfold imageData, editPart.
  destruct (part_inlineData part) as [blob|]; [|reflexivity].
  unfold bind at 1. rewrite synthFileName_run.
  destruct (JS.truthy (blob_data blob)); [|reflexivity].
  unfold bind at 1. unfold bind at 1. rewrite writeFile_run.
  cbn [fs tick].
  destruct (fs w !! path_join [dir; fileNameAt "edited" w])
    as [[bytes mtime|]|]; reflexivity.
Qed.

Lemma generatePart_turn dir part acc s w :
  turn "generated" dir part acc s w (generatePart dir part acc s w).
Proof.
  rewrite generatePart_run. unfold turn.
  destruct (imageData part) as [[data blob]|].
  - cbv zeta.
    destruct (fs w !! path_join [dir; fileNameAt "generated" w])
      as [[bytes mtime|]|]; try reflexivity.
    eexists. reflexivity.
  - exists w. auto.
Qed.

Lemma editPart_turn dir part acc s w :
  turn "edited" dir part acc s w (editPart dir part acc s w).
Proof.
  rewrite editPart_run. unfold turn.
  destruct (imageData part) as [[data blob]|] eqn:Himage.
  - assert (Hinline : is_Some (part_inlineData part)).
    { unfold imageData in Himage.
      destruct (part_inlineData part); [eauto | discriminate]. }
    destruct Hinline as [blob' ->]. cbv zeta.
    destruct (fs w !! path_join [dir; fileNameAt "edited" w])
      as [[bytes mtime|]|]; try reflexivity.
    eexists. reflexivity.
  - destruct (part_inlineData part).
    + exists (tick w). auto.
    + exists w. auto.
Qed.

Lemma add_text_content part acc :
  acc_content (add_text part acc) = acc_content acc.
Proof. unfold add_text. destruct (JS.truthy (part_text part)); reflexivity. Qed.

Lemma add_text_savedFiles part acc :
  acc_savedFiles (add_text part acc) = acc_savedFiles acc.
Proof. unfold add_text. destruct (JS.truthy (part_text part)); reflexivity. Qed.

Lemma imageBlobs_cons part rest :
  imageBlobs (part :: rest) =
  match imageData part with
  | Some image => image :: imageBlobs rest
  | None => imageBlobs rest
  end.
Proof. reflexivity. Qed.

Section Body.

Variables (pre dir : string) (body : Part -> Acc -> M Acc).
Hypothesis body_turn :
  forall part acc s w, turn pre dir part acc s w (body part acc s w).

(** A loop that ends normally saved one file per inline image, in the
    order of the parts, and left the session pointing at the last of
    them. *)
Lemma loop_ok parts : forall acc s w acc' s' w',
  for_each body parts acc s w = (Ok acc', s', w') ->
  exists saved : list (string * (string * Blob)),
    map snd saved = imageBlobs parts /\
    Forall (fun sv => synthesized pre dir (fst sv)) saved /\
    acc_content acc' =
      (acc_content acc ++ map imageOf (imageBlobs parts))%list /\
    acc_savedFiles acc' = (acc_savedFiles acc ++ map fst saved)%list /\
    trace w' = (rev (map writeOf saved) ++ trace w)%list /\
    match last saved with
    | Some sv =>
        s' = set_lastImagePath (fst sv) s /\
        exists mtime,
          fs w' !! fst sv =
          Some (File (base64_decode (fst (snd sv))) mtime)
    | None => s' = s /\ fs w' = fs w
    end.
Proof.
  induction parts as [|part rest IH]; intros acc s w acc' s' w' Hrun.
  - cbn in Hrun. unfold ret in Hrun. injection Hrun as <- <- <-.
    exists []. cbn. rewrite !app_nil_r.
    repeat split; auto.
  - cbn [for_each] in Hrun. unfold bind in Hrun.
    pose proof (body_turn part acc s w) as Hturn. unfold turn in Hturn.
    rewrite imageBlobs_cons.
    destruct (imageData part) as [[data blob]|].
    + cbv zeta in Hturn.
      set (p := path_join [dir; fileNameAt pre w]) in *.
      assert (Hout : body part acc s w =
                     (Ok (push_image data blob
                            (push_saved p (add_text part acc))),
                      set_lastImagePath p s,
                      wrote p (base64_decode data) (tick w))).
      { destruct (fs w !! p) as [[bytes mtime|]|]; try exact Hturn.
        destruct Hturn as [error Hthrow]. rewrite Hthrow in Hrun.
        discriminate Hrun. }
      rewrite Hout in Hrun. apply IH in Hrun.
      destruct Hrun as (saved & Hblobs & Hnames & Hcontent & Hfiles &
                        Htrace & Hlast).
      exists ((p, (data, blob)) :: saved).
      split; [cbn; rewrite Hblobs; reflexivity|].
      split.
      { constructor; [|exact Hnames]. cbn.
        exists (date_toISOString (clock w)), (random_toString36 (rng w)).
        reflexivity. }
      split.
      { rewrite Hcontent. cbn. rewrite add_text_content, <- app_assoc.
        reflexivity. }
      split.
      { rewrite Hfiles. cbn. rewrite add_text_savedFiles, <- app_assoc.
        reflexivity. }
      split.
      { rewrite Htrace. cbn. rewrite <- app_assoc. reflexivity. }
      rewrite last_cons.
      destruct (last saved) as [sv|].
      * destruct Hlast as [-> Hfile]. split; [reflexivity | exact Hfile].
      * destruct Hlast as [-> Hfs]. split; [reflexivity|].
        exists (clock (tick w)). rewrite Hfs. cbn.
        apply lookup_insert_eq.
    + destruct Hturn as (w1 & Hout & Hfs1 & Htrace1).
      rewrite Hout in Hrun. apply IH in Hrun.
      destruct Hrun as (saved & Hblobs & Hnames & Hcontent & Hfiles &
                        Htrace & Hlast).
      exists saved.
      rewrite add_text_content in Hcontent.
      rewrite add_text_savedFiles in Hfiles.
      rewrite Htrace1 in Htrace. rewrite Hfs1 in Hlast.
      repeat split; assumption.
Qed.

(** Without inline images the loop ends normally and writes
    nothing. *)
Lemma loop_no_image parts : forall acc s w,
  imageBlobs parts = [] ->
  exists acc' w',
    for_each body parts acc s w = (Ok acc', s, w') /\
    fs w' = fs w /\ trace w' = trace w /\
    acc_content acc' = acc_content acc /\
    acc_savedFiles acc' = acc_savedFiles acc.
Proof.
  induction parts as [|part rest IH]; intros acc s w Hnone.
  - exists acc, w. repeat split; reflexivity.
  - rewrite imageBlobs_cons in Hnone.
    pose proof (body_turn part acc s w) as Hturn. unfold turn in Hturn.
    destruct (imageData part) as [image|]; [discriminate Hnone|].
    destruct Hturn as (w1 & Hout & Hfs1 & Htrace1).
    destruct (IH (add_text part acc) s w1 Hnone)
      as (acc' & w' & Hrun & Hfs & Htrace & Hcontent & Hfiles).
    exists acc', w'. cbn [for_each]. unfold bind. rewrite Hout, Hrun.
    rewrite add_text_content in Hcontent.
    rewrite add_text_savedFiles in Hfiles.
    repeat split; congruence.
Qed.

End Body.

End ResponseLoop.

(** ** The two image handlers, step by step *)

Section Handlers.

Context `{Plat : Platform}.

Lemma append_assoc (a b c : string) : (a +:+ b) +:+ c = a +:+ b +:+ c.
Proof.
  induction a as [|ch a IH]; [reflexivity|].
  change (String ch ((a +:+ b) +:+ c) = String ch (a +:+ b +:+ c)).
  rewrite IH. reflexivity.
Qed.

Lemma mkdir_run p s w :
  FS.mkdir p s w =
  match fs w !! p with
  | Some (File _ _) =>
      (Throw (JsError ("EEXIST: file already exists, mkdir " +:+ FS.quote p)),
       s, w)
  | _ => (Ok tt, s, made p w)
  end.
Proof.
  unfold FS.mkdir. run_monad.
  destruct (fs w !! p) as [[bytes mtime|]|]; reflexivity.
Qed.

Lemma processResponse_run body response s w :
  processResponse body response s w =
  match fs w !! getImagesDirectory with
  | Some (File _ _) =>
      (Throw (JsError ("EEXIST: file already exists, mkdir " +:+
                       FS.quote getImagesDirectory)), s, w)
  | _ =>
      for_each (body getImagesDirectory) (partsOf response) acc0 s
               (made getImagesDirectory w)
  end.
Proof.
  unfold processResponse, partsOf, bind at 1. rewrite mkdir_run.
  destruct (fs w !! getImagesDirectory) as [[bytes mtime|]|];
    try reflexivity;
    destruct (response_parts response); reflexivity.
Qed.

Lemma remoteGenerate_run params client s w :
  genAI s = Some client ->
  remoteGenerate params s w =
  (generateContent (trace w) client params, s, called client params w).
Proof. intros Hclient. unfold remoteGenerate. run_monad. rewrite Hclient. reflexivity. Qed.

Lemma generateImage_run request client s w :
  isConfigured s = true -> genAI s = Some client ->
  generateImage request s w =
  match generateContent (trace w) client (generateParams request) with
  | Throw error =>
      (Throw (McpError InternalError
                ("Failed to generate image: " +:+ errorMessage error)),
       s, called client (generateParams request) w)
  | Ok response =>
      match processResponse generatePart response s
              (called client (generateParams request) w) with
      | (Ok acc, s', w') =>
          (Ok {| content :=
                   TextContent
                     (generateStatus
                        (prompt (arguments request))
                        (JS.param_default "4:3" (aspectRatio (arguments request)))
                        (JS.param_default "1K" (imageSize (arguments request)))
                        acc)
                   :: acc_content acc |}, s', w')
      | (Throw error, s', w') =>
          (Throw (McpError InternalError
                    ("Failed to generate image: " +:+ errorMessage error)),
           s', w')
      end
  end.
Proof.
  intros Hc Hclient. unfold generateImage, bind at 1.
  rewrite ensureConfigured_run, Hc. cbn [negb].
  unfold try_catch, bind at 1.
  rewrite (remoteGenerate_run _ client) by assumption.
  fold (generateParams request).
  destruct (generateContent (trace w) client (generateParams request))
    as [response|error]; [|reflexivity].
  unfold bind.
  destruct (processResponse generatePart response s
              (called client (generateParams request) w))
    as [[[acc|error] s'] w']; reflexivity.
Qed.

Lemma readFile_run p s w :
  FS.readFile p s w =
  match fs w !! p with
  | Some (File bytes _) => (Ok bytes, s, w)
  | Some Dir =>
      (Throw (JsError "EISDIR: illegal operation on a directory, read"), s, w)
  | None =>
      (Throw (JsError ("ENOENT: no such file or directory, open " +:+
                       FS.quote p)), s, w)
  end.
Proof.
  unfold FS.readFile. run_monad.
  destruct (fs w !! p) as [[bytes mtime|]|]; reflexivity.
Qed.

Lemma addReference_run refPath imageParts s w :
  addReference refPath imageParts s w =
  (Ok (imageParts ++ match refPart (fs w) refPath with
                     | Some part => [part]
                     | None => []
                     end)%list, s, w).
Proof.
  unfold addReference, try_catch, bind, refPart. rewrite readFile_run.
  destruct (fs w !! refPath) as [[bytes mtime|]|]; cbn;
    rewrite ?app_nil_r; reflexivity.
Qed.

(** The loop over the reference images never fails and keeps, in
    order, the references that can be read. *)
Lemma references_run refs : forall imageParts s w,
  for_each addReference refs imageParts s w =
  (Ok (imageParts ++ omap (refPart (fs w)) refs)%list, s, w).
Proof.
  induction refs as [|refPath rest IH]; intros imageParts s w.
  - cbn. rewrite app_nil_r. reflexivity.
  - cbn [for_each]. unfold bind. rewrite addReference_run, IH.
    cbn [omap list_omap].
    destruct (refPart (fs w) refPath) as [part|].
    + rewrite <- app_assoc. reflexivity.
    + rewrite app_nil_r. reflexivity.
Qed.

Lemma editImage_run request client bytes mtime s w :
  isConfigured s = true -> genAI s = Some client ->
  fs w !! imagePath (arguments request) = Some (File bytes mtime) ->
  editImage request s w =
  let params := editParams request (sentImages request bytes w) in
  match generateContent (trace w) client params with
  | Throw error =>
      (Throw (McpError InternalError
                ("Failed to edit image: " +:+ errorMessage error)),
       s, called client params w)
  | Ok response =>
      match processResponse editPart response s
              (called client params w) with
      | (Ok acc, s', w') =>
          (Ok {| content :=
                   TextContent
                     (editStatus
                        (imagePath (arguments request))
                        (prompt (arguments request))
                        (referenceImages (arguments request))
                        (JS.param_default "4:3" (aspectRatio (arguments request)))
                        (JS.param_default "1K" (imageSize (arguments request)))
                        acc)
                   :: acc_content acc |}, s', w')
      | (Throw error, s', w') =>
          (Throw (McpError InternalError
                    ("Failed to edit image: " +:+ errorMessage error)),
           s', w')
      end
  end.
Proof.
  intros Hc Hclient Hfile. unfold editImage, bind at 1.
  rewrite ensureConfigured_run, Hc. cbn [negb].
  unfold try_catch, bind at 1. rewrite readFile_run, Hfile.
  unfold bind at 1. rewrite references_run.
  unfold bind at 1.
  rewrite (remoteGenerate_run _ client) by assumption.
  lazymatch goal with
  | |- ?lhs = _ =>
      match lhs with
      | context [generateContent _ _ ?ps] =>
          change ps with (editParams request (sentImages request bytes w))
      end
  end.
  cbv zeta.
  destruct (generateContent (trace w) client
              (editParams request (sentImages request bytes w)))
    as [response|error]; [|reflexivity].
  unfold bind.
  destruct (processResponse editPart response s
              (called client (editParams request (sentImages request bytes w)) w))
    as [[[acc|error] s'] w']; reflexivity.
Qed.

Lemma editImage_unreadable request s w :
  isConfigured s = true ->
  (forall bytes mtime,
     fs w !! imagePath (arguments request) <> Some (File bytes mtime)) ->
  editImage request s w =
  (Throw (McpError InternalError
            ("Failed to edit image: " +:+
             readError w (imagePath (arguments request)))),
   s, w).
Proof.
  intros Hc Hnofile. unfold editImage, bind at 1.
  rewrite ensureConfigured_run, Hc. cbn [negb].
  unfold try_catch, bind at 1. rewrite readFile_run. unfold readError.
  destruct (fs w !! imagePath (arguments request)) as [[bytes mtime|]|];
    [exfalso; eapply Hnofile; reflexivity | reflexivity | reflexivity].
Qed.

End Handlers.

(** ** Shape of a successful result *)

Section ResultShape.

Context `{Plat : Platform}.

Lemma processed_ok pre body response s w acc s' w' :
  (forall dir part acc s w,
     turn pre dir part acc s w (body dir part acc s w)) ->
  processResponse body response s w = (Ok acc, s', w') ->
  exists saved : list (string * (string * Blob)),
    map snd saved = imageBlobs (partsOf response) /\
    Forall (fun sv => synthesized pre getImagesDirectory (fst sv)) saved /\
    acc_content acc = map imageOf (imageBlobs (partsOf response)) /\
    acc_savedFiles acc = map fst saved /\
    trace w' =
      (rev (map writeOf saved) ++ EvMkdir getImagesDirectory :: trace w)%list /\
    match last saved with
    | Some sv =>
        s' = set_lastImagePath (fst sv) s /\
        exists mtime,
          fs w' !! fst sv = Some (File (base64_decode (fst (snd sv))) mtime)
    | None => s' = s /\ fs w' = fs (made getImagesDirectory w)
    end.
Proof.
  intros Hbody Hrun. rewrite processResponse_run in Hrun.
  assert (Hloop : for_each (body getImagesDirectory) (partsOf response) acc0 s
                           (made getImagesDirectory w) = (Ok acc, s', w')).
  { destruct (fs w !! getImagesDirectory) as [[bytes mtime|]|];
      [discriminate Hrun | exact Hrun | exact Hrun]. }
  apply (loop_ok pre getImagesDirectory _ (Hbody getImagesDirectory)) in Hloop.
  destruct Hloop as (saved & Hblobs & Hnames & Hcontent & Hfiles & Htrace &
                     Hlast).
  exists saved. repeat split; assumption.
Qed.

Lemma processed_no_image pre body response s w :
  (forall dir part acc s w,
     turn pre dir part acc s w (body dir part acc s w)) ->
  imageBlobs (partsOf response) = [] ->
  (forall bytes mtime,
     fs w !! getImagesDirectory <> Some (File bytes mtime)) ->
  exists acc w',
    processResponse body response s w = (Ok acc, s, w') /\
    acc_content acc = [] /\ acc_savedFiles acc = [] /\
    trace w' = EvMkdir getImagesDirectory :: trace w.
Proof.
  intros Hbody Hnone Hdir. rewrite processResponse_run.
  destruct (loop_no_image pre getImagesDirectory _ (Hbody getImagesDirectory)
              (partsOf response) acc0 s (made getImagesDirectory w) Hnone)
    as (acc & w' & Hrun & _ & Htrace & Hcontent & Hfiles).
  exists acc, w'.
  split; [|auto].
  destruct (fs w !! getImagesDirectory) as [[bytes mtime|]|];
    [exfalso; eapply Hdir; reflexivity | exact Hrun | exact Hrun].
Qed.

Lemma generateStatus_none prompt aspectRatio imageSize acc :
  acc_savedFiles acc = [] ->
  exists before,
    generateStatus prompt aspectRatio imageSize acc =
    before +:+
    "Note: No image was generated. The model may have returned only text." +:+
    JS.nl +:+ JS.nl +:+
    "💡 Tip: Try running the command again - sometimes the first call needs to warm up the model.".
Proof.
  intros Hnone. unfold generateStatus. rewrite Hnone. cbn [List.length Nat.ltb Nat.leb].
  cbv zeta.
  match goal with
  | |- exists before, ?x +:+ _ = _ => exists (x +:+ JS.nl +:+ JS.nl)
  end.
  rewrite !append_assoc. reflexivity.
Qed.

Lemma editStatus_none imagePath prompt refs aspectRatio imageSize acc :
  acc_savedFiles acc = [] ->
  exists before,
    editStatus imagePath prompt refs aspectRatio imageSize acc =
    before +:+ "Note: No edited image was generated." +:+
    JS.nl +:+ JS.nl +:+
    "💡 Tip: Try running the command again - sometimes the first call needs to warm up the model.".
Proof.
  intros Hnone. unfold editStatus. rewrite Hnone. cbn [List.length Nat.ltb Nat.leb].
  cbv zeta.
  match goal with
  | |- exists before, ?x +:+ _ = _ => exists (x +:+ JS.nl +:+ JS.nl)
  end.
  rewrite !append_assoc. reflexivity.
Qed.

Lemma generateImage_ok_configured request s w res s' w' :
  generateImage request s w = (Ok res, s', w') ->
  isConfigured s = true /\ exists client, genAI s = Some client.
Proof.
  intros Hrun. destruct (isConfigured s) eqn:Hc.
  - split; [reflexivity|]. apply isConfigured_true in Hc as [_ [client Hclient]].
    eauto.
  - rewrite generateImage_unconfigured in Hrun by assumption. discriminate Hrun.
Qed.

Lemma editImage_ok_configured request s w res s' w' :
  editImage request s w = (Ok res, s', w') ->
  isConfigured s = true /\ (exists client, genAI s = Some client) /\
  exists bytes mtime,
    fs w !! imagePath (arguments request) = Some (File bytes mtime).
Proof.
  intros Hrun. destruct (isConfigured s) eqn:Hc.
  - split; [reflexivity|]. split.
    + apply isConfigured_true in Hc as [_ [client Hclient]]. eauto.
    + destruct (fs w !! imagePath (arguments request)) as [[bytes mtime|]|] eqn:Hfile;
        [eauto | |];
        rewrite editImage_unreadable in Hrun by (assumption || congruence);
        discriminate Hrun.
  - rewrite editImage_unconfigured in Hrun by assumption. discriminate Hrun.
Qed.

Lemma generateImage_succeeded request s w res s' w' :
  generateImage request s w = (Ok res, s', w') ->
  exists client,
    genAI s = Some client /\
    succeeded "generated" client (generateParams request)
      (generateStatus (prompt (arguments request))
         (JS.param_default "4:3" (aspectRatio (arguments request)))
         (JS.param_default "1K" (imageSize (arguments request))))
      res s w s' w'.
Proof.
  intros Hrun.
  destruct (generateImage_ok_configured _ _ _ _ _ _ Hrun)
    as [Hc [client Hclient]].
  exists client. split; [assumption|].
  rewrite (generateImage_run _ client) in Hrun by assumption.
  destruct (generateContent (trace w) client (generateParams request))
    as [response|error] eqn:Hanswer; [|discriminate Hrun].
  destruct (processResponse generatePart response s
              (called client (generateParams request) w))
    as [[[acc|error] s1] w1] eqn:Hproc; [|discriminate Hrun].
  injection Hrun as <- <- <-.
  apply (processed_ok "generated") in Hproc; [|apply generatePart_turn].
  destruct Hproc as (saved & Hblobs & Hnames & Hcontent & Hfiles & Htrace &
                     Hlast).
  exists response, acc, saved. cbn [content].
  rewrite Hcontent.
  repeat (split; [assumption || reflexivity|]).
  destruct (last saved) as [sv|]; [exact Hlast | exact (proj1 Hlast)].
Qed.

Lemma editImage_succeeded request s w res s' w' :
  editImage request s w = (Ok res, s', w') ->
  exists client bytes mtime,
    genAI s = Some client /\
    fs w !! imagePath (arguments request) = Some (File bytes mtime) /\
    succeeded "edited" client
      (editParams request (sentImages request bytes w))
      (editStatus (imagePath (arguments request))
         (prompt (arguments request))
         (referenceImages (arguments request))
         (JS.param_default "4:3" (aspectRatio (arguments request)))
         (JS.param_default "1K" (imageSize (arguments request))))
      res s w s' w'.
Proof.
  intros Hrun.
  destruct (editImage_ok_configured _ _ _ _ _ _ Hrun)
    as (Hc & [client Hclient] & bytes & mtime & Hfile).
  exists client, bytes, mtime. split; [assumption|]. split; [assumption|].
  rewrite (editImage_run _ client bytes mtime) in Hrun by assumption.
  cbv zeta in Hrun.
  destruct (generateContent (trace w) client
              (editParams request (sentImages request bytes w)))
    as [response|error] eqn:Hanswer; [|discriminate Hrun].
  destruct (processResponse editPart response s
              (called client (editParams request (sentImages request bytes w)) w))
    as [[[acc|error] s1] w1] eqn:Hproc; [|discriminate Hrun].
  injection Hrun as <- <- <-.
  apply (processed_ok "edited") in Hproc; [|apply editPart_turn].
  destruct Hproc as (saved & Hblobs & Hnames & Hcontent & Hfiles & Htrace &
                     Hlast).
  exists response, acc, saved. cbn [content].
  rewrite Hcontent.
  repeat (split; [assumption || reflexivity|]).
  destruct (last saved) as [sv|]; [exact Hlast | exact (proj1 Hlast)].
Qed.

End ResultShape.

Section ResultShapeTheorem.

Context `{Plat : Platform}.

(** C5. A [generate_image] or [edit_image] call that ends normally
    returns the status block first and then one image part per file
    saved, in the order of the inline images of the upstream response;
    each image part carries the base64 data of the response itself and
    its mime type ([image/png] when the response declares none).  The
    files saved are exactly the writes the call added to the trace.
    When the response has no inline image the call still ends normally
    (provided the save directory can be made), with the status block
    alone, and the block says that no image was generated. *)
Theorem successful_result_shape request s w :
  (forall res s' w',
     generateImage request s w = (Ok res, s', w') ->
     exists client response status (saved : list (string * (string * Blob))),
       genAI s = Some client /\
       generateContent (trace w) client (generateParams request) = Ok response /\
       content res =
         TextContent status :: map imageOf (imageBlobs (partsOf response)) /\
       map snd saved = imageBlobs (partsOf response) /\
       trace w' =
         (rev (map writeOf saved) ++
          EvMkdir getImagesDirectory ::
          EvGenerateContent client (generateParams request) :: trace w)%list /\
       (imageBlobs (partsOf response) = [] ->
        exists before,
          status =
          before +:+
          "Note: No image was generated. The model may have returned only text." +:+
          JS.nl +:+ JS.nl +:+
          "💡 Tip: Try running the command again - sometimes the first call needs to warm up the model.")) /\
  (forall res s' w',
     editImage request s w = (Ok res, s', w') ->
     exists client bytes mtime response status
            (saved : list (string * (string * Blob))),
       genAI s = Some client /\
       fs w !! imagePath (arguments request) = Some (File bytes mtime) /\
       generateContent (trace w) client
         (editParams request (sentImages request bytes w)) = Ok response /\
       content res =
         TextContent status :: map imageOf (imageBlobs (partsOf response)) /\
       map snd saved = imageBlobs (partsOf response) /\
       trace w' =
         (rev (map writeOf saved) ++
          EvMkdir getImagesDirectory ::
          EvGenerateContent client
            (editParams request (sentImages request bytes w)) :: trace w)%list /\
       (imageBlobs (partsOf response) = [] ->
        exists before,
          status =
          before +:+ "Note: No edited image was generated." +:+
          JS.nl +:+ JS.nl +:+
          "💡 Tip: Try running the command again - sometimes the first call needs to warm up the model.")) /\
  (forall client response,
     isConfigured s = true -> genAI s = Some client ->
     generateContent (trace w) client (generateParams request) = Ok response ->
     imageBlobs (partsOf response) = [] ->
     (forall bytes mtime,
        fs w !! getImagesDirectory <> Some (File bytes mtime)) ->
     exists status w',
       generateImage request s w =
       (Ok {| content := [TextContent status] |}, s, w')) /\
  (forall client bytes mtime response,
     isConfigured s = true -> genAI s = Some client ->
     fs w !! imagePath (arguments request) = Some (File bytes mtime) ->
     generateContent (trace w) client
       (editParams request (sentImages request bytes w)) = Ok response ->
     imageBlobs (partsOf response) = [] ->
     (forall bytes mtime,
        fs w !! getImagesDirectory <> Some (File bytes mtime)) ->
     exists status w',
       editImage request s w =
       (Ok {| content := [TextContent status] |}, s, w')) /\
  (forall data blob,
     imageOf (data, blob) =
     ImageContent data
       match blob_mimeType blob with
       | Some "" | None => "image/png"
       | Some declared => declared
       end).
Proof.
  split; [|split; [|split; [|split]]].
  - intros res s' w' Hrun.
    apply generateImage_succeeded in Hrun.
    destruct Hrun as (client & Hclient & response & acc & saved & Hanswer &
                      Hcontent & Hblobs & _ & Hfiles & Htrace & _).
    exists client, response. eexists. exists saved.
    repeat (split; [eassumption|]).
    intros Hnone. apply generateStatus_none.
    rewrite Hfiles. rewrite Hnone in Hblobs.
    destruct saved; [reflexivity | discriminate Hblobs].
  - intros res s' w' Hrun.
    apply editImage_succeeded in Hrun.
    destruct Hrun as (client & bytes & mtime & Hclient & Hfile & response &
                      acc & saved & Hanswer & Hcontent & Hblobs & _ &
                      Hfiles & Htrace & _).
    exists client, bytes, mtime, response. eexists. exists saved.
    repeat (split; [eassumption|]).
    intros Hnone. apply editStatus_none.
    rewrite Hfiles. rewrite Hnone in Hblobs.
    destruct saved; [reflexivity | discriminate Hblobs].
  - intros client response Hc Hclient Hanswer Hnone Hdir.
    rewrite (generateImage_run _ client) by assumption. rewrite Hanswer.
    destruct (processed_no_image "generated" generatePart response s
                (called client (generateParams request) w))
      as (acc & w' & Hproc & Hcontent & _); auto using generatePart_turn.
    rewrite Hproc, Hcontent. eauto.
  - intros client bytes mtime response Hc Hclient Hfile Hanswer Hnone Hdir.
    rewrite (editImage_run _ client bytes mtime) by assumption.
    cbv zeta. rewrite Hanswer.
    destruct (processed_no_image "edited" editPart response s
                (called client
                   (editParams request (sentImages request bytes w)) w))
      as (acc & w' & Hproc & Hcontent & _); auto using editPart_turn.
    rewrite Hproc, Hcontent. eauto.
  - intros data blob. unfold imageOf. cbn.
    destruct (blob_mimeType blob) as [[|c declared]|]; reflexivity.
Qed.

End ResultShapeTheorem.

Lemma successful_result_shape_witness :
  let request := {| name := "generate_image"; arguments := Demo.args0 |} in
  (let P := Demo.platform "0.4fzyo82mvyr"
              (Demo.answerWith [Demo.textPart "hi"; Demo.imagePart "aGVsbG8="]) in
   exists res s' w' status,
     generateImage request Demo.configured Demo.emptyWorld = (Ok res, s', w') /\
     content res = [TextContent status; ImageContent "aGVsbG8=" "image/png"]) /\
  (let P := Demo.platform "0.4fzyo82mvyr" (Demo.answerWith [Demo.textPart "hi"]) in
   exists status w',
     generateImage request Demo.configured Demo.emptyWorld =
     (Ok {| content := [TextContent status] |}, Demo.configured, w')).
Proof.
  intros request. split.
  - intros P.
    destruct (generateImage request Demo.configured Demo.emptyWorld)
      as [[[res|error] s'] w'] eqn:Hrun;
      [|vm_compute in Hrun; discriminate Hrun].
    destruct (successful_result_shape request Demo.configured Demo.emptyWorld)
      as [Hgenerate _].
    destruct (Hgenerate res s' w' Hrun)
      as (client & response & status & saved & _ & Hanswer & Hcontent & _).
    cbn in Hanswer. injection Hanswer as <-.
    exists res, s', w', status. split; [reflexivity|].
    rewrite Hcontent. reflexivity.
  - intros P.
    destruct (successful_result_shape request Demo.configured Demo.emptyWorld)
      as (_ & _ & Hnone & _).
    apply (Hnone {| client_apiKey := "k" |}
                 {| candidates := Some [ {| cand_parts := Some [Demo.textPart "hi"] |} ] |});
      try reflexivity.
    intros bytes mtime. vm_compute. discriminate.
Defined.

(** ** Saving an inline image *)

Section Saving.

Context `{Plat : Platform}.

Lemma substring_length_le n m s :
  String.length (String.substring n m s) <= m.
Proof.
  revert n m. induction s as [|c s IH]; intros [|n] [|m]; cbn; try lia.
  - specialize (IH 0 m). lia.
  - apply IH.
  - apply IH.
Qed.

Lemma substring_length_eq n m s :
  n + m <= String.length s -> String.length (String.substring n m s) = m.
Proof.
  revert n m. induction s as [|c s IH]; intros [|n] [|m]; cbn; try lia.
  - intros Hle. rewrite (IH 0 m); lia.
  - intros Hle. apply IH. lia.
  - intros Hle. apply IH. lia.
Qed.

Lemma replace_colon_dot_clean s n :
  String.get n (JS.replace_colon_dot s) <> Some ":"%char /\
  String.get n (JS.replace_colon_dot s) <> Some "."%char.
Proof.
  revert n. induction s as [|c s IH]; intros n.
  - cbn. split; discriminate.
  - destruct n as [|n]; [|apply IH].
    cbn [JS.replace_colon_dot String.get].
    destruct (Ascii.eqb_spec c ":") as [->|Hcolon]; cbn [orb].
    { split; discriminate. }
    destruct (Ascii.eqb_spec c ".") as [->|Hdot].
    { split; discriminate. }
    split; congruence.
Qed.

Lemma drawn_at pre dir w : drawn pre dir (path_join [dir; fileNameAt pre w]).
Proof.
  exists (clock w), (rng w). cbv zeta.
  split; [reflexivity|].
  split; [apply substring_length_le|].
  split; [intros Hlong; apply substring_length_eq; lia|].
  intros n. apply replace_colon_dot_clean.
Qed.

(** Every path a loop that ended normally recorded is a drawn name. *)
Lemma loop_drawn pre dir (body : Part -> Acc -> M Acc) :
  (forall part acc s w, turn pre dir part acc s w (body part acc s w)) ->
  forall parts acc s w acc' s' w',
    for_each body parts acc s w = (Ok acc', s', w') ->
    exists names,
      acc_savedFiles acc' = (acc_savedFiles acc ++ names)%list /\
      Forall (drawn pre dir) names.
Proof.
  intros body_turn.
  induction parts as [|part rest IH]; intros acc s w acc' s' w' Hrun.
  - cbn in Hrun. unfold ret in Hrun. injection Hrun as <- <- <-.
    exists []. rewrite app_nil_r. split; [reflexivity | constructor].
  - cbn [for_each] in Hrun. unfold bind in Hrun.
    pose proof (body_turn part acc s w) as Hturn. unfold turn in Hturn.
    destruct (imageData part) as [[data blob]|].
    + cbv zeta in Hturn.
      set (p := path_join [dir; fileNameAt pre w]) in *.
      assert (Hout : body part acc s w =
                     (Ok (push_image data blob
                            (push_saved p (add_text part acc))),
                      set_lastImagePath p s,
                      wrote p (base64_decode data) (tick w))).
      { destruct (fs w !! p) as [[bytes mtime|]|]; try exact Hturn.
        destruct Hturn as [error Hthrow]. rewrite Hthrow in Hrun.
        discriminate Hrun. }
      rewrite Hout in Hrun. apply IH in Hrun.
      destruct Hrun as (names & Hfiles & Hnames).
      exists (p :: names). split.
      * rewrite Hfiles. cbn. rewrite add_text_savedFiles, <- app_assoc.
        reflexivity.
      * constructor; [apply drawn_at | exact Hnames].
    + destruct Hturn as (w1 & Hout & _ & _).
      rewrite Hout in Hrun. apply IH in Hrun.
      destruct Hrun as (names & Hfiles & Hnames).
      exists names. rewrite add_text_savedFiles in Hfiles. auto.
Qed.

Lemma processed_drawn pre body response s w acc s' w' :
  (forall dir part acc s w,
     turn pre dir part acc s w (body dir part acc s w)) ->
  processResponse body response s w = (Ok acc, s', w') ->
  Forall (drawn pre getImagesDirectory) (acc_savedFiles acc).
Proof.
  intros Hbody Hrun. rewrite processResponse_run in Hrun.
  assert (Hloop : for_each (body getImagesDirectory) (partsOf response) acc0 s
                           (made getImagesDirectory w) = (Ok acc, s', w')).
  { destruct (fs w !! getImagesDirectory) as [[bytes mtime|]|];
      [discriminate Hrun | exact Hrun | exact Hrun]. }
  apply (loop_drawn pre getImagesDirectory _ (Hbody getImagesDirectory))
    in Hloop.
  destruct Hloop as (names & -> & Hnames). exact Hnames.
Qed.

(** What a handler that ended normally did with the inline images of
    the response, given that [processResponse] was run on the answer to
    [params]. *)
Lemma processed_saved pre body client params response s w acc s' w' :
  (forall dir part acc s w,
     turn pre dir part acc s w (body dir part acc s w)) ->
  processResponse body response s (called client params w) = (Ok acc, s', w') ->
  exists saved : list (string * (string * Blob)),
    map snd saved = imageBlobs (partsOf response) /\
    Forall (fun sv => drawn pre getImagesDirectory (fst sv)) saved /\
    trace w' =
      (rev (map writeOf saved) ++
       EvMkdir getImagesDirectory ::
       EvGenerateContent client params :: trace w)%list /\
    acc_savedFiles acc = map fst saved /\
    acc_content acc = map imageOf (imageBlobs (partsOf response)) /\
    lastImagePath s' =
      match last saved with
      | Some sv => Some (fst sv)
      | None => lastImagePath s
      end /\
    (forall sv, last saved = Some sv ->
       exists mtime,
         fs w' !! fst sv = Some (File (base64_decode (fst (snd sv))) mtime)).
Proof.
  intros Hbody Hproc.
  pose proof (processed_drawn pre _ _ _ _ _ _ _ Hbody Hproc) as Hdrawn.
  apply (processed_ok pre) in Hproc; [|exact Hbody].
  destruct Hproc as (saved & Hblobs & _ & Hcontent & Hfiles & Htrace & Hlast).
  exists saved. split; [exact Hblobs|].
  split.
  { apply List.Forall_forall. intros sv Hin.
    apply (proj1 (List.Forall_forall _ _) Hdrawn).
    rewrite Hfiles. apply in_map. exact Hin. }
  split; [exact Htrace|]. split; [exact Hfiles|]. split; [exact Hcontent|].
  destruct (last saved) as [sv|].
  - destruct Hlast as [-> Hfile]. split; [reflexivity|].
    intros sv' [= <-]. exact Hfile.
  - destruct Hlast as [-> _]. split; [reflexivity|]. intros sv' [=].
Qed.

(** C7, as the code has it.  In a [generate_image] or [edit_image] call
    that ends normally, every part of the response that carries inline
    image data (not empty) is saved, in the order of the parts: the
    handler draws the name [generated-STAMP-SUFFIX.png] (in
    [generate_image]) or [edited-STAMP-SUFFIX.png] (in [edit_image]),
    where STAMP is the ISO time with every colon and dot replaced by a
    hyphen and SUFFIX is characters 2 to 7 of the base-36 rendering of a
    random number (at most six characters, exactly six when the
    rendering has at least eight); it writes the decoded bytes at that
    name inside the save directory, after making that directory; it
    records the path among the saved files the status text lists; and
    it makes the path the last image path, so that after the call the
    last image path is the path of the last image saved, which then
    holds its bytes.  Without inline image data the last image path
    stays as it was. *)
Theorem inline_image_is_saved request s w res s' w' :
  (generateImage request s w = (Ok res, s', w') ->
   exists client response acc (saved : list (string * (string * Blob))),
     genAI s = Some client /\
     generateContent (trace w) client (generateParams request) = Ok response /\
     map snd saved = imageBlobs (partsOf response) /\
     Forall (fun sv => drawn "generated" getImagesDirectory (fst sv)) saved /\
     trace w' =
       (rev (map writeOf saved) ++
        EvMkdir getImagesDirectory ::
        EvGenerateContent client (generateParams request) :: trace w)%list /\
     acc_savedFiles acc = map fst saved /\
     head (content res) =
       Some (TextContent
               (generateStatus (prompt (arguments request))
                  (JS.param_default "4:3" (aspectRatio (arguments request)))
                  (JS.param_default "1K" (imageSize (arguments request)))
                  acc)) /\
     lastImagePath s' =
       match last saved with
       | Some sv => Some (fst sv)
       | None => lastImagePath s
       end /\
     (forall sv, last saved = Some sv ->
        exists mtime,
          fs w' !! fst sv =
          Some (File (base64_decode (fst (snd sv))) mtime))) /\
  (editImage request s w = (Ok res, s', w') ->
   exists client params response acc (saved : list (string * (string * Blob))),
     genAI s = Some client /\
     generateContent (trace w) client params = Ok response /\
     map snd saved = imageBlobs (partsOf response) /\
     Forall (fun sv => drawn "edited" getImagesDirectory (fst sv)) saved /\
     trace w' =
       (rev (map writeOf saved) ++
        EvMkdir getImagesDirectory ::
        EvGenerateContent client params :: trace w)%list /\
     acc_savedFiles acc = map fst saved /\
     head (content res) =
       Some (TextContent
               (editStatus (imagePath (arguments request))
                  (prompt (arguments request))
                  (referenceImages (arguments request))
                  (JS.param_default "4:3" (aspectRatio (arguments request)))
                  (JS.param_default "1K" (imageSize (arguments request)))
                  acc)) /\
     lastImagePath s' =
       match last saved with
       | Some sv => Some (fst sv)
       | None => lastImagePath s
       end /\
     (forall sv, last saved = Some sv ->
        exists mtime,
          fs w' !! fst sv =
          Some (File (base64_decode (fst (snd sv))) mtime))).
Proof.
  split; intros Hrun.
  - destruct (generateImage_ok_configured _ _ _ _ _ _ Hrun)
      as [Hc [client Hclient]].
    rewrite (generateImage_run _ client) in Hrun by assumption.
    destruct (generateContent (trace w) client (generateParams request))
      as [response|error] eqn:Hanswer; [|discriminate Hrun].
    destruct (processResponse generatePart response s
                (called client (generateParams request) w))
      as [[[acc|error] s1] w1] eqn:Hproc; [|discriminate Hrun].
    injection Hrun as <- <- <-.
    apply (processed_saved "generated") in Hproc; [|apply generatePart_turn].
    destruct Hproc as (saved & Hblobs & Hnames & Htrace & Hfiles & _ & Hlast &
                       Hfile).
    exists client, response, acc, saved.
    repeat (split; [assumption || reflexivity|]). exact Hfile.
  - destruct (editImage_ok_configured _ _ _ _ _ _ Hrun)
      as (Hc & [client Hclient] & bytes & mtime & Hfile).
    rewrite (editImage_run _ client bytes mtime) in Hrun by assumption.
    cbv zeta in Hrun.
    destruct (generateContent (trace w) client
                (editParams request (sentImages request bytes w)))
      as [response|error] eqn:Hanswer; [|discriminate Hrun].
    destruct (processResponse editPart response s
                (called client
                   (editParams request (sentImages request bytes w)) w))
      as [[[acc|error] s1] w1] eqn:Hproc; [|discriminate Hrun].
    injection Hrun as <- <- <-.
    apply (processed_saved "edited") in Hproc; [|apply editPart_turn].
    destruct Hproc as (saved & Hblobs & Hnames & Htrace & Hfiles & _ & Hlast &
                       Hsaved).
    exists client, (editParams request (sentImages request bytes w)),
           response, acc, saved.
    repeat (split; [assumption || reflexivity|]). exact Hsaved.
Qed.

End Saving.

(** A response with two images and a text between them.  In
    [generate_image] two files are written under two drawn names, in
    the order of the parts, and the last image path is the second; in
    [edit_image] the same happens under the prefix [edited]. *)
Lemma inline_image_is_saved_witness :
  let P := DemoSeq.platform None ["0.4fzyo82mvyr"; "0.k3x9q1z7abc"]
             (Demo.answerWith [Demo.imagePart "aGVsbG8="; Demo.textPart "two";
                               Demo.imagePart "aGk="]) in
  let request := {| name := "generate_image"; arguments := Demo.args0 |} in
  let first :=
    "/work/generated_imgs/generated-2025-01-02T03-04-05-678Z-4fzyo8.png" in
  let second :=
    "/work/generated_imgs/generated-2025-01-02T03-04-05-678Z-k3x9q1.png" in
  let edit :=
    {| name := "edit_image";
       arguments :=
         {| apiKey := ""; prompt := "add a hat"; imagePath := "/work/in.png";
            referenceImages := None; aspectRatio := None;
            imageSize := None |} |} in
  let disk :=
    {| fs := {[ "/work/in.png" := File (list_byte_of_string "hello") 0 ]};
       trace := []; clock := 0; rng := 0 |} in
  let third :=
    "/work/generated_imgs/edited-2025-01-02T03-04-05-678Z-4fzyo8.png" in
  let fourth :=
    "/work/generated_imgs/edited-2025-01-02T03-04-05-678Z-k3x9q1.png" in
  (exists res s' w',
     generateImage request Demo.configured Demo.emptyWorld = (Ok res, s', w') /\
     Forall (drawn "generated" "/work/generated_imgs") [first; second] /\
     lastImagePath s' = Some second /\
     fs w' !! first = Some (File (list_byte_of_string "hello") 1) /\
     fs w' !! second = Some (File (list_byte_of_string "hi") 2) /\
     exists call,
       trace w' =
         [EvWriteFile second (list_byte_of_string "hi");
          EvWriteFile first (list_byte_of_string "hello");
          EvMkdir "/work/generated_imgs"; call]) /\
  (exists res s' w',
     editImage edit Demo.configured disk = (Ok res, s', w') /\
     Forall (drawn "edited" "/work/generated_imgs") [third; fourth] /\
     lastImagePath s' = Some fourth /\
     fs w' !! fourth = Some (File (list_byte_of_string "hi") 2) /\
     exists call,
       trace w' =
         [EvWriteFile fourth (list_byte_of_string "hi");
          EvWriteFile third (list_byte_of_string "hello");
          EvMkdir "/work/generated_imgs"; call]).
Proof.
  intros P request first second edit disk third fourth.
  split.
  - destruct (generateImage request Demo.configured Demo.emptyWorld)
      as [[[res|error] s'] w'] eqn:Hrun;
      [|vm_compute in Hrun; discriminate Hrun].
    exists res, s', w'. split; [reflexivity|].
    destruct (inline_image_is_saved request Demo.configured Demo.emptyWorld
                res s' w') as [Hgenerate _].
    destruct (Hgenerate Hrun)
      as (client & response & acc & saved & _ & Hanswer & Hblobs & Hnames &
          Htrace & _ & _ & Hlast & _).
    cbn in Hanswer. injection Hanswer as <-.
    vm_compute in Hrun. injection Hrun as _ <- <-.
    destruct saved as [|[p1 image1] [|[p2 image2] [|sv rest]]];
      try discriminate Hblobs.
    cbn in Hblobs. injection Hblobs as -> ->.
    cbn in Htrace. injection Htrace as <- <-.
    pose proof (Forall_inv Hnames) as Hfirst.
    pose proof (Forall_inv (Forall_inv_tail Hnames)) as Hsecond.
    split; [constructor; [exact Hfirst | constructor; [exact Hsecond | constructor]]|].
    split; [reflexivity|].
    split; [reflexivity|].
    split; [reflexivity|].
    eexists. reflexivity.
  - destruct (editImage edit Demo.configured disk)
      as [[[res|error] s'] w'] eqn:Hrun;
      [|vm_compute in Hrun; discriminate Hrun].
    exists res, s', w'. split; [reflexivity|].
    destruct (inline_image_is_saved edit Demo.configured disk res s' w')
      as [_ Hedit].
    destruct (Hedit Hrun)
      as (client & params & response & acc & saved & _ & Hanswer & Hblobs &
          Hnames & Htrace & _ & _ & Hlast & _).
    cbn in Hanswer. injection Hanswer as <-.
    vm_compute in Hrun. injection Hrun as _ <- <-.
    destruct saved as [|[p1 image1] [|[p2 image2] [|sv rest]]];
      try discriminate Hblobs.
    cbn in Hblobs. injection Hblobs as -> ->.
    cbn in Htrace. injection Htrace as <- <- _.
    pose proof (Forall_inv Hnames) as Hthird.
    pose proof (Forall_inv (Forall_inv_tail Hnames)) as Hfourth.
    split; [constructor; [exact Hthird | constructor; [exact Hfourth | constructor]]|].
    split; [reflexivity|].
    split; [reflexivity|].
    eexists. reflexivity.
Defined.

(** The names the code gives do not have the prefixes [generate-] and
    [edit-], and the random suffix can be shorter than six characters:
    with the random number 0.5, whose base-36 rendering is [0.i], the
    suffix is [i].  Nor is an image always saved: with a directory
    where the drawn name points, the write fails and the call ends with
    an error. *)
Lemma claimed_file_name_form_fails :
  let P := Demo.platform "0.i" (Demo.answerWith [Demo.imagePart "aGVsbG8="]) in
  let generated := "generated-2025-01-02T03-04-05-678Z-i.png" in
  let edited := "edited-2025-01-02T03-04-05-678Z-i.png" in
  let request := {| name := "generate_image"; arguments := Demo.args0 |} in
  lastImagePath
    (snd (fst (generateImage request Demo.configured Demo.emptyWorld))) =
    Some ("/work/generated_imgs/" +:+ generated) /\
  fileNameAt "edited" Demo.emptyWorld = edited /\
  ~ (exists stamp suffix,
       generated = "generate-" +:+ stamp +:+ "-" +:+ suffix +:+ ".png") /\
  ~ (exists stamp suffix,
       edited = "edit-" +:+ stamp +:+ "-" +:+ suffix +:+ ".png") /\
  JS.replace_colon_dot "2025-01-02T03:04:05.678Z" = "2025-01-02T03-04-05-678Z" /\
  (forall suffix,
     generated = "generated-" +:+ "2025-01-02T03-04-05-678Z" +:+ "-" +:+
                 suffix +:+ ".png" ->
     String.length suffix = 1) /\
  (let blocked :=
     {| fs := {[ "/work/generated_imgs/" +:+ generated := Dir ]};
        trace := []; clock := 0; rng := 0 |} in
   let out := generateImage request Demo.configured blocked in
   fst (fst out) =
     Throw (McpError InternalError
              ("Failed to generate image: EISDIR: illegal operation on a directory, open '/work/generated_imgs/" +:+
               generated +:+ "'")) /\
   lastImagePath (snd (fst out)) = None /\
   forall p bytes, ~ In (EvWriteFile p bytes) (trace (snd out))).
Proof.
  intros P generated edited request.
  split; [vm_compute; reflexivity|].
  split; [vm_compute; reflexivity|].
  split.
  { intros (stamp & suffix & Heq). unfold generated in Heq.
    vm_compute in Heq. discriminate Heq. }
  split.
  { intros (stamp & suffix & Heq). unfold edited in Heq.
    vm_compute in Heq. discriminate Heq. }
  split; [vm_compute; reflexivity|].
  split.
  { intros suffix Heq. unfold generated in Heq. vm_compute in Heq.
    destruct suffix as [|c [|c1 [|c2 [|c3 [|c4 [|c5 rest]]]]]];
      try reflexivity; vm_compute in Heq; discriminate Heq. }
  intros blocked out.
  split; [vm_compute; reflexivity|].
  split; [vm_compute; reflexivity|].
  intros p bytes Hin. vm_compute in Hin.
  destruct Hin as [Hin | [Hin | []]]; discriminate Hin.
Qed.

(** ** The last image path over a session *)

Section LastImage.

Context `{Plat : Platform}.

Lemma advances_refl s w : advances s w s w.
Proof. exists []. split; [reflexivity | left; reflexivity]. Qed.

Lemma advances_trans s w s1 w1 s2 w2 :
  advances s w s1 w1 -> advances s1 w1 s2 w2 -> advances s w s2 w2.
Proof.
  intros (ev1 & Ht1 & Hl1) (ev2 & Ht2 & Hl2).
  exists (ev2 ++ ev1)%list. split.
  - rewrite Ht2, Ht1, app_assoc. reflexivity.
  - destruct Hl2 as [Hsame2 | (p & bytes & Hp & Hin)].
    + rewrite Hsame2. destruct Hl1 as [Hsame1 | (p & bytes & Hp & Hin)].
      * left. exact Hsame1.
      * right. exists p, bytes. split; [exact Hp|].
        apply in_or_app. right. exact Hin.
    + right. exists p, bytes. split; [exact Hp|].
      apply in_or_app. left. exact Hin.
Qed.

(** A step that adds one event and leaves the session alone. *)
Lemma advances_event s w w' event :
  trace w' = event :: trace w -> advances s w s w'.
Proof.
  intros Ht. exists [event]. split; [exact Ht | left; reflexivity].
Qed.

Lemma advances_quiet s w w' : trace w' = trace w -> advances s w s w'.
Proof. intros Ht. exists []. split; [exact Ht | left; reflexivity]. Qed.

Lemma keeps_ret {A} (a : A) : keeps (ret a).
Proof. intros s w. apply advances_refl. Qed.

Lemma keeps_throw {A} error : keeps (@throw A error).
Proof. intros s w. apply advances_refl. Qed.

Lemma keeps_bind {A B} (c : M A) (k : A -> M B) :
  keeps c -> (forall a, keeps (k a)) -> keeps (bind c k).
Proof.
  intros Hc Hk s w. unfold bind. specialize (Hc s w).
  destruct (c s w) as [[[a|error] s1] w1]; cbn in *.
  - eapply advances_trans; [exact Hc | apply Hk].
  - exact Hc.
Qed.

Lemma keeps_try_catch {A} (c : M A) (h : Thrown -> M A) :
  keeps c -> (forall error, keeps (h error)) -> keeps (try_catch c h).
Proof.
  intros Hc Hh s w. unfold try_catch. specialize (Hc s w).
  destruct (c s w) as [[[a|error] s1] w1]; cbn in *.
  - exact Hc.
  - eapply advances_trans; [exact Hc | apply Hh].
Qed.

Lemma keeps_for_each {X Acc} (body : X -> Acc -> M Acc) xs :
  (forall x acc, keeps (body x acc)) -> forall acc, keeps (for_each body xs acc).
Proof.
  intros Hbody. induction xs as [|x rest IH]; intros acc; cbn [for_each].
  - apply keeps_ret.
  - apply keeps_bind; [apply Hbody | exact IH].
Qed.

Lemma keeps_getSession : keeps getSession.
Proof. intros s w. apply advances_refl. Qed.

Lemma keeps_getWorld : keeps getWorld.
Proof. intros s w. apply advances_refl. Qed.

Lemma keeps_setSession f :
  (forall s, lastImagePath (f s) = lastImagePath s) -> keeps (setSession f).
Proof.
  intros Hf s w. exists []. split; [reflexivity | left; apply Hf].
Qed.

Lemma keeps_access p : keeps (FS.access p).
Proof.
  intros s w. unfold FS.access. run_monad.
  destruct (fs w !! p); apply advances_refl.
Qed.

Lemma keeps_readFile p : keeps (FS.readFile p).
Proof.
  intros s w. rewrite readFile_run.
  destruct (fs w !! p) as [[bytes mtime|]|]; apply advances_refl.
Qed.

Lemma keeps_stat p : keeps (FS.stat p).
Proof.
  intros s w. unfold FS.stat. run_monad.
  destruct (fs w !! p) as [[bytes mtime|]|]; apply advances_refl.
Qed.

Lemma keeps_mkdir p : keeps (FS.mkdir p).
Proof.
  intros s w. rewrite mkdir_run.
  destruct (fs w !! p) as [[bytes mtime|]|];
    first [apply advances_refl | eapply advances_event; reflexivity].
Qed.

Lemma keeps_writeFile p bytes : keeps (FS.writeFile p bytes).
Proof.
  intros s w. rewrite writeFile_run.
  destruct (fs w !! p) as [[bytes' mtime|]|];
    first [apply advances_refl | eapply advances_event; reflexivity].
Qed.

Lemma keeps_synthFileName pre : keeps (synthFileName pre).
Proof. intros s w. rewrite synthFileName_run. apply advances_quiet. reflexivity. Qed.

Lemma keeps_callGenerateContent client params :
  keeps (callGenerateContent client params).
Proof. intros s w. eapply advances_event. reflexivity. Qed.

(** Writing a file and then pointing the session at it. *)
Lemma keeps_save {A} p bytes (k : M A) :
  keeps k ->
  keeps (FS.writeFile p bytes ;;; setSession (set_lastImagePath p) ;;; k).
Proof.
  intros Hk s w.
  assert (Hrun :
            (FS.writeFile p bytes ;;; setSession (set_lastImagePath p) ;;; k)
              s w =
            match fs w !! p with
            | Some Dir => (Throw (writeError p), s, w)
            | _ => (setSession (set_lastImagePath p) ;;; k)
                     s (wrote p bytes w)
            end).
  { unfold bind at 1. rewrite writeFile_run.
    destruct (fs w !! p) as [[bytes' mtime|]|]; reflexivity. }
  rewrite Hrun. clear Hrun.
  assert (Hsaved : advances s w
                     (snd (fst ((setSession (set_lastImagePath p) ;;; k)
                                  s (wrote p bytes w))))
                     (snd ((setSession (set_lastImagePath p) ;;; k)
                             s (wrote p bytes w)))).
  { unfold bind, setSession.
    eapply advances_trans; [|apply Hk].
    exists [EvWriteFile p bytes]. split; [reflexivity|].
    right. exists p, bytes. split; [reflexivity | left; reflexivity]. }
  destruct (fs w !! p) as [[bytes' mtime|]|];
    [exact Hsaved | apply advances_refl | exact Hsaved].
Qed.

End LastImage.

Ltac keeps_step :=
  first
    [ apply keeps_ret
    | apply keeps_throw
    | apply keeps_getSession
    | apply keeps_getWorld
    | apply keeps_access
    | apply keeps_readFile
    | apply keeps_stat
    | apply keeps_mkdir
    | apply keeps_writeFile
    | apply keeps_synthFileName
    | apply keeps_callGenerateContent
    | apply keeps_setSession; intros ?; reflexivity
    | apply keeps_save
    | apply keeps_bind; [|intros ?]
    | apply keeps_try_catch; [|intros ?]
    | apply keeps_for_each; intros ? ?
    | match goal with
      | |- keeps (if ?b then _ else _) => destruct b
      | |- keeps (match ?x with _ => _ end) => destruct x
      end ].

Section LastImageHandlers.

Context `{Plat : Platform}.

Lemma keeps_remoteGenerate params : keeps (remoteGenerate params).
Proof. unfold remoteGenerate. repeat keeps_step. Qed.

Lemma keeps_generatePart dir part acc : keeps (generatePart dir part acc).
Proof. unfold generatePart. repeat keeps_step. Qed.

Lemma keeps_editPart dir part acc : keeps (editPart dir part acc).
Proof. unfold editPart. repeat keeps_step. Qed.

Lemma keeps_processResponse body response :
  (forall dir part acc, keeps (body dir part acc)) ->
  keeps (processResponse body response).
Proof.
  intros Hbody. unfold processResponse. repeat keeps_step; apply Hbody.
Qed.

Lemma keeps_ConfigSchema_parse key : keeps (ConfigSchema_parse key).
Proof. unfold ConfigSchema_parse. repeat keeps_step. Qed.

Lemma keeps_saveConfig : keeps saveConfig.
Proof. unfold saveConfig. repeat keeps_step. Qed.

Lemma keeps_ensureConfigured : keeps ensureConfigured.
Proof. unfold ensureConfigured. repeat keeps_step. Qed.

Lemma keeps_configureGeminiToken request :
  keeps (configureGeminiToken request).
Proof.
  unfold configureGeminiToken.
  repeat first [apply keeps_ConfigSchema_parse | apply keeps_saveConfig
               | keeps_step].
Qed.

Lemma keeps_generateImage request : keeps (generateImage request).
Proof.
  unfold generateImage, notConfigured.
  repeat first [apply keeps_ensureConfigured | apply keeps_remoteGenerate
               | apply keeps_processResponse; intros; apply keeps_generatePart
               | keeps_step].
Qed.

Lemma keeps_addReference refPath imageParts :
  keeps (addReference refPath imageParts).
Proof. unfold addReference. repeat keeps_step. Qed.

Lemma keeps_editImage request : keeps (editImage request).
Proof.
  unfold editImage, notConfigured.
  repeat first [apply keeps_ensureConfigured | apply keeps_remoteGenerate
               | apply keeps_processResponse; intros; apply keeps_editPart
               | apply keeps_addReference
               | keeps_step].
Qed.

Lemma keeps_continueEditing request : keeps (continueEditing request).
Proof.
  unfold continueEditing, notConfigured.
  repeat first [apply keeps_ensureConfigured | apply keeps_editImage
               | keeps_step].
Qed.

Lemma keeps_getConfigurationStatus : keeps getConfigurationStatus.
Proof. unfold getConfigurationStatus. repeat keeps_step. Qed.

Lemma keeps_getLastImageInfo : keeps getLastImageInfo.
Proof. unfold getLastImageInfo. repeat keeps_step. Qed.

Lemma keeps_callTool request : keeps (callTool request).
Proof.
  unfold callTool. apply keeps_try_catch.
  - destruct (handlerOf (name request)) as [handler|] eqn:Hh;
      [|apply keeps_throw].
    unfold handlerOf in Hh.
    repeat match type of Hh with
    | (if ?b then _ else _) = _ => destruct b
    end;
    try discriminate Hh; injection Hh as <-;
    auto using keeps_configureGeminiToken, keeps_generateImage,
      keeps_editImage, keeps_getConfigurationStatus, keeps_continueEditing,
      keeps_getLastImageInfo.
  - intros error. destruct error; apply keeps_throw.
Qed.

Lemma keeps_loadConfig : keeps loadConfig.
Proof.
  unfold loadConfig.
  repeat first [apply keeps_ConfigSchema_parse | keeps_step].
Qed.

(** Nothing ever clears the last image path. *)
Lemma advances_is_Some s w s' w' :
  advances s w s' w' ->
  is_Some (lastImagePath s) -> is_Some (lastImagePath s').
Proof.
  intros (events & _ & [Hsame | (p & bytes & Hp & _)]) Hsome.
  - rewrite Hsame. exact Hsome.
  - rewrite Hp. eauto.
Qed.

Lemma step_is_Some st sw :
  is_Some (lastImagePath (fst sw)) ->
  is_Some (lastImagePath (fst (step st sw))).
Proof.
  destruct st as [request|change]; cbn [step fst]; [|auto].
  apply advances_is_Some with (w := snd sw)
                              (w' := snd (callTool request (fst sw) (snd sw))).
  apply keeps_callTool.
Qed.

Lemma steps_is_Some steps : forall sw,
  is_Some (lastImagePath (fst sw)) ->
  is_Some (lastImagePath
             (fst (fold_left (fun sw st => step st sw) steps sw))).
Proof.
  induction steps as [|st rest IH]; intros sw Hsome; cbn [fold_left].
  - exact Hsome.
  - apply IH, step_is_Some, Hsome.
Qed.

End LastImageHandlers.

Section LastImageTheorem.

Context `{Plat : Platform}.

(** C10. The last image path is monotone over a session.  It starts
    absent and loading the configuration does not touch it.  A tool
    call only extends the trace, and it either leaves the path as it
    was or sets it to the path of a file written during that very call;
    so a path that is present stays present, through any sequence of
    calls and of outside changes to the file system.  In particular a
    change made by somebody else (such as deleting the file) does not
    alter it, and neither do [get_last_image_info] or a
    [continue_editing] that finds the file gone. *)
Theorem last_image_path_is_monotone :
  lastImagePath initialSession = None /\
  (forall s w, lastImagePath (snd (fst (loadConfig s w))) = lastImagePath s) /\
  (forall request s w,
     exists events,
       trace (snd (callTool request s w)) = (events ++ trace w)%list /\
       (lastImagePath (snd (fst (callTool request s w))) = lastImagePath s \/
        exists p bytes,
          lastImagePath (snd (fst (callTool request s w))) = Some p /\
          In (EvWriteFile p bytes) events)) /\
  (forall request s w,
     is_Some (lastImagePath s) ->
     is_Some (lastImagePath (snd (fst (callTool request s w))))) /\
  (forall steps sw,
     is_Some (lastImagePath (fst sw)) ->
     is_Some (lastImagePath
                (fst (fold_left (fun sw st => step st sw) steps sw)))) /\
  (forall before after w,
     is_Some (lastImagePath (fst (serve before w))) ->
     is_Some (lastImagePath (fst (serve (before ++ after) w)))) /\
  (forall change sw, fst (step (Outside change) sw) = fst sw) /\
  (forall request s w,
     fs w !! JS.or_else (lastImagePath s) "" = None ->
     snd (fst (getLastImageInfo s w)) = s /\
     snd (fst (continueEditing request s w)) = s).
Proof.
  split; [reflexivity|].
  split.
  { intros s w.
    assert (Hfields : forall c s0, lastImagePath (set_config c s0) = lastImagePath s0)
      by reflexivity.
    unfold loadConfig, bind, try_catch, ConfigSchema_parse, setSession, ret,
      throw.
    destruct (JS.truthy env_GEMINI_API_KEY);
      [destruct (String.length (JS.or_else env_GEMINI_API_KEY "") <? 1)%nat;
       [|reflexivity]|];
      rewrite readFile_run;
      destruct (fs w !! configPath) as [[bytes mtime|]|]; try reflexivity;
      destruct (json_parse_geminiApiKey bytes) as [key|]; try reflexivity;
      destruct (String.length key <? 1)%nat; reflexivity. }
  split; [intros request s w; apply keeps_callTool|].
  split.
  { intros request s w. apply advances_is_Some with (w := w)
                               (w' := snd (callTool request s w)).
    apply keeps_callTool. }
  split; [apply steps_is_Some|].
  split.
  { intros before after w. unfold serve. rewrite fold_left_app.
    apply steps_is_Some. }
  split; [reflexivity|].
  intros request s w Hgone. split.
  - unfold getLastImageInfo. run_monad.
    destruct (JS.truthy (lastImagePath s)); [|reflexivity].
    cbn [negb]. unfold FS.access. run_monad. rewrite Hgone. reflexivity.
  - unfold continueEditing, bind at 1. rewrite ensureConfigured_run.
    destruct (isConfigured s); [|reflexivity].
    cbn [negb]. run_monad.
    destruct (JS.truthy (lastImagePath s)); [|reflexivity].
    cbn [negb]. unfold FS.access. run_monad. rewrite Hgone. reflexivity.
Qed.

End LastImageTheorem.

Lemma last_image_path_witness :
  let P := Demo.platform "0.4fzyo82mvyr"
             (Demo.answerWith [Demo.imagePart "aGVsbG8="]) in
  let configure :=
    Call {| name := "configure_gemini_token";
            arguments :=
              {| apiKey := "k"; prompt := ""; imagePath := "";
                 referenceImages := None; aspectRatio := None;
                 imageSize := None |} |} in
  let generate := Call {| name := "generate_image"; arguments := Demo.args0 |} in
  let info := Call {| name := "get_last_image_info"; arguments := Demo.args0 |} in
  let continue := Call {| name := "continue_editing"; arguments := Demo.args0 |} in
  let wipe := Outside (fun _ => ∅) in
  lastImagePath (fst (serve [configure; generate] Demo.emptyWorld)) =
    Some "/work/generated_imgs/generated-2025-01-02T03-04-05-678Z-4fzyo8.png" /\
  is_Some (lastImagePath
             (fst (serve ([configure; generate] ++ [wipe; info; continue])
                         Demo.emptyWorld))).
Proof.
  intros P configure generate info continue wipe.
  split; [vm_compute; reflexivity|].
  destruct last_image_path_is_monotone as (_ & _ & _ & _ & _ & Hserve & _).
  apply Hserve. eexists. vm_compute. reflexivity.
Defined.

(** ** The report on the last image *)

Section LastImageInfo.

Context `{Plat : Platform}.

(** The text [get_last_image_info] returns for a file that exists. *)
Lemma getLastImageInfo_found s w p bytes mtime :
  lastImagePath s = Some p -> p <> "" ->
  fs w !! p = Some (File bytes mtime) ->
  getLastImageInfo s w =
  (Ok {| content :=
           [TextContent
              ("📷 Last Image Information:" +:+ JS.nl +:+ JS.nl +:+
               "Path: " +:+ p +:+ JS.nl +:+
               "File Size: " +:+
               JS.of_nat (JS.round_div_1024 (List.length bytes)) +:+ " KB" +:+
               JS.nl +:+
               "Last Modified: " +:+ date_toLocaleString mtime +:+
               JS.nl +:+ JS.nl +:+
               "💡 Use continue_editing to make further changes to this image.")] |},
   s, w).
Proof.
  intros Hlast Hne Hfile. unfold getLastImageInfo. run_monad.
  rewrite Hlast, (truthy_Some _ Hne), (or_else_Some _ _ Hne). cbn [negb].
  unfold FS.access, FS.stat. run_monad. rewrite Hfile. cbn beta iota.
  rewrite Hfile. reflexivity.
Qed.

Lemma synthesized_nonempty pre dir p : synthesized pre dir p -> p <> "".
Proof. intros (iso & rnd & ->). apply path_join_nonempty. Qed.

(** The most recent event of a call that ended normally and wrote a file
    is the write of the file the session points at afterwards. *)
Lemma succeeded_last_write pre client params statusOf res s w s' w' :
  succeeded pre client params statusOf res s w s' w' ->
  (exists events p bytes,
     trace w' = (events ++ trace w)%list /\ In (EvWriteFile p bytes) events) ->
  exists p bytes mtime earlier,
    p <> "" /\
    lastImagePath s' = Some p /\
    trace w' = (EvWriteFile p bytes :: earlier ++ trace w)%list /\
    fs w' !! p = Some (File bytes mtime).
Proof.
  intros (response & acc & saved & _ & _ & _ & Hnames & _ & Htrace & Hlast)
         (events & q & qbytes & Hevents & Hin).
  assert (Heq : events =
                (rev (map writeOf saved) ++
                 [EvMkdir getImagesDirectory; EvGenerateContent client params])%list).
  { apply (app_inv_tail (trace w)). rewrite <- Hevents, Htrace, <- app_assoc.
    reflexivity. }
  destruct (last saved) as [sv|] eqn:Hsv.
  - destruct Hlast as [-> [mtime Hfile]].
    apply last_Some in Hsv as [front ->].
    exists (fst sv), (base64_decode (fst (snd sv))), mtime,
           (rev (map writeOf front) ++
            [EvMkdir getImagesDirectory; EvGenerateContent client params])%list.
    split.
    { apply Forall_app in Hnames as [_ Hsv].
      apply Forall_inv in Hsv. eapply synthesized_nonempty, Hsv. }
    split; [reflexivity|]. split; [|exact Hfile].
    rewrite Htrace, map_app, rev_app_distr, <- !app_assoc. reflexivity.
  - apply last_None in Hsv. subst saved. cbn in Heq. subst events.
    destruct Hin as [Hin | [Hin | []]]; discriminate Hin.
Qed.

(** C9, as the code has it.  After a [generate_image] or [edit_image]
    call that ended normally and wrote at least one file, and with
    nothing else touching the file system, [get_last_image_info]
    reports the path of the last file written in that call (the write
    is the most recent event of the trace, whatever the call did
    earlier), which is on disk, and the size of that file in kilobytes:
    the number of bytes written, divided by 1024 and rounded to the
    nearest integer. *)
Theorem last_image_info_after_save request s w res s' w' :
  generateImage request s w = (Ok res, s', w') \/
  editImage request s w = (Ok res, s', w') ->
  (exists events p bytes,
     trace w' = (events ++ trace w)%list /\ In (EvWriteFile p bytes) events) ->
  exists p bytes mtime earlier,
    lastImagePath s' = Some p /\
    trace w' = (EvWriteFile p bytes :: earlier ++ trace w)%list /\
    fs w' !! p = Some (File bytes mtime) /\
    getLastImageInfo s' w' =
    (Ok {| content :=
             [TextContent
                ("📷 Last Image Information:" +:+ JS.nl +:+ JS.nl +:+
                 "Path: " +:+ p +:+ JS.nl +:+
                 "File Size: " +:+
                 JS.of_nat (JS.round_div_1024 (List.length bytes)) +:+
                 " KB" +:+ JS.nl +:+
                 "Last Modified: " +:+ date_toLocaleString mtime +:+
                 JS.nl +:+ JS.nl +:+
                 "💡 Use continue_editing to make further changes to this image.")] |},
     s', w').
Proof.
  intros Hrun Hwrote.
  assert (Hlast : exists p bytes mtime earlier,
             p <> "" /\ lastImagePath s' = Some p /\
             trace w' = (EvWriteFile p bytes :: earlier ++ trace w)%list /\
             fs w' !! p = Some (File bytes mtime)).
  { destruct Hrun as [Hrun | Hrun].
    - apply generateImage_succeeded in Hrun as (client & _ & Hdone).
      eapply succeeded_last_write; eassumption.
    - apply editImage_succeeded in Hrun
        as (client & bytes & mtime & _ & _ & Hdone).
      eapply succeeded_last_write; eassumption. }
  destruct Hlast as (p & bytes & mtime & earlier & Hne & Hp & Htrace & Hfile).
  exists p, bytes, mtime, earlier.
  repeat (split; [assumption|]).
  apply getLastImageInfo_found; assumption.
Qed.

End LastImageInfo.

(** A call that saves two images, of five and of two bytes: the report
    is about the second. *)
Lemma last_image_info_after_save_witness :
  let P := DemoSeq.platform None ["0.4fzyo82mvyr"; "0.k3x9q1z7abc"]
             (Demo.answerWith [Demo.imagePart "aGVsbG8=";
                               Demo.imagePart "aGk="]) in
  let request := {| name := "generate_image"; arguments := Demo.args0 |} in
  let first :=
    "/work/generated_imgs/generated-2025-01-02T03-04-05-678Z-4fzyo8.png" in
  let second :=
    "/work/generated_imgs/generated-2025-01-02T03-04-05-678Z-k3x9q1.png" in
  let out := generateImage request Demo.configured Demo.emptyWorld in
  (exists call,
     trace (snd out) =
       [EvWriteFile second (list_byte_of_string "hi");
        EvWriteFile first (list_byte_of_string "hello");
        EvMkdir "/work/generated_imgs"; call]) /\
  lastImagePath (snd (fst out)) = Some second /\
  fs (snd out) !! second = Some (File (list_byte_of_string "hi") 2) /\
  fst (fst (getLastImageInfo (snd (fst out)) (snd out))) =
    Ok {| content :=
            [TextContent
               ("📷 Last Image Information:" +:+ JS.nl +:+ JS.nl +:+
                "Path: " +:+ second +:+ JS.nl +:+
                "File Size: 0 KB" +:+ JS.nl +:+
                "Last Modified: 1/2/2025, 3:04:05 AM" +:+ JS.nl +:+ JS.nl +:+
                "💡 Use continue_editing to make further changes to this image.")] |}.
Proof.
  intros P request first second out. subst out.
  destruct (generateImage request Demo.configured Demo.emptyWorld)
    as [[[res|error] s'] w'] eqn:Hrun;
    [|vm_compute in Hrun; discriminate Hrun].
  assert (Hwrote : exists events p bytes,
             trace w' = (events ++ trace Demo.emptyWorld)%list /\
             In (EvWriteFile p bytes) events).
  { exists (trace w'). vm_compute in Hrun. injection Hrun as _ _ <-.
    eexists _, _. split; [reflexivity|]. left. reflexivity. }
  destruct (last_image_info_after_save request Demo.configured Demo.emptyWorld
              res s' w' (or_introl Hrun) Hwrote)
    as (p & bytes & mtime & earlier & Hp & Htrace & Hfile & Hreport).
  cbn [fst snd]. rewrite Hreport. cbn [fst].
  vm_compute in Hrun. injection Hrun as _ <- <-.
  cbn in Htrace. injection Htrace as <- <- _.
  vm_compute in Hfile. injection Hfile as <-.
  split; [eexists; reflexivity|].
  split; [reflexivity|].
  split; [reflexivity|].
  reflexivity.
Defined.

(** Five bytes are written and the report says [0 KB]: the size reported
    is not the number of bytes written. *)
Lemma reported_size_is_not_the_byte_count :
  let P := Demo.platform "0.4fzyo82mvyr"
             (Demo.answerWith [Demo.imagePart "aGVsbG8="]) in
  let request := {| name := "generate_image"; arguments := Demo.args0 |} in
  let saved := "/work/generated_imgs/generated-2025-01-02T03-04-05-678Z-4fzyo8.png" in
  let out := generateImage request Demo.configured Demo.emptyWorld in
  In (EvWriteFile saved (list_byte_of_string "hello")) (trace (snd out)) /\
  fs (snd out) !! saved = Some (File (list_byte_of_string "hello") 1) /\
  List.length (list_byte_of_string "hello") = 5 /\
  fst (fst (getLastImageInfo (snd (fst out)) (snd out))) =
    Ok {| content :=
            [TextContent
               ("📷 Last Image Information:" +:+ JS.nl +:+ JS.nl +:+
                "Path: " +:+ saved +:+ JS.nl +:+
                "File Size: 0 KB" +:+ JS.nl +:+
                "Last Modified: 1/2/2025, 3:04:05 AM" +:+ JS.nl +:+ JS.nl +:+
                "💡 Use continue_editing to make further changes to this image.")] |} /\
  JS.of_nat (JS.round_div_1024 5) = "0" /\
  JS.of_nat (JS.round_div_1024 5) <> JS.of_nat 5.
Proof.
  intros P request saved out.
  split; [vm_compute; left; reflexivity|].
  split; [vm_compute; reflexivity|].
  split; [reflexivity|].
  split; [vm_compute; reflexivity|].
  split; [reflexivity | vm_compute; discriminate].
Qed.

(** ** Reference images *)

Section References.

Context `{Plat : Platform}.

Lemma refPart_unreadable files refPath :
  (forall bytes mtime, files !! refPath <> Some (File bytes mtime)) ->
  refPart files refPath = None.
Proof.
  intros Hno. unfold refPart.
  destruct (files !! refPath) as [[bytes mtime|]|];
    [exfalso; eapply Hno; reflexivity | reflexivity | reflexivity].
Qed.

(** C6.  In [edit_image] every reference image is read on its own and
    the loop over them cannot fail.  With a readable primary image, the
    request sent to the model carries the primary image, then one part
    for each listed reference that is a readable file (its bytes in
    base64 and the mime type of its path), in the order of the list,
    then the prompt; a listed reference that cannot be read is left out.
    The call goes on exactly as if the unreadable reference had not been
    listed (only the status text, which echoes the list, differs).  If
    the primary image cannot be read, the whole call fails with an error
    and nothing is sent. *)
Theorem reference_images_are_optional request s w :
  (isConfigured s = true ->
   (forall bytes mtime,
      fs w !! imagePath (arguments request) <> Some (File bytes mtime)) ->
   editImage request s w =
   (Throw (McpError InternalError
             ("Failed to edit image: " +:+
              readError w (imagePath (arguments request)))),
    s, w)) /\
  (forall refs imageParts,
     for_each addReference refs imageParts s w =
     (Ok (imageParts ++ omap (refPart (fs w)) refs)%list, s, w)) /\
  (forall client bytes mtime refs,
     isConfigured s = true -> genAI s = Some client ->
     fs w !! imagePath (arguments request) = Some (File bytes mtime) ->
     referenceImages (arguments request) = Some refs \/
     (referenceImages (arguments request) = None /\ refs = []) ->
     exists events params sent,
       trace (snd (editImage request s w)) =
         (events ++ EvGenerateContent client params :: trace w)%list /\
       gc_contents params =
         PartList
           (InlinePart (base64_encode bytes)
                       (getMimeType (imagePath (arguments request)))
            :: sent ++ [PromptPart (prompt (arguments request))]) /\
       sent =
         omap (fun refPath =>
                 match fs w !! refPath with
                 | Some (File refBytes _) =>
                     Some (InlinePart (base64_encode refBytes)
                                      (getMimeType refPath))
                 | _ => None
                 end) refs /\
       (forall refPath refBytes refTime,
          In refPath refs ->
          fs w !! refPath = Some (File refBytes refTime) ->
          In (InlinePart (base64_encode refBytes) (getMimeType refPath)) sent) /\
       List.length sent <= List.length refs) /\
  (forall before bad after,
     referenceImages (arguments request) = Some (before ++ bad :: after)%list ->
     (forall bytes mtime, fs w !! bad <> Some (File bytes mtime)) ->
     sameUpToStatus
       (editImage request s w)
       (editImage (withReferences request (Some (before ++ after)%list)) s w)).
Proof.
  split; [apply editImage_unreadable|].
  split; [intros refs imageParts; apply references_run|].
  split.
  - intros client bytes mtime refs Hc Hclient Hfile Hrefs.
    assert (Hlisted : nonEmptyRefs (referenceImages (arguments request)) = refs).
    { destruct Hrefs as [-> | [-> ->]]; reflexivity. }
    rewrite (editImage_run _ client bytes mtime) by assumption.
    cbv zeta. unfold sentImages. rewrite Hlisted.
    set (sent := omap (refPart (fs w)) refs).
    set (params := editParams request _).
    assert (Hsent : forall refPath refBytes refTime,
               In refPath refs ->
               fs w !! refPath = Some (File refBytes refTime) ->
               In (InlinePart (base64_encode refBytes) (getMimeType refPath)) sent).
    { intros refPath refBytes refTime Hin Href.
      apply list_elem_of_In, list_elem_of_omap. exists refPath.
      split; [apply list_elem_of_In, Hin|].
      unfold refPart. rewrite Href. reflexivity. }
    assert (Hlen : List.length sent <= List.length refs).
    { unfold sent. clear. induction refs as [|r rest IH]; cbn; [lia|].
      destruct (refPart (fs w) r); cbn; lia. }
    destruct (generateContent (trace w) client params) as [response|error].
    + pose proof (keeps_processResponse editPart response keeps_editPart
                    s (called client params w)) as (events & Htrace & _).
      destruct (processResponse editPart response s (called client params w))
        as [[[acc|error] s'] w']; exists events, params, sent;
        (split; [exact Htrace|]); (split; [reflexivity|]);
        (split; [reflexivity|]); split; assumption.
    + exists [], params, sent.
      split; [reflexivity|]. split; [reflexivity|].
      split; [reflexivity|]. split; assumption.
  - intros before bad after Hrefs Hbad.
    set (other := withReferences request (Some (before ++ after)%list)).
    destruct (isConfigured s) eqn:Hc.
    2:{ rewrite !editImage_unconfigured by assumption.
        repeat split; reflexivity. }
    destruct (fs w !! imagePath (arguments request))
      as [[bytes mtime|]|] eqn:Hfile.
    2,3: rewrite !editImage_unreadable
           by (assumption || (cbn; intros; congruence));
         repeat split; reflexivity.
    destruct (isConfigured_true _ Hc) as [_ [client Hclient]].
    rewrite (editImage_run request client bytes mtime) by assumption.
    rewrite (editImage_run other client bytes mtime) by assumption.
    cbv zeta.
    assert (Hsent : sentImages other bytes w = sentImages request bytes w).
    { unfold sentImages, other. cbn. rewrite Hrefs. cbn.
      rewrite !omap_app. cbn. rewrite (refPart_unreadable _ _ Hbad).
      reflexivity. }
    rewrite Hsent.
    change (editParams other (sentImages request bytes w))
      with (editParams request (sentImages request bytes w)).
    destruct (generateContent (trace w) client
                (editParams request (sentImages request bytes w)))
      as [response|error]; [|repeat split; reflexivity].
    destruct (processResponse editPart response s
                (called client
                   (editParams request (sentImages request bytes w)) w))
      as [[[acc|error] s'] w']; repeat split; reflexivity.
Qed.

End References.

(** An edit with two references, the first of which does not exist:
    the request carries the primary image, the second reference and the
    prompt, and the call succeeds.  An edit whose primary image does not
    exist fails. *)
Lemma reference_images_witness :
  let P := Demo.platform "0.4fzyo82mvyr"
             (Demo.answerWith [Demo.imagePart "aGVsbG8="]) in
  let request :=
    {| name := "edit_image";
       arguments :=
         {| apiKey := ""; prompt := "add a hat"; imagePath := "/work/in.png";
            referenceImages := Some ["/work/missing.jpg"; "/work/style.JPG"];
            aspectRatio := None; imageSize := None |} |} in
  let disk :=
    {| fs := {[ "/work/in.png" := File (list_byte_of_string "hello") 0;
                "/work/style.JPG" := File (list_byte_of_string "hi") 0 ]};
       trace := []; clock := 0; rng := 0 |} in
  (exists status,
     fst (fst (editImage request Demo.configured disk)) =
     Ok {| content := [TextContent status; ImageContent "aGVsbG8=" "image/png"] |}) /\
  (exists events params,
     trace (snd (editImage request Demo.configured disk)) =
       (events ++ EvGenerateContent {| client_apiKey := "k" |} params :: [])%list /\
     gc_contents params =
       PartList [InlinePart "aGVsbG8=" "image/png";
                 InlinePart "aGk=" "image/jpeg";
                 PromptPart "add a hat"]) /\
  sameUpToStatus
    (editImage request Demo.configured disk)
    (editImage (withReferences request (Some ["/work/style.JPG"]))
               Demo.configured disk) /\
  editImage request Demo.configured Demo.emptyWorld =
    (Throw (McpError InternalError
              "Failed to edit image: ENOENT: no such file or directory, open '/work/in.png'"),
     Demo.configured, Demo.emptyWorld).
Proof.
  intros P request disk.
  split; [eexists; vm_compute; reflexivity|].
  split; [|split].
  - destruct (reference_images_are_optional request Demo.configured disk)
      as (_ & _ & Hsent & _).
    destruct (Hsent {| client_apiKey := "k" |} (list_byte_of_string "hello") 0
                    ["/work/missing.jpg"; "/work/style.JPG"]
                    eq_refl eq_refl)
      as (events & params & sent & Htrace & Hcontents & Hsentparts & _).
    + vm_compute. reflexivity.
    + left. reflexivity.
    + exists events, params. split; [exact Htrace|].
      rewrite Hcontents, Hsentparts. vm_compute. reflexivity.
  - destruct (reference_images_are_optional request Demo.configured disk)
      as (_ & _ & _ & Hskip).
    apply (Hskip [] "/work/missing.jpg" ["/work/style.JPG"]); [reflexivity|].
    intros bytes mtime. vm_compute. discriminate.
  - destruct (reference_images_are_optional request Demo.configured
                Demo.emptyWorld) as (Hprimary & _).
    rewrite Hprimary; [reflexivity | reflexivity |].
    intros bytes mtime. vm_compute. discriminate.
Defined.

(** * Further properties *)

(** ** Configuring, then asking for the status *)

Section ConfigureAndStatus.

Context `{Plat : Platform}.

Lemma callTool_known request handler s w :
  handlerOf (name request) = Some handler ->
  callTool request s w =
  match handler request s w with
  | (Ok value, s', w') => (Ok value, s', w')
  | (Throw (McpError code message), s', w') =>
      (Throw (McpError code message), s', w')
  | (Throw error, s', w') =>
      (Throw (McpError InternalError
                ("Tool execution failed: " +:+ errorMessage error)), s', w')
  end.
Proof.
  intros Hh. unfold callTool, try_catch. rewrite Hh.
  destruct (handler request s w) as [[[value|[code message|issues|message]] s'] w'];
    reflexivity.
Qed.

Lemma configureGeminiToken_run key request s w :
  apiKey (arguments request) = key -> key <> "" ->
  configureGeminiToken request s w =
  match fs w !! configPath with
  | Some Dir => (Throw (writeError configPath), configuredWith key s, w)
  | _ =>
      (Ok {| content :=
               [TextContent "✅ Gemini API token configured successfully! You can now use nano-banana image generation features."] |},
       configuredWith key s,
       wrote configPath (json_stringify_config {| geminiApiKey := key |}) w)
  end.
Proof.
  intros <- Hne. unfold configureGeminiToken, try_catch.
  unfold bind at 1. rewrite (ConfigSchema_parse_nonempty _ _ _ Hne).
  unfold saveConfig, setSession, getSession, ret. unfold bind.
  cbn beta iota delta [config set_configSource set_genAI set_config].
  rewrite writeFile_run.
  destruct (fs w !! configPath) as [[bytes mtime|]|]; reflexivity.
Qed.

Lemma getConfigurationStatus_run s w :
  exists text,
    getConfigurationStatus s w = (Ok {| content := [TextContent text] |}, s, w).
Proof.
  unfold getConfigurationStatus. run_monad.
  destruct (isConfigured s); [destruct (configSource s)|]; eexists; reflexivity.
Qed.

Lemma getLastImageInfo_run s w :
  exists text,
    getLastImageInfo s w = (Ok {| content := [TextContent text] |}, s, w).
Proof.
  unfold getLastImageInfo. run_monad.
  destruct (JS.truthy (lastImagePath s)); cbn [negb]; [|eexists; reflexivity].
  unfold FS.access, FS.stat. run_monad.
  destruct (fs w !! JS.or_else (lastImagePath s) "") as [[bytes mtime|]|] eqn:Hfile;
    cbn beta iota; rewrite ?Hfile; eexists; reflexivity.
Qed.

(** X1. Whenever a [configure_gemini_token] call ends normally, the key
    was not empty, the session holds the key, a client made from it and
    the provenance tag of the local file, and the one thing the call
    did outside the session was to write the key to the configuration
    file, which holds it afterwards.  A status request right after it
    answers "configured", with the local file as the source. *)
Theorem configure_then_status key arguments' s w res s' w' :
  callTool (configureRequest key) s w = (Ok res, s', w') ->
  key <> "" /\
  res =
    {| content :=
         [TextContent "✅ Gemini API token configured successfully! You can now use nano-banana image generation features."] |} /\
  s' = configuredWith key s /\
  isConfigured s' = true /\
  trace w' =
    EvWriteFile configPath (json_stringify_config {| geminiApiKey := key |})
    :: trace w /\
  (exists mtime,
     fs w' !! configPath =
     Some (File (json_stringify_config {| geminiApiKey := key |}) mtime)) /\
  callTool {| name := "get_configuration_status"; arguments := arguments' |}
           s' w' =
    (Ok {| content := [TextContent statusFromFile] |}, s', w').
Proof.
  intros Hrun.
  rewrite (callTool_known _ configureGeminiToken) in Hrun by reflexivity.
  destruct (String.eqb_spec key "") as [->|Hne].
  { vm_compute in Hrun. discriminate Hrun. }
  rewrite (configureGeminiToken_run key) in Hrun by (reflexivity || assumption).
  split; [exact Hne|].
  assert (Hout : (Ok res, s', w') =
                 (Ok {| content :=
                          [TextContent "✅ Gemini API token configured successfully! You can now use nano-banana image generation features."] |},
                  configuredWith key s,
                  wrote configPath
                        (json_stringify_config {| geminiApiKey := key |}) w)).
  { destruct (fs w !! configPath) as [[bytes mtime|]|];
      [symmetry; exact Hrun | discriminate Hrun | symmetry; exact Hrun]. }
  injection Hout as -> -> ->.
  split; [reflexivity|]. split; [reflexivity|]. split; [reflexivity|].
  split; [reflexivity|].
  split; [exists (clock w); apply lookup_insert_eq|].
  rewrite (callTool_known _ (fun _ => getConfigurationStatus)) by reflexivity.
  reflexivity.
Qed.

(** X2. Configuring is not atomic: when the configuration file cannot be
    written (a directory is in its place) the call fails with an internal
    error, yet the session already holds the new credentials, so the
    [Configured?] guard of the image tools passes from then on. *)
Theorem configure_keeps_credentials_when_saving_fails key s w :
  key <> "" -> fs w !! configPath = Some Dir ->
  callTool (configureRequest key) s w =
    (Throw (McpError InternalError
              ("Tool execution failed: EISDIR: illegal operation on a directory, open '" +:+
               configPath +:+ "'")),
     configuredWith key s, w) /\
  isConfigured (configuredWith key s) = true.
Proof.
  intros Hne Hdir. split; [|reflexivity].
  rewrite (callTool_known _ configureGeminiToken) by reflexivity.
  rewrite (configureGeminiToken_run key) by (reflexivity || assumption).
  rewrite Hdir. reflexivity.
Qed.

(** X3. The two read-only tools never fail and change neither the session
    nor the world, whatever the arguments; asked again, they give the
    same answer. *)
Theorem read_only_tools_change_nothing toolName arguments' s w :
  toolName = "get_configuration_status" \/ toolName = "get_last_image_info" ->
  let request := {| name := toolName; arguments := arguments' |} in
  exists text,
    callTool request s w = (Ok {| content := [TextContent text] |}, s, w) /\
    callTool request (snd (fst (callTool request s w)))
                     (snd (callTool request s w)) =
    callTool request s w.
Proof.
  intros Hname request.
  assert (Hrun : exists text,
             callTool request s w =
             (Ok {| content := [TextContent text] |}, s, w)).
  { destruct Hname as [-> | ->].
    - destruct (getConfigurationStatus_run s w) as [text Hrun].
      exists text.
      rewrite (callTool_known _ (fun _ => getConfigurationStatus)) by reflexivity.
      rewrite Hrun. reflexivity.
    - destruct (getLastImageInfo_run s w) as [text Hrun].
      exists text.
      rewrite (callTool_known _ (fun _ => getLastImageInfo)) by reflexivity.
      rewrite Hrun. reflexivity. }
  destruct Hrun as [text Hrun]. exists text.
  split; [exact Hrun|]. rewrite Hrun. cbn [fst snd]. exact Hrun.
Qed.

End ConfigureAndStatus.

(** ** Loading the credentials at startup *)

Section Startup.

Context `{Plat : Platform}.

Lemma truthy_nonempty v : JS.truthy v = true -> JS.or_else v "" <> "".
Proof.
  destruct v as [text|]; cbn; [|discriminate].
  destruct (String.eqb_spec text ""); [discriminate | auto].
Qed.

(** X4. Startup tries the environment variable first and the local file
    second, and never fails or writes.  A non-empty key in the
    environment wins whatever the file holds; otherwise a file that
    yields a non-empty key is used; otherwise the credentials stay as
    they were and the provenance tag says "not configured". *)
Theorem credential_resolution_order s w :
  (JS.truthy env_GEMINI_API_KEY = true ->
   loadConfig s w =
   (Ok tt, configuredFromEnvironment (JS.or_else env_GEMINI_API_KEY "") s, w)) /\
  (JS.truthy env_GEMINI_API_KEY = false ->
   forall bytes mtime key,
     fs w !! configPath = Some (File bytes mtime) ->
     json_parse_geminiApiKey bytes = Some key -> key <> "" ->
     loadConfig s w = (Ok tt, configuredWith key s, w)) /\
  (JS.truthy env_GEMINI_API_KEY = false ->
   (forall bytes mtime key,
      fs w !! configPath = Some (File bytes mtime) ->
      json_parse_geminiApiKey bytes = Some key -> key = "") ->
   loadConfig s w = (Ok tt, set_configSource not_configured s, w)).
Proof.
  split; [|split].
  - intros Henv. unfold loadConfig, bind at 1. rewrite Henv.
    unfold try_catch, bind at 1.
    rewrite (ConfigSchema_parse_nonempty _ _ _ (truthy_nonempty _ Henv)).
    reflexivity.
  - intros Henv bytes mtime key Hfile Hparse Hne.
    unfold loadConfig, bind at 1. rewrite Henv.
    unfold ret at 1. cbn beta iota.
    unfold try_catch, bind at 1. rewrite readFile_run, Hfile.
    unfold bind at 1. rewrite Hparse.
    rewrite (ConfigSchema_parse_nonempty _ _ _ Hne). reflexivity.
  - intros Henv Hnone.
    unfold loadConfig, bind at 1. rewrite Henv.
    unfold ret at 1. cbn beta iota.
    unfold try_catch, bind at 1. rewrite readFile_run.
    destruct (fs w !! configPath) as [[bytes mtime|]|] eqn:Hfile;
      try reflexivity.
    unfold bind at 1.
    destruct (json_parse_geminiApiKey bytes) as [key|] eqn:Hparse;
      [|reflexivity].
    rewrite (Hnone bytes mtime key eq_refl Hparse). reflexivity.
Qed.


End Startup.

(** ** The tool list and the dispatcher *)

Section ToolList.

Context `{Plat : Platform}.

(** X6. The tools the server lists are the tools it dispatches: the six
    listed names are distinct, and a name has a handler exactly when it
    is listed; any other name is answered with method-not-found. *)
Theorem listed_tools_are_dispatched :
  List.NoDup (map tool_name listTools) /\
  List.length listTools = 6 /\
  (forall toolName,
     In toolName (map tool_name listTools) <->
     is_Some (handlerOf toolName)) /\
  (forall request s w,
     ~ In (name request) (map tool_name listTools) ->
     callTool request s w =
     (Throw (McpError MethodNotFound ("Unknown tool: " +:+ name request)),
      s, w)).
Proof.
  assert (Hnames : map tool_name listTools = toolNames) by reflexivity.
  split.
  { rewrite Hnames. unfold toolNames.
    repeat (constructor; [cbn; intros Hin;
                          repeat (destruct Hin as [Hin|Hin];
                                  [discriminate Hin|]); exact Hin|]).
    constructor. }
  split; [reflexivity|].
  split.
  - intros toolName. rewrite Hnames. split.
    + unfold toolNames. cbn. intros Hin.
      repeat (destruct Hin as [<-|Hin]; [eexists; reflexivity|]).
      destruct Hin.
    + intros [handler Hh]. eapply handlerOf_known, Hh.
  - intros request s w Hnot. rewrite Hnames in Hnot.
    unfold callTool, try_catch. rewrite (handlerOf_unknown _ Hnot).
    reflexivity.
Qed.

(** X7. The schemas agree with the handlers.  Every argument a tool
    requires is one it declares.  The three image tools advertise the
    same values for [aspectRatio] and for [imageSize].  For the request
    each of the three sends to the model ([generate_image], [edit_image]
    and the [edit_image] call [continue_editing] makes): the values
    used when these arguments are omitted ([4:3], and [1K] on the model
    that takes a size) are among the advertised ones; an aspect ratio
    the caller gives is sent as it is, and so is an image size on the
    model that takes one, whether advertised or not; on any other model
    no image size is sent. *)
Theorem schemas_agree_with_handlers :
  (forall tool required argument,
     In tool listTools ->
     is_required (tool_inputSchema tool) = Some required ->
     In argument required ->
     In argument (map fst (is_properties (tool_inputSchema tool)))) /\
  (forall argument,
     advertised "edit_image" argument = advertised "generate_image" argument /\
     advertised "continue_editing" argument =
     advertised "generate_image" argument) /\
  (forall request params toolName,
     params = generateParams request \/
     (exists imageParts, params = editParams request imageParts) \/
     (exists last imageParts,
        params = editParams (editOf last request) imageParts) ->
     In toolName ["generate_image"; "edit_image"; "continue_editing"] ->
     (aspectRatio (arguments request) = None ->
      cfg_aspectRatio (gc_imageConfig params) = "4:3" /\
      In "4:3" (advertised toolName "aspectRatio")) /\
     (imageSize (arguments request) = None ->
      forall size,
        cfg_imageSize (gc_imageConfig params) = Some size ->
        size = "1K" /\ In size (advertised toolName "imageSize")) /\
     (imageSize (arguments request) = None -> is_pro_model = true ->
      cfg_imageSize (gc_imageConfig params) = Some "1K") /\
     (forall ratio,
        aspectRatio (arguments request) = Some ratio ->
        cfg_aspectRatio (gc_imageConfig params) = ratio) /\
     (forall size,
        imageSize (arguments request) = Some size -> is_pro_model = true ->
        cfg_imageSize (gc_imageConfig params) = Some size) /\
     (is_pro_model = false -> cfg_imageSize (gc_imageConfig params) = None)).
Proof.
  split; [|split].
  - intros tool required argument Hin Hreq Harg. cbn in Hin.
    repeat (destruct Hin as [<-|Hin];
            [cbn in Hreq; try discriminate Hreq; injection Hreq as <-;
             cbn in Harg |- *; tauto|]).
    destruct Hin.
  - intros argument. unfold advertised.
    repeat match goal with
    | |- context [List.find ?f listTools] =>
        let found := eval vm_compute in (List.find f listTools) in
        change (List.find f listTools) with found
    end.
    cbn [is_properties tool_inputSchema List.find fst].
    repeat match goal with
    | |- context [String.eqb ?a argument] =>
        destruct (String.eqb_spec a argument) as [<-|_];
        [split; reflexivity|]
    end.
    split; reflexivity.
  - intros request params toolName Hparams Htool.
    assert (Hconfig : gc_imageConfig params =
                      imageConfigOf
                        (JS.param_default "4:3" (aspectRatio (arguments request)))
                        (JS.param_default "1K" (imageSize (arguments request)))).
    { destruct Hparams as [-> | [[imageParts ->] | (last & imageParts & ->)]];
        reflexivity. }
    rewrite Hconfig. unfold imageConfigOf. cbn [cfg_aspectRatio cfg_imageSize].
    assert (Hratio : In "4:3" (advertised toolName "aspectRatio")).
    { destruct Htool as [<- | [<- | [<- | []]]]; vm_compute; tauto. }
    assert (Hsize : In "1K" (advertised toolName "imageSize")).
    { destruct Htool as [<- | [<- | [<- | []]]]; vm_compute; tauto. }
    split; [intros ->; split; [reflexivity | exact Hratio]|].
    split.
    { intros -> size Hsent. cbn [JS.param_default] in Hsent.
      destruct is_pro_model; [|discriminate Hsent].
      injection Hsent as <-. split; [reflexivity | exact Hsize]. }
    split; [intros -> ->; reflexivity|].
    split; [intros ratio ->; reflexivity|].
    split; [intros size -> ->; reflexivity|].
    intros ->. reflexivity.
Qed.

End ToolList.

(** ** Which errors a call can end with *)

Section Errors.

Context `{Plat : Platform}.

Lemma throwsOnly_ret {A} P (a : A) : throwsOnly P (ret a).
Proof. intros s w error s' w' Hrun. discriminate Hrun. Qed.

Lemma throwsOnly_throw {A} (P : Thrown -> Prop) error :
  P error -> throwsOnly P (@throw A error).
Proof. intros HP s w e s' w' Hrun. injection Hrun as <- _ _. exact HP. Qed.

Lemma throwsOnly_bind {A B} P (c : M A) (k : A -> M B) :
  throwsOnly P c -> (forall a, throwsOnly P (k a)) -> throwsOnly P (bind c k).
Proof.
  intros Hc Hk s w error s' w' Hrun. unfold bind in Hrun.
  destruct (c s w) as [[[a|e] s1] w1] eqn:Hcs.
  - eapply Hk, Hrun.
  - injection Hrun as <- _ _. eapply Hc, Hcs.
Qed.

Lemma throwsOnly_try_catch {A} Q P (c : M A) (h : Thrown -> M A) :
  throwsOnly Q c -> (forall error, Q error -> throwsOnly P (h error)) ->
  throwsOnly P (try_catch c h).
Proof.
  intros Hc Hh s w error s' w' Hrun. unfold try_catch in Hrun.
  destruct (c s w) as [[[a|e] s1] w1] eqn:Hcs; [discriminate Hrun|].
  eapply Hh; [eapply Hc, Hcs | exact Hrun].
Qed.

Lemma throwsOnly_any {A} (c : M A) : throwsOnly (fun _ => True) c.
Proof. intros s w error s' w' _. exact I. Qed.

Lemma never_throws_getSession : throwsOnly (fun _ => False) getSession.
Proof. intros s w error s' w' Hrun. discriminate Hrun. Qed.

Lemma never_throws_ensureConfigured P : throwsOnly P ensureConfigured.
Proof. intros s w error s' w' Hrun. discriminate Hrun. Qed.

Lemma generateImage_throws request :
  throwsOnly (imageHandlerError "generate image: ") (generateImage request).
Proof.
  unfold generateImage, notConfigured.
  apply throwsOnly_bind; [apply never_throws_ensureConfigured|].
  intros configured. destruct configured; cbn [negb].
  - eapply throwsOnly_try_catch; [apply throwsOnly_any|].
    intros error _. apply throwsOnly_throw. right. eexists. reflexivity.
  - apply throwsOnly_throw. left. reflexivity.
Qed.

Lemma editImage_throws request :
  throwsOnly (imageHandlerError "edit image: ") (editImage request).
Proof.
  unfold editImage, notConfigured.
  apply throwsOnly_bind; [apply never_throws_ensureConfigured|].
  intros configured. destruct configured; cbn [negb].
  - eapply throwsOnly_try_catch; [apply throwsOnly_any|].
    intros error _. apply throwsOnly_throw. right. eexists. reflexivity.
  - apply throwsOnly_throw. left. reflexivity.
Qed.

Lemma continueEditing_throws request :
  throwsOnly continueError (continueEditing request).
Proof.
  unfold continueEditing, notConfigured.
  apply throwsOnly_bind; [apply never_throws_ensureConfigured|].
  intros configured. destruct configured; cbn [negb].
  2:{ apply throwsOnly_throw. left. eexists. reflexivity. }
  apply throwsOnly_bind.
  { intros s w error s' w' Hrun. discriminate Hrun. }
  intros s. destruct (JS.truthy (lastImagePath s)); cbn [negb].
  2:{ apply throwsOnly_throw. left. eexists. reflexivity. }
  apply throwsOnly_bind.
  - eapply throwsOnly_try_catch; [apply throwsOnly_any|].
    intros error _. apply throwsOnly_throw. left. eexists. reflexivity.
  - intros _. intros s0 w error s' w' Hrun.
    apply editImage_throws in Hrun as [-> | [message ->]].
    + left. eexists. reflexivity.
    + right. eexists. reflexivity.
Qed.

Lemma configureGeminiToken_throws request :
  throwsOnly configureError (configureGeminiToken request).
Proof.
  intros s w error s' w' Hrun.
  destruct (String.eqb_spec (apiKey (arguments request)) "") as [Hempty|Hne].
  - unfold configureGeminiToken in Hrun. rewrite Hempty in Hrun.
    injection Hrun as <- _ _. left. reflexivity.
  - rewrite (configureGeminiToken_run _ _ _ _ eq_refl Hne) in Hrun.
    destruct (fs w !! configPath) as [[bytes mtime|]|];
      try discriminate Hrun.
    injection Hrun as <- _ _. right. eexists. reflexivity.
Qed.

(** X8. A call never ends with anything but a protocol error, and the
    code tells what happened: method-not-found only for a name that is
    not listed; invalid-params only from [configure_gemini_token], when
    the schema rejects the key, and then nothing was changed;
    invalid-request only from the three image tools (credentials or
    previous image missing); internal-error only from the image tools
    and from a configuration that could not be saved.  The two
    read-only tools never fail. *)
Theorem error_codes_by_tool request s w error s' w' :
  callTool request s w = (Throw error, s', w') ->
  exists code message,
    error = McpError code message /\
    match code with
    | MethodNotFound =>
        ~ In (name request) toolNames /\
        message = "Unknown tool: " +:+ name request
    | InvalidParams =>
        name request = "configure_gemini_token" /\ s' = s /\ w' = w
    | InvalidRequest =>
        In (name request) ["generate_image"; "edit_image"; "continue_editing"]
    | InternalError =>
        In (name request)
           ["configure_gemini_token"; "generate_image"; "edit_image";
            "continue_editing"]
    end.
Proof.
  intros Hrun.
  destruct (handlerOf (name request)) as [handler|] eqn:Hh.
  2:{ unfold callTool, try_catch in Hrun. rewrite Hh in Hrun.
      injection Hrun as <- _ _.
      exists MethodNotFound, ("Unknown tool: " +:+ name request).
      split; [reflexivity|]. split; [|reflexivity].
      intros Hin.
      assert (Hsome : is_Some (handlerOf (name request))).
      { unfold toolNames in Hin. cbn in Hin.
        repeat (destruct Hin as [Heq|Hin];
                [rewrite <- Heq; eexists; reflexivity|]).
        destruct Hin. }
      rewrite Hh in Hsome. destruct Hsome as [h Hsome]. discriminate Hsome. }
  rewrite (callTool_known _ handler) in Hrun by assumption.
  destruct (handler request s w) as [[[value|thrown] s1] w1] eqn:Hhandler;
    [discriminate Hrun|].
  unfold handlerOf in Hh.
  destruct (String.eqb_spec (name request) "configure_gemini_token") as [Hn|_].
  { injection Hh as <-.
    pose proof Hhandler as Hkey.
    apply configureGeminiToken_throws in Hhandler as [-> | [message ->]].
    - injection Hrun as <- <- <-. do 2 eexists. split; [reflexivity|].
      split; [exact Hn|].
      destruct (String.eqb_spec (apiKey (arguments request)) "") as [Hempty|Hne].
      + unfold configureGeminiToken in Hkey. rewrite Hempty in Hkey.
        injection Hkey as <- <-. split; reflexivity.
      + rewrite (configureGeminiToken_run _ _ _ _ eq_refl Hne) in Hkey.
        destruct (fs w !! configPath) as [[bytes mtime|]|]; discriminate Hkey.
    - injection Hrun as <- _ _. do 2 eexists. split; [reflexivity|].
      rewrite Hn. cbn. tauto. }
  destruct (String.eqb_spec (name request) "generate_image") as [Hn|_].
  { injection Hh as <-.
    apply generateImage_throws in Hhandler as [-> | [message ->]];
      injection Hrun as <- _ _; do 2 eexists; (split; [reflexivity|]);
      rewrite Hn; cbn; tauto. }
  destruct (String.eqb_spec (name request) "edit_image") as [Hn|_].
  { injection Hh as <-.
    apply editImage_throws in Hhandler as [-> | [message ->]];
      injection Hrun as <- _ _; do 2 eexists; (split; [reflexivity|]);
      rewrite Hn; cbn; tauto. }
  destruct (String.eqb_spec (name request) "get_configuration_status") as [Hn|_].
  { injection Hh as <-.
    destruct (getConfigurationStatus_run s w) as [text Hok].
    rewrite Hok in Hhandler. discriminate Hhandler. }
  destruct (String.eqb_spec (name request) "continue_editing") as [Hn|_].
  { injection Hh as <-.
    apply continueEditing_throws in Hhandler as [[message ->] | [message ->]];
      injection Hrun as <- _ _; do 2 eexists; (split; [reflexivity|]);
      rewrite Hn; cbn; tauto. }
  destruct (String.eqb_spec (name request) "get_last_image_info") as [Hn|_];
    [|discriminate Hh].
  injection Hh as <-.
  destruct (getLastImageInfo_run s w) as [text Hok].
  rewrite Hok in Hhandler. discriminate Hhandler.
Qed.

End Errors.

(** ** What a call may change *)

Section Respect.

Context `{Plat : Platform}.

Variable R : Session -> World -> Session -> World -> Prop.
Hypothesis R_refl : forall s w, R s w s w.
Hypothesis R_trans :
  forall s w s1 w1 s2 w2, R s w s1 w1 -> R s1 w1 s2 w2 -> R s w s2 w2.

Lemma respects_ret {A} (a : A) : respects R (ret a).
Proof. intros s w. apply R_refl. Qed.

Lemma respects_throw {A} error : respects R (@throw A error).
Proof. intros s w. apply R_refl. Qed.

Lemma respects_fixed {A} (c : M A) :
  (forall s w, snd (fst (c s w)) = s /\ snd (c s w) = w) -> respects R c.
Proof. intros Hc s w. destruct (Hc s w) as [-> ->]. apply R_refl. Qed.

(** Sequencing, when the first part only returns values with [Q]. *)
Lemma respects_bind_returns {A B} (Q : A -> Prop) (c : M A) (k : A -> M B) :
  respects R c -> returns Q c -> (forall a, Q a -> respects R (k a)) ->
  respects R (bind c k).
Proof.
  intros Hc HQ Hk s w. unfold bind. specialize (Hc s w).
  destruct (c s w) as [[[a|error] s1] w1] eqn:Hrun; cbn in *.
  - eapply R_trans; [exact Hc|]. apply Hk. eapply HQ, Hrun.
  - exact Hc.
Qed.

Lemma respects_bind {A B} (c : M A) (k : A -> M B) :
  respects R c -> (forall a, respects R (k a)) -> respects R (bind c k).
Proof.
  intros Hc Hk. apply (respects_bind_returns (fun _ => True)); auto.
  intros s w a s' w' _. exact I.
Qed.

Lemma respects_try_catch {A} (c : M A) (h : Thrown -> M A) :
  respects R c -> (forall error, respects R (h error)) ->
  respects R (try_catch c h).
Proof.
  intros Hc Hh s w. unfold try_catch. specialize (Hc s w).
  destruct (c s w) as [[[a|error] s1] w1]; cbn in *.
  - exact Hc.
  - eapply R_trans; [exact Hc | apply Hh].
Qed.

Lemma respects_for_each {X Acc} (body : X -> Acc -> M Acc) xs :
  (forall x acc, respects R (body x acc)) ->
  forall acc, respects R (for_each body xs acc).
Proof.
  intros Hbody. induction xs as [|x rest IH]; intros acc; cbn [for_each].
  - apply respects_ret.
  - apply respects_bind; [apply Hbody | exact IH].
Qed.

(** The primitives that only look. *)
Lemma respects_getSession : respects R getSession.
Proof. apply respects_fixed. intros s w. split; reflexivity. Qed.

Lemma respects_access p : respects R (FS.access p).
Proof.
  apply respects_fixed. intros s w. unfold FS.access. run_monad.
  destruct (fs w !! p); split; reflexivity.
Qed.

Lemma respects_readFile p : respects R (FS.readFile p).
Proof.
  apply respects_fixed. intros s w. rewrite readFile_run.
  destruct (fs w !! p) as [[bytes mtime|]|]; split; reflexivity.
Qed.

Lemma respects_stat p : respects R (FS.stat p).
Proof.
  apply respects_fixed. intros s w. unfold FS.stat. run_monad.
  destruct (fs w !! p) as [[bytes mtime|]|]; split; reflexivity.
Qed.

Lemma respects_ensureConfigured : respects R ensureConfigured.
Proof. apply respects_fixed. intros s w. split; reflexivity. Qed.

Lemma respects_ConfigSchema_parse key : respects R (ConfigSchema_parse key).
Proof.
  apply respects_fixed. intros s w. unfold ConfigSchema_parse.
  destruct (String.length key <? 1)%nat; split; reflexivity.
Qed.

(** The handlers, given that their four ways of acting on the session or
    the world are fine: making the save directory, drawing a file name,
    calling the remote model, and saving an image under a drawn name. *)
Hypothesis R_mkdir : respects R (FS.mkdir getImagesDirectory).
Hypothesis R_synth : forall pre, respects R (synthFileName pre).
Hypothesis R_call :
  forall client params, respects R (callGenerateContent client params).
Hypothesis R_save :
  forall pre iso rnd bytes,
    pre = "generated" \/ pre = "edited" ->
    let p := path_join [getImagesDirectory;
                        pre +:+ "-" +:+ JS.replace_colon_dot iso +:+ "-" +:+
                        JS.substring 2 8 rnd +:+ ".png"] in
    respects R (FS.writeFile p bytes) /\
    respects R (setSession (set_lastImagePath p)).

Lemma synthFileName_returns pre :
  returns (fun fileName =>
             exists iso rnd,
               fileName = pre +:+ "-" +:+ JS.replace_colon_dot iso +:+ "-" +:+
                          JS.substring 2 8 rnd +:+ ".png")
          (synthFileName pre).
Proof.
  intros s w a s' w' Hrun. rewrite synthFileName_run in Hrun.
  injection Hrun as <- _ _. unfold fileNameAt. eauto.
Qed.

Lemma respects_remoteGenerate params : respects R (remoteGenerate params).
Proof.
  unfold remoteGenerate. apply respects_bind; [apply respects_getSession|].
  intros s. destruct (genAI s); [apply R_call | apply respects_throw].
Qed.

Lemma respects_generatePart part acc :
  respects R (generatePart getImagesDirectory part acc).
Proof.
  unfold generatePart. destruct (part_inlineData part) as [blob|];
    [|apply respects_ret].
  destruct (JS.truthy (blob_data blob)); [|apply respects_ret].
  eapply respects_bind_returns;
    [apply R_synth | apply synthFileName_returns |].
  intros fileName (iso & rnd & ->).
  destruct (R_save "generated" iso rnd
              (base64_decode (JS.or_else (blob_data blob) ""))
              (or_introl eq_refl)) as [Hwrite Hset].
  apply respects_bind; [exact Hwrite|]. intros _.
  apply respects_bind; [exact Hset|]. intros _. apply respects_ret.
Qed.

Lemma respects_editPart part acc :
  respects R (editPart getImagesDirectory part acc).
Proof.
  unfold editPart. destruct (part_inlineData part) as [blob|];
    [|apply respects_ret].
  eapply respects_bind_returns;
    [apply R_synth | apply synthFileName_returns |].
  intros fileName (iso & rnd & ->).
  destruct (R_save "edited" iso rnd
              (base64_decode (JS.or_else (blob_data blob) ""))
              (or_intror eq_refl)) as [Hwrite Hset].
  destruct (JS.truthy (blob_data blob)).
  - apply respects_bind.
    + apply respects_bind; [exact Hwrite|]. intros _.
      apply respects_bind; [exact Hset|]. intros _. apply respects_ret.
    + intros acc'. apply respects_ret.
  - apply respects_bind; [apply respects_ret|].
    intros acc'. apply respects_ret.
Qed.

Lemma respects_processResponse_generate response :
  respects R (processResponse generatePart response).
Proof.
  unfold processResponse. apply respects_bind; [exact R_mkdir|]. intros _.
  destruct (response_parts response); [|apply respects_ret].
  apply respects_for_each. intros part acc. apply respects_generatePart.
Qed.

Lemma respects_processResponse_edit response :
  respects R (processResponse editPart response).
Proof.
  unfold processResponse. apply respects_bind; [exact R_mkdir|]. intros _.
  destruct (response_parts response); [|apply respects_ret].
  apply respects_for_each. intros part acc. apply respects_editPart.
Qed.

Lemma respects_generateImage request : respects R (generateImage request).
Proof.
  unfold generateImage, notConfigured.
  apply respects_bind; [apply respects_ensureConfigured|].
  intros configured. destruct configured; cbn [negb]; [|apply respects_throw].
  apply respects_try_catch; [|intros error; apply respects_throw].
  apply respects_bind; [apply respects_remoteGenerate|]. intros response.
  apply respects_bind; [apply respects_processResponse_generate|].
  intros acc. apply respects_ret.
Qed.

Lemma respects_addReference refPath imageParts :
  respects R (addReference refPath imageParts).
Proof.
  apply respects_fixed. intros s w. rewrite addReference_run.
  split; reflexivity.
Qed.

Lemma respects_editImage request : respects R (editImage request).
Proof.
  unfold editImage, notConfigured.
  apply respects_bind; [apply respects_ensureConfigured|].
  intros configured. destruct configured; cbn [negb]; [|apply respects_throw].
  apply respects_try_catch; [|intros error; apply respects_throw].
  apply respects_bind; [apply respects_readFile|]. intros imageBuffer.
  apply respects_bind.
  { apply respects_for_each. intros refPath imageParts.
    apply respects_addReference. }
  intros imageParts.
  apply respects_bind; [apply respects_remoteGenerate|]. intros response.
  apply respects_bind; [apply respects_processResponse_edit|].
  intros acc. apply respects_ret.
Qed.

Lemma respects_continueEditing request : respects R (continueEditing request).
Proof.
  unfold continueEditing, notConfigured.
  apply respects_bind; [apply respects_ensureConfigured|].
  intros configured. destruct configured; cbn [negb]; [|apply respects_throw].
  apply respects_bind; [apply respects_getSession|]. intros s.
  destruct (JS.truthy (lastImagePath s)); cbn [negb]; [|apply respects_throw].
  apply respects_bind.
  - apply respects_try_catch; [apply respects_access|].
    intros error. apply respects_throw.
  - intros _. apply respects_editImage.
Qed.

Lemma respects_getConfigurationStatus : respects R getConfigurationStatus.
Proof.
  apply respects_fixed. intros s w.
  destruct (getConfigurationStatus_run s w) as [text ->]. split; reflexivity.
Qed.

Lemma respects_getLastImageInfo : respects R getLastImageInfo.
Proof.
  apply respects_fixed. intros s w.
  destruct (getLastImageInfo_run s w) as [text ->]. split; reflexivity.
Qed.

(** A call to any tool, given that configuring is fine as well. *)
Lemma respects_callTool request :
  (name request = "configure_gemini_token" ->
   respects R (configureGeminiToken request)) ->
  respects R (callTool request).
Proof.
  intros Hconfigure. unfold callTool. apply respects_try_catch.
  - unfold handlerOf.
    destruct (String.eqb_spec (name request) "configure_gemini_token");
      [auto|].
    repeat match goal with
    | |- context [if ?b then _ else _] => destruct b
    end;
    auto using respects_generateImage, respects_editImage,
      respects_getConfigurationStatus, respects_continueEditing,
      respects_getLastImageInfo, respects_throw.
  - intros error. destruct error; apply respects_throw.
Qed.

End Respect.

Section Credentials.

Context `{Plat : Platform}.

Lemma sameCredentials_refl s w : sameCredentials s w s w.
Proof. repeat split. Qed.

Lemma sameCredentials_trans s w s1 w1 s2 w2 :
  sameCredentials s w s1 w1 -> sameCredentials s1 w1 s2 w2 ->
  sameCredentials s w s2 w2.
Proof.
  unfold sameCredentials. intros (-> & -> & ->) (-> & -> & ->).
  repeat split.
Qed.

Lemma sameCredentials_session_fixed {A} (c : M A) :
  (forall s w, snd (fst (c s w)) = s) -> respects sameCredentials c.
Proof. intros Hc s w. rewrite Hc. repeat split. Qed.

Lemma sameCredentials_writeFile p bytes :
  respects sameCredentials (FS.writeFile p bytes).
Proof.
  apply sameCredentials_session_fixed. intros s w. rewrite writeFile_run.
  destruct (fs w !! p) as [[bytes' mtime|]|]; reflexivity.
Qed.

(** X9. Only [configure_gemini_token] touches the credentials: whatever
    else is called, and however the call ends, the key, the client and
    the provenance tag of the session are what they were. *)
Theorem only_configure_changes_credentials request s w :
  name request <> "configure_gemini_token" ->
  config (snd (fst (callTool request s w))) = config s /\
  genAI (snd (fst (callTool request s w))) = genAI s /\
  configSource (snd (fst (callTool request s w))) = configSource s.
Proof.
  intros Hother.
  apply (respects_callTool sameCredentials sameCredentials_refl
           sameCredentials_trans).
  - apply sameCredentials_session_fixed. intros s0 w0. rewrite mkdir_run.
    destruct (fs w0 !! getImagesDirectory) as [[bytes mtime|]|]; reflexivity.
  - intros pre. apply sameCredentials_session_fixed. reflexivity.
  - intros client params. apply sameCredentials_session_fixed. reflexivity.
  - intros pre iso rnd bytes _ p. split.
    + apply sameCredentials_writeFile.
    + intros s0 w0. repeat split.
  - intros Hname. contradiction.
Qed.

End Credentials.

Section Confinement.

Context `{Plat : Platform}.

Lemma filesKept_refl s w : filesKept s w s w.
Proof.
  exists []. split; [reflexivity|]. split; [constructor|].
  split; [auto|]. split; [auto|]. intros p bytes mtime Hfile. eauto.
Qed.

Lemma filesKept_trans s w s1 w1 s2 w2 :
  filesKept s w s1 w1 -> filesKept s1 w1 s2 w2 -> filesKept s w s2 w2.
Proof.
  intros (ev1 & Ht1 & Ha1 & Hf1 & Hd1 & Hk1) (ev2 & Ht2 & Ha2 & Hf2 & Hd2 & Hk2).
  exists (ev2 ++ ev1)%list. split; [|split; [|split; [|split]]].
  - rewrite Ht2, Ht1, app_assoc. reflexivity.
  - apply Forall_app. split; assumption.
  - intros p bytes mtime Hfile Hnot. apply Hf2.
    + apply Hf1; [exact Hfile|].
      intros written Hin. apply (Hnot written), in_app_iff. tauto.
    + intros written Hin. apply (Hnot written), in_app_iff. tauto.
  - intros p Hdir. apply Hd2, Hd1, Hdir.
  - intros p bytes mtime Hfile.
    destruct (Hk1 p bytes mtime Hfile) as (bytes1 & mtime1 & Hfile1).
    apply (Hk2 p bytes1 mtime1 Hfile1).
Qed.

Lemma filesKept_quiet s w s' w' :
  trace w' = trace w -> fs w' = fs w -> filesKept s w s' w'.
Proof.
  intros Ht Hfs. exists []. split; [exact Ht|]. split; [constructor|].
  rewrite Hfs. split; [auto|]. split; [auto|].
  intros p bytes mtime Hfile. eauto.
Qed.

Lemma filesKept_world_fixed {A} (c : M A) :
  (forall s w, snd (c s w) = w) -> respects filesKept c.
Proof. intros Hc s w. rewrite Hc. apply filesKept_quiet; reflexivity. Qed.

(** A write at a path that holds no directory. *)
Lemma filesKept_wrote s w s' p bytes :
  allowedEvent (EvWriteFile p bytes) -> fs w !! p <> Some Dir ->
  filesKept s w s' (wrote p bytes w).
Proof.
  intros Hallowed Hfree. exists [EvWriteFile p bytes].
  split; [reflexivity|].
  split; [constructor; [exact Hallowed | constructor]|].
  cbn [fs wrote]. split; [|split].
  - intros q qbytes mtime Hfile Hnot.
    rewrite lookup_insert_ne; [exact Hfile|].
    intros <-. apply (Hnot bytes). left. reflexivity.
  - intros q Hdir. rewrite lookup_insert_ne; [exact Hdir|].
    intros <-. contradiction.
  - intros q qbytes mtime Hfile. destruct (decide (p = q)) as [<-|Hne].
    + rewrite lookup_insert_eq. eauto.
    + rewrite lookup_insert_ne by assumption. eauto.
Qed.

Lemma filesKept_writeFile p bytes :
  allowedEvent (EvWriteFile p bytes) ->
  respects filesKept (FS.writeFile p bytes).
Proof.
  intros Hallowed s w. rewrite writeFile_run.
  destruct (fs w !! p) as [[bytes' mtime|]|] eqn:Hp;
    [|apply filesKept_refl|];
    apply filesKept_wrote; (exact Hallowed || (rewrite Hp; discriminate)).
Qed.

Lemma filesKept_mkdir : respects filesKept (FS.mkdir getImagesDirectory).
Proof.
  intros s w. rewrite mkdir_run.
  assert (Hmade : (forall bytes mtime,
                     fs w !! getImagesDirectory <> Some (File bytes mtime)) ->
                  filesKept s w s (made getImagesDirectory w)).
  { intros Hfree. exists [EvMkdir getImagesDirectory].
    split; [reflexivity|].
    split; [constructor; [reflexivity | constructor]|].
    cbn [fs made]. split; [|split].
    - intros q bytes mtime Hfile _.
      rewrite lookup_insert_ne; [exact Hfile|].
      intros <-. apply (Hfree bytes mtime), Hfile.
    - intros q Hdir. destruct (decide (getImagesDirectory = q)) as [<-|Hne].
      + apply lookup_insert_eq.
      + rewrite lookup_insert_ne by assumption. exact Hdir.
    - intros q bytes mtime Hfile.
      rewrite lookup_insert_ne; [eauto|].
      intros <-. apply (Hfree bytes mtime), Hfile. }
  destruct (fs w !! getImagesDirectory) as [[bytes mtime|]|] eqn:Hdir;
    [apply filesKept_refl | |]; apply Hmade; intros bytes mtime; discriminate.
Qed.

Lemma filesKept_configureGeminiToken request :
  respects filesKept (configureGeminiToken request).
Proof.
  intros s w.
  destruct (String.eqb_spec (apiKey (arguments request)) "") as [Hempty|Hne].
  - unfold configureGeminiToken. rewrite Hempty. apply filesKept_refl.
  - rewrite (configureGeminiToken_run _ _ _ _ eq_refl Hne).
    destruct (fs w !! configPath) as [[bytes mtime|]|] eqn:Hp;
      [|apply filesKept_quiet; reflexivity|];
      apply filesKept_wrote;
      (left; reflexivity) || (rewrite Hp; discriminate).
Qed.

(** X10. What a call does outside the session is confined.  Whatever
    the request and however the call ends, the events it adds are remote
    calls, the making of the save directory, and writes to the
    configuration file or to a synthesized image name inside the save
    directory.  Every file that was there and that none of those writes
    names is there afterwards with the bytes and the time it had;
    whatever was a directory is still a directory, and whatever was a
    file is still a file. *)
Theorem calls_write_only_where_expected request s w :
  exists events,
    trace (snd (callTool request s w)) = (events ++ trace w)%list /\
    (forall event, In event events ->
       match event with
       | EvGenerateContent _ _ => True
       | EvMkdir p => p = getImagesDirectory
       | EvWriteFile p _ =>
           p = configPath \/
           synthesized "generated" getImagesDirectory p \/
           synthesized "edited" getImagesDirectory p
       end) /\
    (forall p bytes mtime,
       fs w !! p = Some (File bytes mtime) ->
       (forall written, ~ In (EvWriteFile p written) events) ->
       fs (snd (callTool request s w)) !! p = Some (File bytes mtime)) /\
    (forall p,
       fs w !! p = Some Dir ->
       fs (snd (callTool request s w)) !! p = Some Dir) /\
    (forall p bytes mtime,
       fs w !! p = Some (File bytes mtime) ->
       exists bytes' mtime',
         fs (snd (callTool request s w)) !! p = Some (File bytes' mtime')).
Proof.
  assert (Hkept : respects filesKept (callTool request)).
  { apply (respects_callTool filesKept filesKept_refl filesKept_trans).
    - apply filesKept_mkdir.
    - intros pre. intros s0 w0. rewrite synthFileName_run.
      apply filesKept_quiet; reflexivity.
    - intros client params s0 w0.
      exists [EvGenerateContent client params].
      split; [reflexivity|]. split; [repeat constructor|].
      split; [auto|]. split; [auto|]. intros p bytes mtime Hfile. eauto.
    - intros pre iso rnd bytes Hpre p. split.
      + apply filesKept_writeFile. cbn. right.
        destruct Hpre as [-> | ->]; [left | right]; exists iso, rnd;
          reflexivity.
      + apply filesKept_world_fixed. reflexivity.
    - intros _. apply filesKept_configureGeminiToken. }
  destruct (Hkept s w) as (events & Htrace & Hallowed & Hframe & Hdirs & Hfiles).
  exists events. split; [exact Htrace|]. split; [|split; [|split]].
  - intros event Hin. rewrite Forall_forall in Hallowed.
    apply (Hallowed event), list_elem_of_In, Hin.
  - exact Hframe.
  - exact Hdirs.
  - exact Hfiles.
Qed.

End Confinement.

(** ** The text of the status block *)

Section StatusText.

Context `{Plat : Platform}.

Lemma append_empty_r (a : string) : a +:+ "" = a.
Proof.
  induction a as [|ch a IH]; [reflexivity|].
  change (String ch (a +:+ "") = String ch a). rewrite IH. reflexivity.
Qed.

Lemma add_text_textContent part acc :
  acc_textContent (add_text part acc) =
  acc_textContent acc +:+ JS.or_else (part_text part) "".
Proof.
  unfold add_text. destruct (part_text part) as [text|]; cbn.
  - destruct (String.eqb_spec text ""); cbn;
      [rewrite append_empty_r|]; reflexivity.
  - rewrite append_empty_r. reflexivity.
Qed.

Lemma loop_text pre dir body parts :
  (forall part acc s w, turn pre dir part acc s w (body part acc s w)) ->
  forall acc s w acc' s' w',
    for_each body parts acc s w = (Ok acc', s', w') ->
    acc_textContent acc' = acc_textContent acc +:+ textOf parts.
Proof.
  intros Hturn. induction parts as [|part rest IH];
    intros acc s w acc' s' w' Hrun.
  - cbn in Hrun. unfold ret in Hrun. injection Hrun as <- _ _.
    cbn. rewrite append_empty_r. reflexivity.
  - cbn [for_each] in Hrun. unfold bind in Hrun.
    pose proof (Hturn part acc s w) as Hstep. unfold turn in Hstep.
    assert (Hone : exists acc1 s1 w1,
               body part acc s w = (Ok acc1, s1, w1) /\
               acc_textContent acc1 = acc_textContent (add_text part acc)).
    { destruct (imageData part) as [[data blob]|].
      - cbv zeta in Hstep.
        destruct (fs w !! path_join [dir; fileNameAt pre w])
          as [[bytes mtime|]|];
          try (rewrite Hstep; eexists _, _, _; split; reflexivity).
        destruct Hstep as [error Hthrow]. rewrite Hthrow in Hrun.
        discriminate Hrun.
      - destruct Hstep as (w1 & Hout & _). rewrite Hout.
        eexists _, _, _. split; reflexivity. }
    destruct Hone as (acc1 & s1 & w1 & Hout & Htext).
    rewrite Hout in Hrun. apply IH in Hrun.
    rewrite Hrun, Htext, add_text_textContent. cbn [textOf fold_right].
    apply append_assoc.
Qed.

Lemma processed_text pre body response s w acc s' w' :
  (forall dir part acc s w,
     turn pre dir part acc s w (body dir part acc s w)) ->
  processResponse body response s w = (Ok acc, s', w') ->
  acc_textContent acc = textOf (partsOf response).
Proof.
  intros Hbody Hrun. rewrite processResponse_run in Hrun.
  assert (Hloop : for_each (body getImagesDirectory) (partsOf response) acc0 s
                           (made getImagesDirectory w) = (Ok acc, s', w')).
  { destruct (fs w !! getImagesDirectory) as [[bytes mtime|]|];
      [discriminate Hrun | exact Hrun | exact Hrun]. }
  apply (loop_text pre getImagesDirectory _ _ (Hbody getImagesDirectory))
    in Hloop.
  exact Hloop.
Qed.

(** X11. The status block of a successful [generate_image] call is made
    from the request and the response alone: its description is the text
    parts of the response put together in their order, and the files it
    lists are the files the call wrote, in the order it wrote them. *)
Theorem status_reports_text_and_files request s w res s' w' :
  generateImage request s w = (Ok res, s', w') ->
  exists client response (saved : list (string * (string * Blob))),
    genAI s = Some client /\
    generateContent (trace w) client (generateParams request) = Ok response /\
    map snd saved = imageBlobs (partsOf response) /\
    trace w' =
      (rev (map writeOf saved) ++
       EvMkdir getImagesDirectory ::
       EvGenerateContent client (generateParams request) :: trace w)%list /\
    head (content res) =
      Some (TextContent
              (generateStatus
                 (prompt (arguments request))
                 (JS.param_default "4:3" (aspectRatio (arguments request)))
                 (JS.param_default "1K" (imageSize (arguments request)))
                 {| acc_content := map imageOf (imageBlobs (partsOf response));
                    acc_savedFiles := map fst saved;
                    acc_textContent := textOf (partsOf response) |})).
Proof.
  intros Hrun.
  destruct (generateImage_ok_configured _ _ _ _ _ _ Hrun)
    as [Hc [client Hclient]].
  exists client.
  rewrite (generateImage_run _ client) in Hrun by assumption.
  destruct (generateContent (trace w) client (generateParams request))
    as [response|error] eqn:Hanswer; [|discriminate Hrun].
  destruct (processResponse generatePart response s
              (called client (generateParams request) w))
    as [[[acc|error] s1] w1] eqn:Hproc; [|discriminate Hrun].
  injection Hrun as <- <- <-.
  pose proof (processed_text "generated" _ _ _ _ _ _ _ generatePart_turn Hproc)
    as Htext.
  apply (processed_ok "generated") in Hproc; [|apply generatePart_turn].
  destruct Hproc as (saved & Hblobs & _ & Hcontent & Hfiles & Htrace & _).
  exists response, saved.
  repeat (split; [assumption || reflexivity|]).
  cbn [content head]. destruct acc as [c f t]. cbn in *. subst. reflexivity.
Qed.

End StatusText.

(** ** The model variant, failures of the remote call, and continuing *)

Section Variants.

Context `{Plat : Platform}.

Lemma bind_ext {A B} (c : M A) (k1 k2 : A -> M B) s w :
  (forall a s' w', k1 a s' w' = k2 a s' w') ->
  bind c k1 s w = bind c k2 s w.
Proof.
  intros Hk. unfold bind.
  destruct (c s w) as [[[a|error] s'] w']; [apply Hk | reflexivity].
Qed.

(** X12. On any model other than [gemini-3-pro-image-preview] the
    [imageSize] argument is dead: two calls that differ only in it do
    exactly the same thing, down to the status text.  On that model the
    size sent upstream is the one given, or [1K] when none is. *)
Theorem image_size_matters_only_on_pro request size s w :
  (is_pro_model = false ->
   generateImage (withImageSize request size) s w = generateImage request s w /\
   editImage (withImageSize request size) s w = editImage request s w /\
   continueEditing (withImageSize request size) s w =
   continueEditing request s w) /\
  (is_pro_model = true ->
   cfg_imageSize (gc_imageConfig (generateParams request)) =
   Some (JS.param_default "1K" (imageSize (arguments request))) /\
   forall imageParts,
     cfg_imageSize (gc_imageConfig (editParams request imageParts)) =
     Some (JS.param_default "1K" (imageSize (arguments request)))).
Proof.
  split.
  - intros Hflash.
    assert (Hedit : forall r s0 w0,
               editImage (withImageSize r size) s0 w0 = editImage r s0 w0).
    { intros r s0 w0. unfold editImage, imageConfigOf, editStatus.
      rewrite Hflash. reflexivity. }
    split; [|split].
    + unfold generateImage, imageConfigOf, generateStatus.
      rewrite Hflash. reflexivity.
    + apply Hedit.
    + unfold continueEditing.
      apply bind_ext. intros configured s1 w1.
      destruct (negb configured); [reflexivity|].
      apply bind_ext. intros s2 s3 w3.
      destruct (negb (JS.truthy (lastImagePath s2))); [reflexivity|].
      apply bind_ext. intros _ s4 w4.
      apply (Hedit (editOf (JS.or_else (lastImagePath s2) "") request)).
  - intros Hpro. unfold generateParams, editParams, imageConfigOf.
    cbn. rewrite Hpro. split; reflexivity.
Qed.

(** X13. The remote model is called before anything is done to the file
    system, and its failure is the failure of the call: the error comes
    out as one internal error carrying the upstream message (not wrapped
    a second time by the dispatcher), no directory is made, no file is
    written and the session is as before.  The same holds when the model
    answers but a file is in the place of the save directory. *)
Theorem remote_failure_surfaces request client s w :
  name request = "generate_image" ->
  isConfigured s = true -> genAI s = Some client ->
  (forall error,
     generateContent (trace w) client (generateParams request) = Throw error ->
     callTool request s w =
     (Throw (McpError InternalError
               ("Failed to generate image: " +:+ errorMessage error)),
      s, called client (generateParams request) w)) /\
  (forall response bytes mtime,
     generateContent (trace w) client (generateParams request) = Ok response ->
     fs w !! getImagesDirectory = Some (File bytes mtime) ->
     callTool request s w =
     (Throw (McpError InternalError
               ("Failed to generate image: EEXIST: file already exists, mkdir '" +:+
                getImagesDirectory +:+ "'")),
      s, called client (generateParams request) w)).
Proof.
  intros Hname Hc Hclient.
  assert (Hh : handlerOf (name request) = Some generateImage)
    by (rewrite Hname; reflexivity).
  split.
  - intros error Hanswer.
    rewrite (callTool_known _ generateImage) by assumption.
    rewrite (generateImage_run _ client) by assumption.
    rewrite Hanswer. reflexivity.
  - intros response bytes mtime Hanswer Hblocked.
    rewrite (callTool_known _ generateImage) by assumption.
    rewrite (generateImage_run _ client) by assumption.
    rewrite Hanswer, processResponse_run. cbn [fs called FS.log].
    rewrite Hblocked. reflexivity.
Qed.

Lemma continueEditing_run request last s w :
  isConfigured s = true -> lastImagePath s = Some last -> last <> "" ->
  is_Some (fs w !! last) ->
  continueEditing request s w = editImage (editOf last request) s w.
Proof.
  intros Hc Hlast Hne [node Hnode].
  unfold continueEditing, bind at 1.
  rewrite ensureConfigured_run, Hc. cbn [negb]. run_monad.
  rewrite Hlast, (truthy_Some _ Hne), (or_else_Some _ _ Hne). cbn [negb].
  unfold FS.access. run_monad. rewrite Hnode. reflexivity.
Qed.

(** X14. Generating and then continuing: after a [generate_image] call
    that ended normally and wrote a file, [continue_editing] is the edit
    of the file written last.  The request it sends to the model
    carries the bytes that were written there (encoded again in base64)
    with the mime type of that path, then one part for each listed
    reference image that is a readable file, in the order of the list,
    then the prompt. *)
Theorem continue_edits_the_image_just_saved request next refs s w res s' w' :
  generateImage request s w = (Ok res, s', w') ->
  (exists events p bytes,
     trace w' = (events ++ trace w)%list /\ In (EvWriteFile p bytes) events) ->
  referenceImages (arguments next) = Some refs \/
  (referenceImages (arguments next) = None /\ refs = []) ->
  exists last bytes mtime client earlier,
    lastImagePath s' = Some last /\
    trace w' = (EvWriteFile last bytes :: earlier ++ trace w)%list /\
    fs w' !! last = Some (File bytes mtime) /\
    genAI s' = Some client /\
    continueEditing next s' w' = editImage (editOf last next) s' w' /\
    exists events params,
      trace (snd (continueEditing next s' w')) =
        (events ++ EvGenerateContent client params :: trace w')%list /\
      gc_contents params =
        PartList
          (InlinePart (base64_encode bytes) (getMimeType last)
           :: omap (fun refPath =>
                      match fs w' !! refPath with
                      | Some (File refBytes _) =>
                          Some (InlinePart (base64_encode refBytes)
                                           (getMimeType refPath))
                      | _ => None
                      end) refs ++
              [PromptPart (prompt (arguments next))]).
Proof.
  intros Hrun Hwrote Hrefs.
  assert (Hlisted : nonEmptyRefs (referenceImages (arguments next)) = refs).
  { destruct Hrefs as [-> | [-> ->]]; reflexivity. }
  destruct (generateImage_ok_configured _ _ _ _ _ _ Hrun)
    as [Hc [client0 Hclient0]].
  pose proof Hrun as Hdone.
  apply generateImage_succeeded in Hdone as (client & Hclient & Hdone).
  destruct (succeeded_last_write _ _ _ _ _ _ _ _ _ Hdone Hwrote)
    as (last & bytes & mtime & earlier & Hne & Hlast & Hlog & Hfile).
  assert (Hsame : sameCredentials s w s' w').
  { pose proof (respects_generateImage sameCredentials sameCredentials_refl
                  sameCredentials_trans) as Hkeep.
    specialize (Hkeep
      ltac:(apply sameCredentials_session_fixed; intros s0 w0;
            rewrite mkdir_run;
            destruct (fs w0 !! getImagesDirectory) as [[b m|]|]; reflexivity)
      ltac:(intros pre; apply sameCredentials_session_fixed; reflexivity)
      ltac:(intros c0 p0; apply sameCredentials_session_fixed; reflexivity)
      ltac:(intros pre iso rnd b _ p; split;
            [apply sameCredentials_writeFile | intros s0 w0; repeat split])
      request s w).
    rewrite Hrun in Hkeep. exact Hkeep. }
  destruct Hsame as (Hconfig & HgenAI & _).
  assert (Hc' : isConfigured s' = true).
  { unfold isConfigured in *. rewrite Hconfig, HgenAI. exact Hc. }
  exists last, bytes, mtime, client, earlier.
  split; [exact Hlast|]. split; [exact Hlog|]. split; [exact Hfile|].
  split; [rewrite HgenAI; exact Hclient|].
  assert (Hcont : continueEditing next s' w' = editImage (editOf last next) s' w').
  { apply continueEditing_run; eauto. }
  split; [exact Hcont|].
  rewrite Hcont.
  rewrite (editImage_run _ client bytes mtime);
    [| exact Hc' | rewrite HgenAI; exact Hclient | exact Hfile].
  cbv zeta. unfold sentImages, editOf. cbn [imagePath arguments referenceImages].
  rewrite Hlisted.
  change (editParams
            {| name := "edit_image";
               arguments :=
                 {| apiKey := apiKey (arguments next);
                    prompt := prompt (arguments next);
                    imagePath := last;
                    referenceImages := referenceImages (arguments next);
                    aspectRatio := aspectRatio (arguments next);
                    imageSize := imageSize (arguments next) |} |})
    with (editParams next).
  set (params := editParams next _).
  assert (Hcontents :
            gc_contents params =
            PartList
              (InlinePart (base64_encode bytes) (getMimeType last)
               :: omap (fun refPath =>
                          match fs w' !! refPath with
                          | Some (File refBytes _) =>
                              Some (InlinePart (base64_encode refBytes)
                                               (getMimeType refPath))
                          | _ => None
                          end) refs ++
                  [PromptPart (prompt (arguments next))])) by reflexivity.
  destruct (generateContent (trace w') client params) as [response|error].
  - pose proof (keeps_processResponse editPart response keeps_editPart
                  s' (called client params w')) as (events' & Htrace & _).
    destruct (processResponse editPart response s' (called client params w'))
      as [[[acc|error] s2] w2]; exists events', params;
      (split; [exact Htrace | exact Hcontents]).
  - exists [], params. split; [reflexivity | exact Hcontents].
Qed.

End Variants.

(** ** The integration test script *)

Section TestScript.

Context `{Plat : Platform}.

Lemma checkFile_result w results file :
  Tester.checkFile w results file =
  (results ++ [Tester.fileResult w file])%list.
Proof.
  unfold Tester.checkFile, Tester.fileResult, Tester.addResult, FS.access.
  run_monad.
  destruct (fs w !! path_join [process_cwd; file]) as [node|] eqn:Hnode.
  - rewrite bool_decide_eq_true_2 by eauto. reflexivity.
  - rewrite bool_decide_eq_false_2; [reflexivity|].
    intros [node Hsome]. discriminate Hsome.
Qed.

Lemma checkFiles_results w files : forall results,
  fold_left (Tester.checkFile w) files results =
  (results ++ map (Tester.fileResult w) files)%list.
Proof.
  induction files as [|file rest IH]; intros results; cbn [fold_left map].
  - rewrite app_nil_r. reflexivity.
  - rewrite IH, checkFile_result, <- app_assoc. reflexivity.
Qed.

Lemma filter_all_length {A} (f : A -> bool) (l : list A) :
  List.length (List.filter f l) <= List.length l /\
  (List.length (List.filter f l) = List.length l <->
   forall x, In x l -> f x = true).
Proof.
  induction l as [|x l [IHle IHeq]]; cbn.
  - split; [lia|]. split; [intros _ y []|reflexivity].
  - destruct (f x) eqn:Hfx; cbn.
    + split; [lia|]. split.
      * intros Hlen y [<-|Hin]; [exact Hfx|]. apply IHeq; [lia | exact Hin].
      * intros Hall. f_equal. apply IHeq. intros y Hin. apply Hall.
        right. exact Hin.
    + split; [lia|]. split; [lia|].
      intros Hall. rewrite (Hall x) in Hfx by (left; reflexivity).
      discriminate Hfx.
Qed.

Lemma printResults_exits results :
  Tester.exits (Tester.printResults results) = true <->
  exists result, In result results /\ Tester.passed result = false.
Proof.
  unfold Tester.printResults. cbv zeta.
  destruct (filter_all_length Tester.passed results) as [Hle Heq].
  destruct (Nat.eqb_spec (List.length (List.filter Tester.passed results))
                         (List.length results)) as [Hall|Hsome]; cbn [Tester.exits].
  - split; [discriminate|].
    intros (result & Hin & Hfailed).
    rewrite (proj1 Heq Hall result Hin) in Hfailed. discriminate Hfailed.
  - split; [|reflexivity]. intros _.
    destruct (List.existsb (fun r => negb (Tester.passed r)) results) eqn:Hex.
    + apply List.existsb_exists in Hex as (result & Hin & Hneg).
      exists result. split; [exact Hin|].
      destruct (Tester.passed result); [discriminate Hneg | reflexivity].
    + exfalso. apply Hsome, Heq. intros x Hin.
      destruct (Tester.passed x) eqn:Hx; [reflexivity|].
      assert (Htrue : List.existsb (fun r => negb (Tester.passed r)) results = true).
      { apply List.existsb_exists. exists x. rewrite Hx. auto. }
      rewrite Htrue in Hex. discriminate Hex.
Qed.

(** X15. The report of the test script: it logs one line per recorded
    result, in the order they were recorded, then the count of passed
    results over the total; and it ends the process with exit code 1
    exactly when some recorded result has failed. *)
Theorem report_fails_exactly_on_a_failed_check results :
  (Tester.exits (Tester.printResults results) = true <->
   exists result, In result results /\ Tester.passed result = false) /\
  exists closing,
    Tester.lines (Tester.printResults results) =
    ([JS.nl +:+ "📋 Integration Test Results:"; Tester.repeat_string "═" 50] ++
     map Tester.resultLine results ++
     [Tester.repeat_string "═" 50;
      "📊 Results: " +:+
      JS.of_nat (List.length (List.filter Tester.passed results)) +:+ "/" +:+
      JS.of_nat (List.length results) +:+ " tests passed"] ++
     closing)%list.
Proof.
  split; [apply printResults_exits|].
  unfold Tester.printResults. cbv zeta.
  destruct (List.length (List.filter Tester.passed results) =? List.length results)%nat;
    cbn [Tester.lines]; eexists; rewrite <- !app_assoc; reflexivity.
Qed.

(** X16. The project-structure check records exactly one result per
    required file, after the results already there and in the order of
    the list; a result passes when something exists at that name under
    the working directory.  So when a required file is missing, the
    report ends the process with exit code 1 whatever else is
    recorded. *)
Theorem missing_required_file_fails_the_run w results :
  Tester.testProjectStructure w results =
    (results ++ map (Tester.fileResult w) Tester.requiredFiles)%list /\
  (forall file more,
     In file Tester.requiredFiles ->
     fs w !! path_join [process_cwd; file] = None ->
     Tester.exits
       (Tester.printResults (Tester.testProjectStructure w results ++ more))
     = true).
Proof.
  assert (Hrun : Tester.testProjectStructure w results =
                 (results ++ map (Tester.fileResult w) Tester.requiredFiles)%list)
    by apply checkFiles_results.
  split; [exact Hrun|].
  intros file more Hin Hmissing. apply printResults_exits.
  exists (Tester.fileResult w file). split.
  - rewrite Hrun. apply in_or_app. left. apply in_or_app. right.
    apply in_map. exact Hin.
  - unfold Tester.fileResult. cbn [Tester.passed].
    apply bool_decide_eq_false_2. rewrite Hmissing.
    intros [node Hsome]. discriminate Hsome.
Qed.

End TestScript.

(** ** The further properties on the demo platforms *)

Lemma configure_then_status_witness :
  let P := Demo.platform "0.4fzyo82mvyr" (Demo.answerWith []) in
  exists res s' w',
    callTool (configureRequest "secret") initialSession Demo.emptyWorld =
      (Ok res, s', w') /\
    s' = configuredWith "secret" initialSession /\
    trace w' =
      [EvWriteFile "/work/.nano-banana-config.json"
         (json_stringify_config {| geminiApiKey := "secret" |})] /\
    fst (fst (callTool {| name := "get_configuration_status";
                          arguments := Demo.args0 |} s' w')) =
      Ok {| content := [TextContent statusFromFile] |}.
Proof.
  intros P.
  destruct (callTool (configureRequest "secret") initialSession Demo.emptyWorld)
    as [[[res|error] s'] w'] eqn:Hrun;
    [|vm_compute in Hrun; discriminate Hrun].
  destruct (configure_then_status "secret" Demo.args0 initialSession
              Demo.emptyWorld res s' w' Hrun)
    as (_ & _ & Hsession & _ & Htrace & _ & Hstatus).
  exists res, s', w'. split; [reflexivity|]. split; [exact Hsession|].
  split; [exact Htrace|]. rewrite Hstatus. reflexivity.
Defined.

Lemma configure_keeps_credentials_witness :
  let P := Demo.platform "0.4fzyo82mvyr" (Demo.answerWith []) in
  let blocked :=
    {| fs := {[ "/work/.nano-banana-config.json" := Dir ]};
       trace := []; clock := 0; rng := 0 |} in
  snd (fst (callTool (configureRequest "secret") initialSession blocked)) =
    configuredWith "secret" initialSession /\
  snd (callTool (configureRequest "secret") initialSession blocked) = blocked.
Proof.
  intros P blocked.
  destruct (configure_keeps_credentials_when_saving_fails "secret"
              initialSession blocked) as [Hrun _].
  - discriminate.
  - vm_compute. reflexivity.
  - rewrite Hrun. split; reflexivity.
Defined.

Lemma read_only_tools_witness :
  let P := Demo.platform "0.4fzyo82mvyr" (Demo.answerWith []) in
  exists text,
    callTool {| name := "get_last_image_info"; arguments := Demo.args0 |}
             initialSession Demo.emptyWorld =
    (Ok {| content := [TextContent text] |}, initialSession, Demo.emptyWorld).
Proof.
  intros P.
  destruct (read_only_tools_change_nothing "get_last_image_info" Demo.args0
              initialSession Demo.emptyWorld (or_intror eq_refl))
    as (text & Hrun & _).
  exists text. exact Hrun.
Defined.

Lemma credential_resolution_witness :
  (let P := DemoJson.platform (Some "env-key") "0.4fzyo82mvyr"
              (Demo.answerWith []) in
   loadConfig initialSession Demo.emptyWorld =
   (Ok tt, configuredFromEnvironment "env-key" initialSession,
    Demo.emptyWorld)) /\
  (let P := DemoJson.platform (Some "") "0.4fzyo82mvyr" (Demo.answerWith []) in
   loadConfig initialSession Demo.emptyWorld =
   (Ok tt, initialSession, Demo.emptyWorld)).
Proof.
  split; intros P.
  - destruct (credential_resolution_order initialSession Demo.emptyWorld)
      as (Henv & _).
    apply Henv. reflexivity.
  - destruct (credential_resolution_order initialSession Demo.emptyWorld)
      as (_ & _ & Hnone).
    apply Hnone; [reflexivity|].
    intros bytes mtime key Hfile. vm_compute in Hfile. discriminate Hfile.
Defined.


Lemma listed_tools_witness :
  let P := Demo.platform "0.4fzyo82mvyr" (Demo.answerWith []) in
  callTool {| name := "list_tools"; arguments := Demo.args0 |}
           initialSession Demo.emptyWorld =
  (Throw (McpError MethodNotFound "Unknown tool: list_tools"),
   initialSession, Demo.emptyWorld).
Proof.
  intros P.
  destruct listed_tools_are_dispatched as (_ & _ & _ & Hunknown).
  apply (Hunknown {| name := "list_tools"; arguments := Demo.args0 |}).
  cbn. intros Hin.
  repeat (destruct Hin as [Hin|Hin]; [discriminate Hin|]). exact Hin.
Defined.

(** On the model that takes a size: with both arguments omitted the
    handlers send [4:3] and [1K], which are advertised; given [7:1] and
    [8K], which are not, they send them as they are, to the model as
    [generate_image] and as [continue_editing] call it. *)
Lemma schemas_agree_witness :
  let P := DemoSeq.platform (Some "gemini-3-pro-image-preview") []
             (Demo.answerWith []) in
  let plain := {| name := "generate_image"; arguments := Demo.args0 |} in
  let odd :=
    {| name := "continue_editing";
       arguments :=
         {| apiKey := ""; prompt := "wider"; imagePath := "";
            referenceImages := None;
            aspectRatio := Some "7:1"; imageSize := Some "8K" |} |} in
  gc_imageConfig (generateParams plain) =
    {| cfg_aspectRatio := "4:3"; cfg_imageSize := Some "1K" |} /\
  In "4:3" (advertised "generate_image" "aspectRatio") /\
  In "1K" (advertised "generate_image" "imageSize") /\
  cfg_aspectRatio
    (gc_imageConfig (editParams (editOf "/work/last.png" odd) [])) = "7:1" /\
  cfg_imageSize
    (gc_imageConfig (editParams (editOf "/work/last.png" odd) [])) = Some "8K" /\
  ~ In "7:1" (advertised "continue_editing" "aspectRatio") /\
  ~ In "8K" (advertised "continue_editing" "imageSize").
Proof.
  intros P plain odd.
  destruct schemas_agree_with_handlers as (_ & _ & Hsent).
  destruct (Hsent plain (generateParams plain) "generate_image")
    as (Hratio & Hdefault & Hsize & _).
  { left. reflexivity. }
  { left. reflexivity. }
  destruct (Hsent odd (editParams (editOf "/work/last.png" odd) [])
                  "continue_editing")
    as (_ & _ & _ & Hgiven & Hgivensize & _).
  { right. right. exists "/work/last.png", []. reflexivity. }
  { right. right. left. reflexivity. }
  destruct (Hratio eq_refl) as [Hsentratio Hlisted].
  pose proof (Hsize eq_refl eq_refl) as Hsentsize.
  destruct (Hdefault eq_refl "1K" Hsentsize) as [_ Hlistedsize].
  split.
  { destruct (gc_imageConfig (generateParams plain)) as [ratio size] eqn:Hcfg.
    cbn in Hsentratio, Hsentsize. rewrite Hsentratio, Hsentsize. reflexivity. }
  split; [exact Hlisted|]. split; [exact Hlistedsize|].
  split; [apply (Hgiven "7:1" eq_refl)|].
  split; [apply (Hgivensize "8K" eq_refl eq_refl)|].
  split; vm_compute; intros Hin;
    repeat (destruct Hin as [Hin|Hin]; [discriminate Hin|]); exact Hin.
Defined.

(** Three calls that fail, each with the code of its tool: an image
    call without credentials, the empty key, and a name not listed. *)
Lemma error_codes_witness :
  let P := Demo.platform "0.4fzyo82mvyr" (Demo.answerWith []) in
  let request := {| name := "generate_image"; arguments := Demo.args0 |} in
  let unlisted := {| name := "frobnicate"; arguments := Demo.args0 |} in
  (exists message,
     callTool request initialSession Demo.emptyWorld =
       (Throw (McpError InvalidRequest message), initialSession, Demo.emptyWorld) /\
     In (name request) ["generate_image"; "edit_image"; "continue_editing"]) /\
  (exists message,
     callTool (configureRequest "") initialSession Demo.emptyWorld =
       (Throw (McpError InvalidParams message), initialSession, Demo.emptyWorld)) /\
  callTool unlisted initialSession Demo.emptyWorld =
    (Throw (McpError MethodNotFound "Unknown tool: frobnicate"),
     initialSession, Demo.emptyWorld).
Proof.
  intros P request unlisted.
  split; [|split].
  - assert (Hrun : callTool request initialSession Demo.emptyWorld =
                   (Throw (McpError InvalidRequest
                             "Gemini API token not configured. Use configure_gemini_token first."),
                    initialSession, Demo.emptyWorld)) by reflexivity.
    destruct (error_codes_by_tool request initialSession Demo.emptyWorld _ _ _ Hrun)
      as (code & message & Heq & Hcase).
    injection Heq as <- <-.
    eexists. split; [exact Hrun | exact Hcase].
  - destruct (callTool (configureRequest "") initialSession Demo.emptyWorld)
      as [[[res|error] s'] w'] eqn:Hrun;
      [vm_compute in Hrun; discriminate Hrun|].
    destruct (error_codes_by_tool _ _ _ _ _ _ Hrun)
      as (code & message & -> & Hcase).
    destruct code; try (vm_compute in Hrun; discriminate Hrun).
    destruct Hcase as (_ & -> & ->). eexists. reflexivity.
  - destruct (callTool unlisted initialSession Demo.emptyWorld)
      as [[[res|error] s'] w'] eqn:Hrun;
      [vm_compute in Hrun; discriminate Hrun|].
    destruct (error_codes_by_tool _ _ _ _ _ _ Hrun)
      as (code & message & -> & Hcase).
    destruct code; try (vm_compute in Hrun; discriminate Hrun).
    destruct Hcase as [_ ->].
    vm_compute in Hrun. injection Hrun as <- <-. reflexivity.
Defined.

Lemma only_configure_changes_credentials_witness :
  let P := Demo.platform "0.4fzyo82mvyr"
             (Demo.answerWith [Demo.imagePart "aGVsbG8="]) in
  config (snd (fst (callTool {| name := "generate_image"; arguments := Demo.args0 |}
                      Demo.configured Demo.emptyWorld))) =
  Some {| geminiApiKey := "k" |}.
Proof.
  intros P.
  destruct (only_configure_changes_credentials
              {| name := "generate_image"; arguments := Demo.args0 |}
              Demo.configured Demo.emptyWorld) as (Hconfig & _).
  - discriminate.
  - rewrite Hconfig. reflexivity.
Defined.

(** A [generate_image] call on a disk that holds a file of notes: the
    call writes one image, and the notes are there as they were. *)
Lemma calls_write_only_witness :
  let P := Demo.platform "0.4fzyo82mvyr"
             (Demo.answerWith [Demo.imagePart "aGVsbG8="]) in
  let request := {| name := "generate_image"; arguments := Demo.args0 |} in
  let disk :=
    {| fs := {[ "/work/notes.txt" := File (list_byte_of_string "hi") 7 ]};
       trace := []; clock := 0; rng := 0 |} in
  let out := callTool request Demo.configured disk in
  (exists call,
     trace (snd out) =
       [EvWriteFile
          "/work/generated_imgs/generated-2025-01-02T03-04-05-678Z-4fzyo8.png"
          (list_byte_of_string "hello");
        EvMkdir "/work/generated_imgs"; call]) /\
  fs (snd out) !! "/work/notes.txt" = Some (File (list_byte_of_string "hi") 7).
Proof.
  intros P request disk out. subst out.
  split; [eexists; vm_compute; reflexivity|].
  destruct (calls_write_only_where_expected request Demo.configured disk)
    as (events & Htrace & _ & Hframe & _).
  apply Hframe; [vm_compute; reflexivity|].
  intros written Hin.
  assert (Hevents : events = trace (snd (callTool request Demo.configured disk))).
  { rewrite Htrace. cbn [trace disk]. rewrite app_nil_r. reflexivity. }
  rewrite Hevents in Hin. vm_compute in Hin.
  destruct Hin as [Hin | [Hin | [Hin | []]]]; discriminate Hin.
Defined.

Lemma status_reports_text_and_files_witness :
  let P := Demo.platform "0.4fzyo82mvyr"
             (Demo.answerWith [Demo.textPart "A cat"; Demo.imagePart "aGVsbG8=";
                               Demo.textPart " on a mat"]) in
  let request := {| name := "generate_image"; arguments := Demo.args0 |} in
  exists res s' w' status,
    generateImage request Demo.configured Demo.emptyWorld = (Ok res, s', w') /\
    head (content res) = Some (TextContent status) /\
    JS.includes status "Description: A cat on a mat" = true /\
    JS.includes status
      "- /work/generated_imgs/generated-2025-01-02T03-04-05-678Z-4fzyo8.png" = true.
Proof.
  intros P request.
  destruct (generateImage request Demo.configured Demo.emptyWorld)
    as [[[res|error] s'] w'] eqn:Hrun;
    [|vm_compute in Hrun; discriminate Hrun].
  destruct (status_reports_text_and_files request Demo.configured
              Demo.emptyWorld res s' w' Hrun)
    as (client & response & saved & _ & Hanswer & Hblobs & Htrace & Hstatus).
  cbn in Hanswer. injection Hanswer as <-.
  eexists res, s', w', _. split; [reflexivity|]. split; [exact Hstatus|].
  vm_compute in Hrun. injection Hrun as _ _ <-.
  destruct saved as [|[p image] [|second rest]];
    [discriminate Hblobs | | discriminate Hblobs].
  cbn in Htrace. injection Htrace as <-.
  split; vm_compute; reflexivity.
Defined.

Lemma image_size_witness :
  let P := Demo.platform "0.4fzyo82mvyr"
             (Demo.answerWith [Demo.imagePart "aGVsbG8="]) in
  let request := {| name := "generate_image"; arguments := Demo.args0 |} in
  generateImage (withImageSize request (Some "4K")) Demo.configured Demo.emptyWorld =
  generateImage request Demo.configured Demo.emptyWorld.
Proof.
  intros P request.
  destruct (image_size_matters_only_on_pro request (Some "4K") Demo.configured
              Demo.emptyWorld) as [Hflash _].
  destruct (Hflash eq_refl) as [Hgenerate _]. exact Hgenerate.
Defined.

Lemma remote_failure_witness :
  let P := Demo.platform "0.4fzyo82mvyr" (Throw (JsError "quota exceeded")) in
  let request := {| name := "generate_image"; arguments := Demo.args0 |} in
  fst (fst (callTool request Demo.configured Demo.emptyWorld)) =
    Throw (McpError InternalError "Failed to generate image: quota exceeded") /\
  fs (snd (callTool request Demo.configured Demo.emptyWorld)) = ∅.
Proof.
  intros P request.
  destruct (remote_failure_surfaces request {| client_apiKey := "k" |}
              Demo.configured Demo.emptyWorld eq_refl eq_refl eq_refl)
    as [Hthrows _].
  rewrite (Hthrows (JsError "quota exceeded") eq_refl). split; reflexivity.
Defined.

(** Two images are generated; continuing with two references, of which
    the first does not exist, sends the second image generated, the
    second reference and the prompt. *)
Lemma continue_edits_the_image_just_saved_witness :
  let P := DemoSeq.platform None ["0.4fzyo82mvyr"; "0.k3x9q1z7abc"]
             (Demo.answerWith [Demo.imagePart "aGVsbG8=";
                               Demo.imagePart "aGk="]) in
  let request := {| name := "generate_image"; arguments := Demo.args0 |} in
  let next :=
    {| name := "continue_editing";
       arguments :=
         {| apiKey := ""; prompt := "add a hat"; imagePath := "";
            referenceImages := Some ["/work/missing.jpg"; "/work/style.JPG"];
            aspectRatio := None; imageSize := None |} |} in
  let disk :=
    {| fs := {[ "/work/style.JPG" := File (list_byte_of_string "hello") 0 ]};
       trace := []; clock := 0; rng := 0 |} in
  let second :=
    "/work/generated_imgs/generated-2025-01-02T03-04-05-678Z-k3x9q1.png" in
  let out := generateImage request Demo.configured disk in
  lastImagePath (snd (fst out)) = Some second /\
  continueEditing next (snd (fst out)) (snd out) =
    editImage (editOf second next) (snd (fst out)) (snd out) /\
  exists events params,
    trace (snd (continueEditing next (snd (fst out)) (snd out))) =
      (events ++
       EvGenerateContent {| client_apiKey := "k" |} params :: trace (snd out))%list /\
    gc_contents params =
      PartList [InlinePart "aGk=" "image/png";
                InlinePart "aGVsbG8=" "image/jpeg";
                PromptPart "add a hat"].
Proof.
  intros P request next disk second out. subst out.
  destruct (generateImage request Demo.configured disk)
    as [[[res|error] s'] w'] eqn:Hrun;
    [|vm_compute in Hrun; discriminate Hrun].
  assert (Hwrote : exists events p bytes,
             trace w' = (events ++ trace disk)%list /\
             In (EvWriteFile p bytes) events).
  { exists (trace w'). vm_compute in Hrun. injection Hrun as _ _ <-.
    eexists _, _. split; [reflexivity|]. left. reflexivity. }
  destruct (continue_edits_the_image_just_saved request next
              ["/work/missing.jpg"; "/work/style.JPG"]
              Demo.configured disk res s' w' Hrun Hwrote
              (or_introl eq_refl))
    as (last & bytes & mtime & client & earlier & Hlast & Hlog & Hfile &
        Hclient & Hcontinue & events & params & Htrace & Hcontents).
  cbn [fst snd].
  assert (Hs' : lastImagePath s' = Some second /\
                genAI s' = Some {| client_apiKey := "k" |}).
  { vm_compute in Hrun. injection Hrun as _ <- _. split; reflexivity. }
  destruct Hs' as [Hsecond Hk].
  assert (Heq : last = second) by congruence. subst last.
  assert (Hck : client = {| client_apiKey := "k" |}) by congruence.
  subst client.
  split; [exact Hsecond|]. split; [exact Hcontinue|].
  exists events, params. split; [exact Htrace|].
  rewrite Hcontents.
  vm_compute in Hrun. injection Hrun as _ _ <-.
  vm_compute in Hfile. injection Hfile as <- _.
  vm_compute. reflexivity.
Defined.

Lemma missing_required_file_witness :
  let P := Demo.platform "0.4fzyo82mvyr" (Demo.answerWith []) in
  Tester.exits
    (Tester.printResults (Tester.testProjectStructure Demo.emptyWorld [] ++ []))
  = true.
Proof.
  intros P.
  destruct (missing_required_file_fails_the_run Demo.emptyWorld [])
    as [_ Hfails].
  apply (Hfails "README.md" []).
  - cbn. tauto.
  - vm_compute. reflexivity.
Defined.
